(** * ire-leads-bot: a shallow embedding of [main.py]

    The bot takes a pasted block of lead text, parses it with per-field
    regular expressions, validates it, appends one row to a Google sheet and
    then drives an inline-keyboard editing workflow over that row.

    The embedding follows the source function by function and keeps its
    names.  Python [str] values are lists of Unicode code points, the sheet
    is a grid of cells, and the handlers run in a small state-and-exception
    monad over the sheet, the replies sent and the per-user [user_data]. *)

From Stdlib Require Import String Ascii DecimalString DecimalPos.
From Stdlib Require Import List ZArith NArith Bool Lia.
Import ListNotations.

Open Scope N_scope.

(** ** Text: Python [str] as a list of code points *)

Definition char := N.
Definition str := list char.

Fixpoint bytes_of (s : String.string) : list N :=
  match s with
  | String.EmptyString => []
  | String.String a s' => Ascii.N_of_ascii a :: bytes_of s'
  end.

(** The literals of this file are written in UTF-8, as [main.py] is; [u]
    decodes one into the code points Python sees. *)
Fixpoint utf8_decode (fuel : nat) (bs : list N) : str :=
  match fuel with
  | O => []
  | S fuel' =>
    match bs with
    | [] => []
    | b0 :: r0 =>
      if b0 <? 128 then b0 :: utf8_decode fuel' r0
      else if b0 <? 224 then
        match r0 with
        | b1 :: r1 => ((b0 - 192) * 64 + (b1 - 128)) :: utf8_decode fuel' r1
        | _ => []
        end
      else if b0 <? 240 then
        match r0 with
        | b1 :: b2 :: r2 =>
            ((b0 - 224) * 4096 + (b1 - 128) * 64 + (b2 - 128))
              :: utf8_decode fuel' r2
        | _ => []
        end
      else
        match r0 with
        | b1 :: b2 :: b3 :: r3 =>
            ((b0 - 240) * 262144 + (b1 - 128) * 4096 + (b2 - 128) * 64
             + (b3 - 128)) :: utf8_decode fuel' r3
        | _ => []
        end
    end
  end.

Definition u (s : String.string) : str :=
  utf8_decode (String.length s) (bytes_of s).

Arguments u s%_string.

Definition nl : str := [10].
Definition dquote : str := [34].

Fixpoint str_eqb (s t : str) : bool :=
  match s, t with
  | [], [] => true
  | c :: s', d :: t' => (c =? d) && str_eqb s' t'
  | _, _ => false
  end.

(** Python truthiness of a [str]. *)
Definition truthy (s : str) : bool :=
  match s with [] => false | _ => true end.

(** [a or b] on strings. *)
Definition str_or (a b : str) : str := if truthy a then a else b.

(** [str.isspace] on one code point, which is also the regular expressions'
    [\s]: the 29 code points CPython's [Py_UNICODE_ISSPACE] accepts. *)
Definition isspace (c : char) : bool :=
  ((0x09 <=? c) && (c <=? 0x0D)) || ((0x1C <=? c) && (c <=? 0x20))
  || (c =? 0x85) || (c =? 0xA0) || (c =? 0x1680)
  || ((0x2000 <=? c) && (c <=? 0x200A))
  || (c =? 0x2028) || (c =? 0x2029) || (c =? 0x202F) || (c =? 0x205F)
  || (c =? 0x3000).

(** The first code point of every run of ten decimal digits (Unicode
    category Nd, Unicode 14); the mathematical digits U+1D7CE..U+1D7FF are
    five such runs in a row. *)
Definition nd_blocks : list N :=
  [0x30; 0x660; 0x6F0; 0x7C0; 0x966; 0x9E6; 0xA66; 0xAE6; 0xB66; 0xBE6;
   0xC66; 0xCE6; 0xD66; 0xDE6; 0xE50; 0xED0; 0xF20; 0x1040; 0x1090; 0x17E0;
   0x1810; 0x1946; 0x19D0; 0x1A80; 0x1A90; 0x1B50; 0x1BB0; 0x1C40; 0x1C50;
   0xA620; 0xA8D0; 0xA900; 0xA9D0; 0xA9F0; 0xAA50; 0xABF0; 0xFF10;
   0x104A0; 0x10D30; 0x11066; 0x110F0; 0x11136; 0x111D0; 0x112F0; 0x11450;
   0x114D0; 0x11650; 0x116C0; 0x11730; 0x118E0; 0x11950; 0x11C50; 0x11D50;
   0x11DA0; 0x16A60; 0x16AC0; 0x16B50;
   0x1D7CE; 0x1D7D8; 0x1D7E2; 0x1D7EC; 0x1D7F6;
   0x1E140; 0x1E2F0; 0x1E950; 0x1FBF0].

Definition in_block (c lo : N) : bool := (lo <=? c) && (c <? lo + 10).

(** [str.isdecimal] on one code point, the regular expressions' [\d]. *)
Definition isdecimal (c : char) : bool := existsb (in_block c) nd_blocks.

Definition digit_value (c : char) : option N :=
  match find (in_block c) nd_blocks with
  | Some lo => Some (c - lo)
  | None => None
  end.

(** [c] lies in one of the ranges [rs], both ends included. *)
Definition in_ranges (c : char) (rs : list (N * N)) : bool :=
  existsb (fun r => (fst r <=? c) && (c <=? snd r)) rs.

(** The alphanumeric code points of Unicode 14, as ranges: the letters,
    the decimal digits, the other digits and the other numbers. *)
Definition alnum_ranges : list (N * N) :=
  [
   (0x30, 0x39); (0x41, 0x5A); (0x61, 0x7A); (0xAA, 0xAA); (0xB2, 0xB3);
   (0xB5, 0xB5); (0xB9, 0xBA); (0xBC, 0xBE); (0xC0, 0xD6); (0xD8, 0xF6);
   (0xF8, 0x2C1); (0x2C6, 0x2D1); (0x2E0, 0x2E4); (0x2EC, 0x2EC);
   (0x2EE, 0x2EE); (0x370, 0x374); (0x376, 0x377); (0x37A, 0x37D);
   (0x37F, 0x37F); (0x386, 0x386); (0x388, 0x38A); (0x38C, 0x38C);
   (0x38E, 0x3A1); (0x3A3, 0x3F5); (0x3F7, 0x481); (0x48A, 0x52F);
   (0x531, 0x556); (0x559, 0x559); (0x560, 0x588); (0x5D0, 0x5EA);
   (0x5EF, 0x5F2); (0x620, 0x64A); (0x660, 0x669); (0x66E, 0x66F);
   (0x671, 0x6D3); (0x6D5, 0x6D5); (0x6E5, 0x6E6); (0x6EE, 0x6FC);
   (0x6FF, 0x6FF); (0x710, 0x710); (0x712, 0x72F); (0x74D, 0x7A5);
   (0x7B1, 0x7B1); (0x7C0, 0x7EA); (0x7F4, 0x7F5); (0x7FA, 0x7FA);
   (0x800, 0x815); (0x81A, 0x81A); (0x824, 0x824); (0x828, 0x828);
   (0x840, 0x858); (0x860, 0x86A); (0x870, 0x887); (0x889, 0x88E);
   (0x8A0, 0x8C9); (0x904, 0x939); (0x93D, 0x93D); (0x950, 0x950);
   (0x958, 0x961); (0x966, 0x96F); (0x971, 0x980); (0x985, 0x98C);
   (0x98F, 0x990); (0x993, 0x9A8); (0x9AA, 0x9B0); (0x9B2, 0x9B2);
   (0x9B6, 0x9B9); (0x9BD, 0x9BD); (0x9CE, 0x9CE); (0x9DC, 0x9DD);
   (0x9DF, 0x9E1); (0x9E6, 0x9F1); (0x9F4, 0x9F9); (0x9FC, 0x9FC);
   (0xA05, 0xA0A); (0xA0F, 0xA10); (0xA13, 0xA28); (0xA2A, 0xA30);
   (0xA32, 0xA33); (0xA35, 0xA36); (0xA38, 0xA39); (0xA59, 0xA5C);
   (0xA5E, 0xA5E); (0xA66, 0xA6F); (0xA72, 0xA74); (0xA85, 0xA8D);
   (0xA8F, 0xA91); (0xA93, 0xAA8); (0xAAA, 0xAB0); (0xAB2, 0xAB3);
   (0xAB5, 0xAB9); (0xABD, 0xABD); (0xAD0, 0xAD0); (0xAE0, 0xAE1);
   (0xAE6, 0xAEF); (0xAF9, 0xAF9); (0xB05, 0xB0C); (0xB0F, 0xB10);
   (0xB13, 0xB28); (0xB2A, 0xB30); (0xB32, 0xB33); (0xB35, 0xB39);
   (0xB3D, 0xB3D); (0xB5C, 0xB5D); (0xB5F, 0xB61); (0xB66, 0xB6F);
   (0xB71, 0xB77); (0xB83, 0xB83); (0xB85, 0xB8A); (0xB8E, 0xB90);
   (0xB92, 0xB95); (0xB99, 0xB9A); (0xB9C, 0xB9C); (0xB9E, 0xB9F);
   (0xBA3, 0xBA4); (0xBA8, 0xBAA); (0xBAE, 0xBB9); (0xBD0, 0xBD0);
   (0xBE6, 0xBF2); (0xC05, 0xC0C); (0xC0E, 0xC10); (0xC12, 0xC28);
   (0xC2A, 0xC39); (0xC3D, 0xC3D); (0xC58, 0xC5A); (0xC5D, 0xC5D);
   (0xC60, 0xC61); (0xC66, 0xC6F); (0xC78, 0xC7E); (0xC80, 0xC80);
   (0xC85, 0xC8C); (0xC8E, 0xC90); (0xC92, 0xCA8); (0xCAA, 0xCB3);
   (0xCB5, 0xCB9); (0xCBD, 0xCBD); (0xCDD, 0xCDE); (0xCE0, 0xCE1);
   (0xCE6, 0xCEF); (0xCF1, 0xCF2); (0xD04, 0xD0C); (0xD0E, 0xD10);
   (0xD12, 0xD3A); (0xD3D, 0xD3D); (0xD4E, 0xD4E); (0xD54, 0xD56);
   (0xD58, 0xD61); (0xD66, 0xD78); (0xD7A, 0xD7F); (0xD85, 0xD96);
   (0xD9A, 0xDB1); (0xDB3, 0xDBB); (0xDBD, 0xDBD); (0xDC0, 0xDC6);
   (0xDE6, 0xDEF); (0xE01, 0xE30); (0xE32, 0xE33); (0xE40, 0xE46);
   (0xE50, 0xE59); (0xE81, 0xE82); (0xE84, 0xE84); (0xE86, 0xE8A);
   (0xE8C, 0xEA3); (0xEA5, 0xEA5); (0xEA7, 0xEB0); (0xEB2, 0xEB3);
   (0xEBD, 0xEBD); (0xEC0, 0xEC4); (0xEC6, 0xEC6); (0xED0, 0xED9);
   (0xEDC, 0xEDF); (0xF00, 0xF00); (0xF20, 0xF33); (0xF40, 0xF47);
   (0xF49, 0xF6C); (0xF88, 0xF8C); (0x1000, 0x102A); (0x103F, 0x1049);
   (0x1050, 0x1055); (0x105A, 0x105D); (0x1061, 0x1061); (0x1065, 0x1066);
   (0x106E, 0x1070); (0x1075, 0x1081); (0x108E, 0x108E); (0x1090, 0x1099);
   (0x10A0, 0x10C5); (0x10C7, 0x10C7); (0x10CD, 0x10CD); (0x10D0, 0x10FA);
   (0x10FC, 0x1248); (0x124A, 0x124D); (0x1250, 0x1256); (0x1258, 0x1258);
   (0x125A, 0x125D); (0x1260, 0x1288); (0x128A, 0x128D); (0x1290, 0x12B0);
   (0x12B2, 0x12B5); (0x12B8, 0x12BE); (0x12C0, 0x12C0); (0x12C2, 0x12C5);
   (0x12C8, 0x12D6); (0x12D8, 0x1310); (0x1312, 0x1315); (0x1318, 0x135A);
   (0x1369, 0x137C); (0x1380, 0x138F); (0x13A0, 0x13F5); (0x13F8, 0x13FD);
   (0x1401, 0x166C); (0x166F, 0x167F); (0x1681, 0x169A); (0x16A0, 0x16EA);
   (0x16EE, 0x16F8); (0x1700, 0x1711); (0x171F, 0x1731); (0x1740, 0x1751);
   (0x1760, 0x176C); (0x176E, 0x1770); (0x1780, 0x17B3); (0x17D7, 0x17D7);
   (0x17DC, 0x17DC); (0x17E0, 0x17E9); (0x17F0, 0x17F9); (0x1810, 0x1819);
   (0x1820, 0x1878); (0x1880, 0x1884); (0x1887, 0x18A8); (0x18AA, 0x18AA);
   (0x18B0, 0x18F5); (0x1900, 0x191E); (0x1946, 0x196D); (0x1970, 0x1974);
   (0x1980, 0x19AB); (0x19B0, 0x19C9); (0x19D0, 0x19DA); (0x1A00, 0x1A16);
   (0x1A20, 0x1A54); (0x1A80, 0x1A89); (0x1A90, 0x1A99); (0x1AA7, 0x1AA7);
   (0x1B05, 0x1B33); (0x1B45, 0x1B4C); (0x1B50, 0x1B59); (0x1B83, 0x1BA0);
   (0x1BAE, 0x1BE5); (0x1C00, 0x1C23); (0x1C40, 0x1C49); (0x1C4D, 0x1C7D);
   (0x1C80, 0x1C88); (0x1C90, 0x1CBA); (0x1CBD, 0x1CBF); (0x1CE9, 0x1CEC);
   (0x1CEE, 0x1CF3); (0x1CF5, 0x1CF6); (0x1CFA, 0x1CFA); (0x1D00, 0x1DBF);
   (0x1E00, 0x1F15); (0x1F18, 0x1F1D); (0x1F20, 0x1F45); (0x1F48, 0x1F4D);
   (0x1F50, 0x1F57); (0x1F59, 0x1F59); (0x1F5B, 0x1F5B); (0x1F5D, 0x1F5D);
   (0x1F5F, 0x1F7D); (0x1F80, 0x1FB4); (0x1FB6, 0x1FBC); (0x1FBE, 0x1FBE);
   (0x1FC2, 0x1FC4); (0x1FC6, 0x1FCC); (0x1FD0, 0x1FD3); (0x1FD6, 0x1FDB);
   (0x1FE0, 0x1FEC); (0x1FF2, 0x1FF4); (0x1FF6, 0x1FFC); (0x2070, 0x2071);
   (0x2074, 0x2079); (0x207F, 0x2089); (0x2090, 0x209C); (0x2102, 0x2102);
   (0x2107, 0x2107); (0x210A, 0x2113); (0x2115, 0x2115); (0x2119, 0x211D);
   (0x2124, 0x2124); (0x2126, 0x2126); (0x2128, 0x2128); (0x212A, 0x212D);
   (0x212F, 0x2139); (0x213C, 0x213F); (0x2145, 0x2149); (0x214E, 0x214E);
   (0x2150, 0x2189); (0x2460, 0x249B); (0x24EA, 0x24FF); (0x2776, 0x2793);
   (0x2C00, 0x2CE4); (0x2CEB, 0x2CEE); (0x2CF2, 0x2CF3); (0x2CFD, 0x2CFD);
   (0x2D00, 0x2D25); (0x2D27, 0x2D27); (0x2D2D, 0x2D2D); (0x2D30, 0x2D67);
   (0x2D6F, 0x2D6F); (0x2D80, 0x2D96); (0x2DA0, 0x2DA6); (0x2DA8, 0x2DAE);
   (0x2DB0, 0x2DB6); (0x2DB8, 0x2DBE); (0x2DC0, 0x2DC6); (0x2DC8, 0x2DCE);
   (0x2DD0, 0x2DD6); (0x2DD8, 0x2DDE); (0x2E2F, 0x2E2F); (0x3005, 0x3007);
   (0x3021, 0x3029); (0x3031, 0x3035); (0x3038, 0x303C); (0x3041, 0x3096);
   (0x309D, 0x309F); (0x30A1, 0x30FA); (0x30FC, 0x30FF); (0x3105, 0x312F);
   (0x3131, 0x318E); (0x3192, 0x3195); (0x31A0, 0x31BF); (0x31F0, 0x31FF);
   (0x3220, 0x3229); (0x3248, 0x324F); (0x3251, 0x325F); (0x3280, 0x3289);
   (0x32B1, 0x32BF); (0x3400, 0x4DBF); (0x4E00, 0xA48C); (0xA4D0, 0xA4FD);
   (0xA500, 0xA60C); (0xA610, 0xA62B); (0xA640, 0xA66E); (0xA67F, 0xA69D);
   (0xA6A0, 0xA6EF); (0xA717, 0xA71F); (0xA722, 0xA788); (0xA78B, 0xA7CA);
   (0xA7D0, 0xA7D1); (0xA7D3, 0xA7D3); (0xA7D5, 0xA7D9); (0xA7F2, 0xA801);
   (0xA803, 0xA805); (0xA807, 0xA80A); (0xA80C, 0xA822); (0xA830, 0xA835);
   (0xA840, 0xA873); (0xA882, 0xA8B3); (0xA8D0, 0xA8D9); (0xA8F2, 0xA8F7);
   (0xA8FB, 0xA8FB); (0xA8FD, 0xA8FE); (0xA900, 0xA925); (0xA930, 0xA946);
   (0xA960, 0xA97C); (0xA984, 0xA9B2); (0xA9CF, 0xA9D9); (0xA9E0, 0xA9E4);
   (0xA9E6, 0xA9FE); (0xAA00, 0xAA28); (0xAA40, 0xAA42); (0xAA44, 0xAA4B);
   (0xAA50, 0xAA59); (0xAA60, 0xAA76); (0xAA7A, 0xAA7A); (0xAA7E, 0xAAAF);
   (0xAAB1, 0xAAB1); (0xAAB5, 0xAAB6); (0xAAB9, 0xAABD); (0xAAC0, 0xAAC0);
   (0xAAC2, 0xAAC2); (0xAADB, 0xAADD); (0xAAE0, 0xAAEA); (0xAAF2, 0xAAF4);
   (0xAB01, 0xAB06); (0xAB09, 0xAB0E); (0xAB11, 0xAB16); (0xAB20, 0xAB26);
   (0xAB28, 0xAB2E); (0xAB30, 0xAB5A); (0xAB5C, 0xAB69); (0xAB70, 0xABE2);
   (0xABF0, 0xABF9); (0xAC00, 0xD7A3); (0xD7B0, 0xD7C6); (0xD7CB, 0xD7FB);
   (0xF900, 0xFA6D); (0xFA70, 0xFAD9); (0xFB00, 0xFB06); (0xFB13, 0xFB17);
   (0xFB1D, 0xFB1D); (0xFB1F, 0xFB28); (0xFB2A, 0xFB36); (0xFB38, 0xFB3C);
   (0xFB3E, 0xFB3E); (0xFB40, 0xFB41); (0xFB43, 0xFB44); (0xFB46, 0xFBB1);
   (0xFBD3, 0xFD3D); (0xFD50, 0xFD8F); (0xFD92, 0xFDC7); (0xFDF0, 0xFDFB);
   (0xFE70, 0xFE74); (0xFE76, 0xFEFC); (0xFF10, 0xFF19); (0xFF21, 0xFF3A);
   (0xFF41, 0xFF5A); (0xFF66, 0xFFBE); (0xFFC2, 0xFFC7); (0xFFCA, 0xFFCF);
   (0xFFD2, 0xFFD7); (0xFFDA, 0xFFDC); (0x10000, 0x1000B); (0x1000D, 0x10026);
   (0x10028, 0x1003A); (0x1003C, 0x1003D); (0x1003F, 0x1004D);
   (0x10050, 0x1005D); (0x10080, 0x100FA); (0x10107, 0x10133);
   (0x10140, 0x10178); (0x1018A, 0x1018B); (0x10280, 0x1029C);
   (0x102A0, 0x102D0); (0x102E1, 0x102FB); (0x10300, 0x10323);
   (0x1032D, 0x1034A); (0x10350, 0x10375); (0x10380, 0x1039D);
   (0x103A0, 0x103C3); (0x103C8, 0x103CF); (0x103D1, 0x103D5);
   (0x10400, 0x1049D); (0x104A0, 0x104A9); (0x104B0, 0x104D3);
   (0x104D8, 0x104FB); (0x10500, 0x10527); (0x10530, 0x10563);
   (0x10570, 0x1057A); (0x1057C, 0x1058A); (0x1058C, 0x10592);
   (0x10594, 0x10595); (0x10597, 0x105A1); (0x105A3, 0x105B1);
   (0x105B3, 0x105B9); (0x105BB, 0x105BC); (0x10600, 0x10736);
   (0x10740, 0x10755); (0x10760, 0x10767); (0x10780, 0x10785);
   (0x10787, 0x107B0); (0x107B2, 0x107BA); (0x10800, 0x10805);
   (0x10808, 0x10808); (0x1080A, 0x10835); (0x10837, 0x10838);
   (0x1083C, 0x1083C); (0x1083F, 0x10855); (0x10858, 0x10876);
   (0x10879, 0x1089E); (0x108A7, 0x108AF); (0x108E0, 0x108F2);
   (0x108F4, 0x108F5); (0x108FB, 0x1091B); (0x10920, 0x10939);
   (0x10980, 0x109B7); (0x109BC, 0x109CF); (0x109D2, 0x10A00);
   (0x10A10, 0x10A13); (0x10A15, 0x10A17); (0x10A19, 0x10A35);
   (0x10A40, 0x10A48); (0x10A60, 0x10A7E); (0x10A80, 0x10A9F);
   (0x10AC0, 0x10AC7); (0x10AC9, 0x10AE4); (0x10AEB, 0x10AEF);
   (0x10B00, 0x10B35); (0x10B40, 0x10B55); (0x10B58, 0x10B72);
   (0x10B78, 0x10B91); (0x10BA9, 0x10BAF); (0x10C00, 0x10C48);
   (0x10C80, 0x10CB2); (0x10CC0, 0x10CF2); (0x10CFA, 0x10D23);
   (0x10D30, 0x10D39); (0x10E60, 0x10E7E); (0x10E80, 0x10EA9);
   (0x10EB0, 0x10EB1); (0x10F00, 0x10F27); (0x10F30, 0x10F45);
   (0x10F51, 0x10F54); (0x10F70, 0x10F81); (0x10FB0, 0x10FCB);
   (0x10FE0, 0x10FF6); (0x11003, 0x11037); (0x11052, 0x1106F);
   (0x11071, 0x11072); (0x11075, 0x11075); (0x11083, 0x110AF);
   (0x110D0, 0x110E8); (0x110F0, 0x110F9); (0x11103, 0x11126);
   (0x11136, 0x1113F); (0x11144, 0x11144); (0x11147, 0x11147);
   (0x11150, 0x11172); (0x11176, 0x11176); (0x11183, 0x111B2);
   (0x111C1, 0x111C4); (0x111D0, 0x111DA); (0x111DC, 0x111DC);
   (0x111E1, 0x111F4); (0x11200, 0x11211); (0x11213, 0x1122B);
   (0x11280, 0x11286); (0x11288, 0x11288); (0x1128A, 0x1128D);
   (0x1128F, 0x1129D); (0x1129F, 0x112A8); (0x112B0, 0x112DE);
   (0x112F0, 0x112F9); (0x11305, 0x1130C); (0x1130F, 0x11310);
   (0x11313, 0x11328); (0x1132A, 0x11330); (0x11332, 0x11333);
   (0x11335, 0x11339); (0x1133D, 0x1133D); (0x11350, 0x11350);
   (0x1135D, 0x11361); (0x11400, 0x11434); (0x11447, 0x1144A);
   (0x11450, 0x11459); (0x1145F, 0x11461); (0x11480, 0x114AF);
   (0x114C4, 0x114C5); (0x114C7, 0x114C7); (0x114D0, 0x114D9);
   (0x11580, 0x115AE); (0x115D8, 0x115DB); (0x11600, 0x1162F);
   (0x11644, 0x11644); (0x11650, 0x11659); (0x11680, 0x116AA);
   (0x116B8, 0x116B8); (0x116C0, 0x116C9); (0x11700, 0x1171A);
   (0x11730, 0x1173B); (0x11740, 0x11746); (0x11800, 0x1182B);
   (0x118A0, 0x118F2); (0x118FF, 0x11906); (0x11909, 0x11909);
   (0x1190C, 0x11913); (0x11915, 0x11916); (0x11918, 0x1192F);
   (0x1193F, 0x1193F); (0x11941, 0x11941); (0x11950, 0x11959);
   (0x119A0, 0x119A7); (0x119AA, 0x119D0); (0x119E1, 0x119E1);
   (0x119E3, 0x119E3); (0x11A00, 0x11A00); (0x11A0B, 0x11A32);
   (0x11A3A, 0x11A3A); (0x11A50, 0x11A50); (0x11A5C, 0x11A89);
   (0x11A9D, 0x11A9D); (0x11AB0, 0x11AF8); (0x11C00, 0x11C08);
   (0x11C0A, 0x11C2E); (0x11C40, 0x11C40); (0x11C50, 0x11C6C);
   (0x11C72, 0x11C8F); (0x11D00, 0x11D06); (0x11D08, 0x11D09);
   (0x11D0B, 0x11D30); (0x11D46, 0x11D46); (0x11D50, 0x11D59);
   (0x11D60, 0x11D65); (0x11D67, 0x11D68); (0x11D6A, 0x11D89);
   (0x11D98, 0x11D98); (0x11DA0, 0x11DA9); (0x11EE0, 0x11EF2);
   (0x11FB0, 0x11FB0); (0x11FC0, 0x11FD4); (0x12000, 0x12399);
   (0x12400, 0x1246E); (0x12480, 0x12543); (0x12F90, 0x12FF0);
   (0x13000, 0x1342E); (0x14400, 0x14646); (0x16800, 0x16A38);
   (0x16A40, 0x16A5E); (0x16A60, 0x16A69); (0x16A70, 0x16ABE);
   (0x16AC0, 0x16AC9); (0x16AD0, 0x16AED); (0x16B00, 0x16B2F);
   (0x16B40, 0x16B43); (0x16B50, 0x16B59); (0x16B5B, 0x16B61);
   (0x16B63, 0x16B77); (0x16B7D, 0x16B8F); (0x16E40, 0x16E96);
   (0x16F00, 0x16F4A); (0x16F50, 0x16F50); (0x16F93, 0x16F9F);
   (0x16FE0, 0x16FE1); (0x16FE3, 0x16FE3); (0x17000, 0x187F7);
   (0x18800, 0x18CD5); (0x18D00, 0x18D08); (0x1AFF0, 0x1AFF3);
   (0x1AFF5, 0x1AFFB); (0x1AFFD, 0x1AFFE); (0x1B000, 0x1B122);
   (0x1B150, 0x1B152); (0x1B164, 0x1B167); (0x1B170, 0x1B2FB);
   (0x1BC00, 0x1BC6A); (0x1BC70, 0x1BC7C); (0x1BC80, 0x1BC88);
   (0x1BC90, 0x1BC99); (0x1D2E0, 0x1D2F3); (0x1D360, 0x1D378);
   (0x1D400, 0x1D454); (0x1D456, 0x1D49C); (0x1D49E, 0x1D49F);
   (0x1D4A2, 0x1D4A2); (0x1D4A5, 0x1D4A6); (0x1D4A9, 0x1D4AC);
   (0x1D4AE, 0x1D4B9); (0x1D4BB, 0x1D4BB); (0x1D4BD, 0x1D4C3);
   (0x1D4C5, 0x1D505); (0x1D507, 0x1D50A); (0x1D50D, 0x1D514);
   (0x1D516, 0x1D51C); (0x1D51E, 0x1D539); (0x1D53B, 0x1D53E);
   (0x1D540, 0x1D544); (0x1D546, 0x1D546); (0x1D54A, 0x1D550);
   (0x1D552, 0x1D6A5); (0x1D6A8, 0x1D6C0); (0x1D6C2, 0x1D6DA);
   (0x1D6DC, 0x1D6FA); (0x1D6FC, 0x1D714); (0x1D716, 0x1D734);
   (0x1D736, 0x1D74E); (0x1D750, 0x1D76E); (0x1D770, 0x1D788);
   (0x1D78A, 0x1D7A8); (0x1D7AA, 0x1D7C2); (0x1D7C4, 0x1D7CB);
   (0x1D7CE, 0x1D7FF); (0x1DF00, 0x1DF1E); (0x1E100, 0x1E12C);
   (0x1E137, 0x1E13D); (0x1E140, 0x1E149); (0x1E14E, 0x1E14E);
   (0x1E290, 0x1E2AD); (0x1E2C0, 0x1E2EB); (0x1E2F0, 0x1E2F9);
   (0x1E7E0, 0x1E7E6); (0x1E7E8, 0x1E7EB); (0x1E7ED, 0x1E7EE);
   (0x1E7F0, 0x1E7FE); (0x1E800, 0x1E8C4); (0x1E8C7, 0x1E8CF);
   (0x1E900, 0x1E943); (0x1E94B, 0x1E94B); (0x1E950, 0x1E959);
   (0x1EC71, 0x1ECAB); (0x1ECAD, 0x1ECAF); (0x1ECB1, 0x1ECB4);
   (0x1ED01, 0x1ED2D); (0x1ED2F, 0x1ED3D); (0x1EE00, 0x1EE03);
   (0x1EE05, 0x1EE1F); (0x1EE21, 0x1EE22); (0x1EE24, 0x1EE24);
   (0x1EE27, 0x1EE27); (0x1EE29, 0x1EE32); (0x1EE34, 0x1EE37);
   (0x1EE39, 0x1EE39); (0x1EE3B, 0x1EE3B); (0x1EE42, 0x1EE42);
   (0x1EE47, 0x1EE47); (0x1EE49, 0x1EE49); (0x1EE4B, 0x1EE4B);
   (0x1EE4D, 0x1EE4F); (0x1EE51, 0x1EE52); (0x1EE54, 0x1EE54);
   (0x1EE57, 0x1EE57); (0x1EE59, 0x1EE59); (0x1EE5B, 0x1EE5B);
   (0x1EE5D, 0x1EE5D); (0x1EE5F, 0x1EE5F); (0x1EE61, 0x1EE62);
   (0x1EE64, 0x1EE64); (0x1EE67, 0x1EE6A); (0x1EE6C, 0x1EE72);
   (0x1EE74, 0x1EE77); (0x1EE79, 0x1EE7C); (0x1EE7E, 0x1EE7E);
   (0x1EE80, 0x1EE89); (0x1EE8B, 0x1EE9B); (0x1EEA1, 0x1EEA3);
   (0x1EEA5, 0x1EEA9); (0x1EEAB, 0x1EEBB); (0x1F100, 0x1F10C);
   (0x1FBF0, 0x1FBF9); (0x20000, 0x2A6DF); (0x2A700, 0x2B738);
   (0x2B740, 0x2B81D); (0x2B820, 0x2CEA1); (0x2CEB0, 0x2EBE0);
   (0x2F800, 0x2FA1D); (0x30000, 0x3134A) ].

(** [str.isalnum] on one code point. *)
Definition isalnum (c : char) : bool := in_ranges c alnum_ranges.

(** The regular expressions' [\w]: an alphanumeric code point or '_'. *)
Definition isword (c : char) : bool := isalnum c || (c =? 0x5F).

Arguments isalnum c : simpl never.

(** [str.lower] on one code point, for the alphabets the option values are
    written in: A-Z, the Latin-1 capitals, and the Cyrillic capitals
    U+0400..U+042F.  Code points outside them are left as they are. *)
Definition lower_char (c : char) : char :=
  if (0x41 <=? c) && (c <=? 0x5A) then c + 32
  else if (0xC0 <=? c) && (c <=? 0xDE) && negb (c =? 0xD7) then c + 32
  else if (0x400 <=? c) && (c <=? 0x40F) then c + 80
  else if (0x410 <=? c) && (c <=? 0x42F) then c + 32
  else c.

Definition lower (s : str) : str := map lower_char s.

Fixpoint lstrip (s : str) : str :=
  match s with
  | c :: s' => if isspace c then lstrip s' else s
  | [] => []
  end.

Definition rstrip (s : str) : str := rev (lstrip (rev s)).

(** [str.strip()] with no argument. *)
Definition strip (s : str) : str := rstrip (lstrip s).

(** [s.startswith(p)]. *)
Fixpoint startswith (s p : str) {struct p} : bool :=
  match p, s with
  | [], _ => true
  | d :: p', c :: s' => (c =? d) && startswith s' p'
  | _ :: _, [] => false
  end.

(** [sep in s] for a one-character [sep]. *)
Definition contains (sep : char) (s : str) : bool := existsb (N.eqb sep) s.

(** [s.split(sep)] for a one-character separator. *)
Fixpoint split_on (sep : char) (s : str) : list str :=
  match s with
  | [] => [[]]
  | c :: s' =>
      if c =? sep then [] :: split_on sep s'
      else match split_on sep s' with
           | h :: t => (c :: h) :: t
           | [] => [[c]]
           end
  end.

(** [s.split(sep, 1)]: at most one split, at the first separator. *)
Fixpoint split_first (sep : char) (s : str) : list str :=
  match s with
  | [] => [[]]
  | c :: s' =>
      if c =? sep then [[]; s']
      else match split_first sep s' with
           | h :: t => (c :: h) :: t
           | [] => [[c]]
           end
  end.

(** [sep.join(parts)]. *)
Fixpoint join (sep : str) (parts : list str) : str :=
  match parts with
  | [] => []
  | [p] => p
  | p :: rest => p ++ sep ++ join sep rest
  end.

(** [str(n)] for an [int], as the f-strings format a row index. *)
Definition str_of_Z (n : Z) : str :=
  map Ascii.N_of_ascii
      (String.list_ascii_of_string
         (DecimalString.NilZero.string_of_int (Z.to_int n))).

(** The digits of an [int()] argument: decimal digits, with single
    underscores allowed between two of them. *)
Fixpoint int_digits (acc : N) (after_digit : bool) (s : str) : option N :=
  match s with
  | [] => if after_digit then Some acc else None
  | c :: s' =>
      match digit_value c with
      | Some d => int_digits (acc * 10 + d mod 10) true s'
      | None =>
          if (c =? 0x5F) && after_digit
          then match s' with [] => None | _ => int_digits acc false s' end
          else None
      end
  end.

(** [int(s)]: [None] stands for the [ValueError].  CPython also refuses a
    string of more than 4300 digits.  The data of a button, at most 64
    bytes long, cannot reach that limit, and it is left out here; where a
    longer string can reach [int()], in the list of users, a statement
    that depends on it carries the bound. *)
Definition py_int (s : str) : option Z :=
  match strip s with
  | 0x2B :: ds => option_map Z.of_N (int_digits 0 false ds)
  | 0x2D :: ds => option_map (fun n => Z.opp (Z.of_N n)) (int_digits 0 false ds)
  | ds => option_map Z.of_N (int_digits 0 false ds)
  end.

(** ** Regular expressions

    The fragment of [re] that [main.py] uses: one-character classes under a
    greedy counted repetition, concatenation, one capture group, an optional
    subexpression and the two anchors, matched by backtracking. *)

Inductive atom :=
| ALit (c : char)   (* a literal character *)
| ADot              (* . *)
| ASpace            (* \s *)
| ADigit            (* \d *)
| AWord.            (* \w *)

Inductive cclass :=
| One (a : atom)
| OneOf (l : list atom)     (* [...] *)
| NoneOf (l : list atom).   (* [^...] *)

Inductive re :=
| Eps
| Rep (cl : cclass) (lo : nat) (hi : option nat)
| Cat (r1 r2 : re)
| Grp (r : re)      (* ( ... ), group 1 *)
| Opt (r : re)      (* ( ... )? *)
| Bol               (* ^ *)
| Eol.              (* $ *)

Record pattern := mkPattern { body : re; ignorecase : bool }.

(** The simple lower-case mapping of Unicode 14, which [re] folds a
    character with under [IGNORECASE] ([_sre.unicode_tolower]): the code
    points [first, first + step, ..., last] go to the image of [first] and
    the code points that follow it, one for one. *)
Definition lower_runs : list (N * N * N * N) :=
  [
   (0x41, 0x5A, 1, 0x61); (0xC0, 0xD6, 1, 0xE0); (0xD8, 0xDE, 1, 0xF8);
   (0x100, 0x12E, 2, 0x101); (0x130, 0x130, 1, 0x69);
   (0x132, 0x136, 2, 0x133); (0x139, 0x147, 2, 0x13A);
   (0x14A, 0x176, 2, 0x14B); (0x178, 0x178, 1, 0xFF);
   (0x179, 0x17D, 2, 0x17A); (0x181, 0x181, 1, 0x253);
   (0x182, 0x184, 2, 0x183); (0x186, 0x186, 1, 0x254);
   (0x187, 0x187, 1, 0x188); (0x189, 0x18A, 1, 0x256);
   (0x18B, 0x18B, 1, 0x18C); (0x18E, 0x18E, 1, 0x1DD);
   (0x18F, 0x18F, 1, 0x259); (0x190, 0x190, 1, 0x25B);
   (0x191, 0x191, 1, 0x192); (0x193, 0x193, 1, 0x260);
   (0x194, 0x194, 1, 0x263); (0x196, 0x196, 1, 0x269);
   (0x197, 0x197, 1, 0x268); (0x198, 0x198, 1, 0x199);
   (0x19C, 0x19C, 1, 0x26F); (0x19D, 0x19D, 1, 0x272);
   (0x19F, 0x19F, 1, 0x275); (0x1A0, 0x1A4, 2, 0x1A1);
   (0x1A6, 0x1A6, 1, 0x280); (0x1A7, 0x1A7, 1, 0x1A8);
   (0x1A9, 0x1A9, 1, 0x283); (0x1AC, 0x1AC, 1, 0x1AD);
   (0x1AE, 0x1AE, 1, 0x288); (0x1AF, 0x1AF, 1, 0x1B0);
   (0x1B1, 0x1B2, 1, 0x28A); (0x1B3, 0x1B5, 2, 0x1B4);
   (0x1B7, 0x1B7, 1, 0x292); (0x1B8, 0x1B8, 1, 0x1B9);
   (0x1BC, 0x1BC, 1, 0x1BD); (0x1C4, 0x1C4, 1, 0x1C6);
   (0x1C5, 0x1C5, 1, 0x1C6); (0x1C7, 0x1C7, 1, 0x1C9);
   (0x1C8, 0x1C8, 1, 0x1C9); (0x1CA, 0x1CA, 1, 0x1CC);
   (0x1CB, 0x1DB, 2, 0x1CC); (0x1DE, 0x1EE, 2, 0x1DF);
   (0x1F1, 0x1F1, 1, 0x1F3); (0x1F2, 0x1F4, 2, 0x1F3);
   (0x1F6, 0x1F6, 1, 0x195); (0x1F7, 0x1F7, 1, 0x1BF);
   (0x1F8, 0x21E, 2, 0x1F9); (0x220, 0x220, 1, 0x19E);
   (0x222, 0x232, 2, 0x223); (0x23A, 0x23A, 1, 0x2C65);
   (0x23B, 0x23B, 1, 0x23C); (0x23D, 0x23D, 1, 0x19A);
   (0x23E, 0x23E, 1, 0x2C66); (0x241, 0x241, 1, 0x242);
   (0x243, 0x243, 1, 0x180); (0x244, 0x244, 1, 0x289);
   (0x245, 0x245, 1, 0x28C); (0x246, 0x24E, 2, 0x247);
   (0x370, 0x372, 2, 0x371); (0x376, 0x376, 1, 0x377);
   (0x37F, 0x37F, 1, 0x3F3); (0x386, 0x386, 1, 0x3AC);
   (0x388, 0x38A, 1, 0x3AD); (0x38C, 0x38C, 1, 0x3CC);
   (0x38E, 0x38F, 1, 0x3CD); (0x391, 0x3A1, 1, 0x3B1);
   (0x3A3, 0x3AB, 1, 0x3C3); (0x3CF, 0x3CF, 1, 0x3D7);
   (0x3D8, 0x3EE, 2, 0x3D9); (0x3F4, 0x3F4, 1, 0x3B8);
   (0x3F7, 0x3F7, 1, 0x3F8); (0x3F9, 0x3F9, 1, 0x3F2);
   (0x3FA, 0x3FA, 1, 0x3FB); (0x3FD, 0x3FF, 1, 0x37B);
   (0x400, 0x40F, 1, 0x450); (0x410, 0x42F, 1, 0x430);
   (0x460, 0x480, 2, 0x461); (0x48A, 0x4BE, 2, 0x48B);
   (0x4C0, 0x4C0, 1, 0x4CF); (0x4C1, 0x4CD, 2, 0x4C2);
   (0x4D0, 0x52E, 2, 0x4D1); (0x531, 0x556, 1, 0x561);
   (0x10A0, 0x10C5, 1, 0x2D00); (0x10C7, 0x10C7, 1, 0x2D27);
   (0x10CD, 0x10CD, 1, 0x2D2D); (0x13A0, 0x13EF, 1, 0xAB70);
   (0x13F0, 0x13F5, 1, 0x13F8); (0x1C90, 0x1CBA, 1, 0x10D0);
   (0x1CBD, 0x1CBF, 1, 0x10FD); (0x1E00, 0x1E94, 2, 0x1E01);
   (0x1E9E, 0x1E9E, 1, 0xDF); (0x1EA0, 0x1EFE, 2, 0x1EA1);
   (0x1F08, 0x1F0F, 1, 0x1F00); (0x1F18, 0x1F1D, 1, 0x1F10);
   (0x1F28, 0x1F2F, 1, 0x1F20); (0x1F38, 0x1F3F, 1, 0x1F30);
   (0x1F48, 0x1F4D, 1, 0x1F40); (0x1F59, 0x1F5F, 2, 0x1F51);
   (0x1F68, 0x1F6F, 1, 0x1F60); (0x1F88, 0x1F8F, 1, 0x1F80);
   (0x1F98, 0x1F9F, 1, 0x1F90); (0x1FA8, 0x1FAF, 1, 0x1FA0);
   (0x1FB8, 0x1FB9, 1, 0x1FB0); (0x1FBA, 0x1FBB, 1, 0x1F70);
   (0x1FBC, 0x1FBC, 1, 0x1FB3); (0x1FC8, 0x1FCB, 1, 0x1F72);
   (0x1FCC, 0x1FCC, 1, 0x1FC3); (0x1FD8, 0x1FD9, 1, 0x1FD0);
   (0x1FDA, 0x1FDB, 1, 0x1F76); (0x1FE8, 0x1FE9, 1, 0x1FE0);
   (0x1FEA, 0x1FEB, 1, 0x1F7A); (0x1FEC, 0x1FEC, 1, 0x1FE5);
   (0x1FF8, 0x1FF9, 1, 0x1F78); (0x1FFA, 0x1FFB, 1, 0x1F7C);
   (0x1FFC, 0x1FFC, 1, 0x1FF3); (0x2126, 0x2126, 1, 0x3C9);
   (0x212A, 0x212A, 1, 0x6B); (0x212B, 0x212B, 1, 0xE5);
   (0x2132, 0x2132, 1, 0x214E); (0x2160, 0x216F, 1, 0x2170);
   (0x2183, 0x2183, 1, 0x2184); (0x24B6, 0x24CF, 1, 0x24D0);
   (0x2C00, 0x2C2F, 1, 0x2C30); (0x2C60, 0x2C60, 1, 0x2C61);
   (0x2C62, 0x2C62, 1, 0x26B); (0x2C63, 0x2C63, 1, 0x1D7D);
   (0x2C64, 0x2C64, 1, 0x27D); (0x2C67, 0x2C6B, 2, 0x2C68);
   (0x2C6D, 0x2C6D, 1, 0x251); (0x2C6E, 0x2C6E, 1, 0x271);
   (0x2C6F, 0x2C6F, 1, 0x250); (0x2C70, 0x2C70, 1, 0x252);
   (0x2C72, 0x2C72, 1, 0x2C73); (0x2C75, 0x2C75, 1, 0x2C76);
   (0x2C7E, 0x2C7F, 1, 0x23F); (0x2C80, 0x2CE2, 2, 0x2C81);
   (0x2CEB, 0x2CED, 2, 0x2CEC); (0x2CF2, 0x2CF2, 1, 0x2CF3);
   (0xA640, 0xA66C, 2, 0xA641); (0xA680, 0xA69A, 2, 0xA681);
   (0xA722, 0xA72E, 2, 0xA723); (0xA732, 0xA76E, 2, 0xA733);
   (0xA779, 0xA77B, 2, 0xA77A); (0xA77D, 0xA77D, 1, 0x1D79);
   (0xA77E, 0xA786, 2, 0xA77F); (0xA78B, 0xA78B, 1, 0xA78C);
   (0xA78D, 0xA78D, 1, 0x265); (0xA790, 0xA792, 2, 0xA791);
   (0xA796, 0xA7A8, 2, 0xA797); (0xA7AA, 0xA7AA, 1, 0x266);
   (0xA7AB, 0xA7AB, 1, 0x25C); (0xA7AC, 0xA7AC, 1, 0x261);
   (0xA7AD, 0xA7AD, 1, 0x26C); (0xA7AE, 0xA7AE, 1, 0x26A);
   (0xA7B0, 0xA7B0, 1, 0x29E); (0xA7B1, 0xA7B1, 1, 0x287);
   (0xA7B2, 0xA7B2, 1, 0x29D); (0xA7B3, 0xA7B3, 1, 0xAB53);
   (0xA7B4, 0xA7C2, 2, 0xA7B5); (0xA7C4, 0xA7C4, 1, 0xA794);
   (0xA7C5, 0xA7C5, 1, 0x282); (0xA7C6, 0xA7C6, 1, 0x1D8E);
   (0xA7C7, 0xA7C9, 2, 0xA7C8); (0xA7D0, 0xA7D0, 1, 0xA7D1);
   (0xA7D6, 0xA7D8, 2, 0xA7D7); (0xA7F5, 0xA7F5, 1, 0xA7F6);
   (0xFF21, 0xFF3A, 1, 0xFF41); (0x10400, 0x10427, 1, 0x10428);
   (0x104B0, 0x104D3, 1, 0x104D8); (0x10570, 0x1057A, 1, 0x10597);
   (0x1057C, 0x1058A, 1, 0x105A3); (0x1058C, 0x10592, 1, 0x105B3);
   (0x10594, 0x10595, 1, 0x105BB); (0x10C80, 0x10CB2, 1, 0x10CC0);
   (0x118A0, 0x118BF, 1, 0x118C0); (0x16E40, 0x16E5F, 1, 0x16E60);
   (0x1E900, 0x1E921, 1, 0x1E922) ].

Definition in_run (c : char) (r : N * N * N * N) : bool :=
  let '(first, last, step, _) := r in
  (first <=? c) && (c <=? last) && ((c - first) mod step =? 0).

Definition sre_lower (c : char) : char :=
  match find (in_run c) lower_runs with
  | Some (first, _, _, image) => image + (c - first)
  | None => c
  end.

(** The code points that have another case ([_sre.unicode_iscased]). *)
Definition cased_ranges : list (N * N) :=
  [
   (0x41, 0x5A); (0x61, 0x7A); (0xB5, 0xB5); (0xC0, 0xD6); (0xD8, 0xF6);
   (0xF8, 0x137); (0x139, 0x18C); (0x18E, 0x19A); (0x19C, 0x1A9);
   (0x1AC, 0x1B9); (0x1BC, 0x1BD); (0x1BF, 0x1BF); (0x1C4, 0x220);
   (0x222, 0x233); (0x23A, 0x254); (0x256, 0x257); (0x259, 0x259);
   (0x25B, 0x25C); (0x260, 0x261); (0x263, 0x263); (0x265, 0x266);
   (0x268, 0x26C); (0x26F, 0x26F); (0x271, 0x272); (0x275, 0x275);
   (0x27D, 0x27D); (0x280, 0x280); (0x282, 0x283); (0x287, 0x28C);
   (0x292, 0x292); (0x29D, 0x29E); (0x345, 0x345); (0x370, 0x373);
   (0x376, 0x377); (0x37B, 0x37D); (0x37F, 0x37F); (0x386, 0x386);
   (0x388, 0x38A); (0x38C, 0x38C); (0x38E, 0x3A1); (0x3A3, 0x3D1);
   (0x3D5, 0x3F5); (0x3F7, 0x3FB); (0x3FD, 0x481); (0x48A, 0x52F);
   (0x531, 0x556); (0x561, 0x587); (0x10A0, 0x10C5); (0x10C7, 0x10C7);
   (0x10CD, 0x10CD); (0x10D0, 0x10FA); (0x10FD, 0x10FF); (0x13A0, 0x13F5);
   (0x13F8, 0x13FD); (0x1C80, 0x1C88); (0x1C90, 0x1CBA); (0x1CBD, 0x1CBF);
   (0x1D79, 0x1D79); (0x1D7D, 0x1D7D); (0x1D8E, 0x1D8E); (0x1E00, 0x1E9B);
   (0x1E9E, 0x1E9E); (0x1EA0, 0x1F15); (0x1F18, 0x1F1D); (0x1F20, 0x1F45);
   (0x1F48, 0x1F4D); (0x1F50, 0x1F57); (0x1F59, 0x1F59); (0x1F5B, 0x1F5B);
   (0x1F5D, 0x1F5D); (0x1F5F, 0x1F7D); (0x1F80, 0x1FB4); (0x1FB6, 0x1FBC);
   (0x1FBE, 0x1FBE); (0x1FC2, 0x1FC4); (0x1FC6, 0x1FCC); (0x1FD0, 0x1FD3);
   (0x1FD6, 0x1FDB); (0x1FE0, 0x1FEC); (0x1FF2, 0x1FF4); (0x1FF6, 0x1FFC);
   (0x2126, 0x2126); (0x212A, 0x212B); (0x2132, 0x2132); (0x214E, 0x214E);
   (0x2160, 0x217F); (0x2183, 0x2184); (0x24B6, 0x24E9); (0x2C00, 0x2C70);
   (0x2C72, 0x2C73); (0x2C75, 0x2C76); (0x2C7E, 0x2CE3); (0x2CEB, 0x2CEE);
   (0x2CF2, 0x2CF3); (0x2D00, 0x2D25); (0x2D27, 0x2D27); (0x2D2D, 0x2D2D);
   (0xA640, 0xA66D); (0xA680, 0xA69B); (0xA722, 0xA72F); (0xA732, 0xA76F);
   (0xA779, 0xA787); (0xA78B, 0xA78D); (0xA790, 0xA794); (0xA796, 0xA7AE);
   (0xA7B0, 0xA7CA); (0xA7D0, 0xA7D1); (0xA7D6, 0xA7D9); (0xA7F5, 0xA7F6);
   (0xAB53, 0xAB53); (0xAB70, 0xABBF); (0xFB00, 0xFB06); (0xFB13, 0xFB17);
   (0xFF21, 0xFF3A); (0xFF41, 0xFF5A); (0x10400, 0x1044F); (0x104B0, 0x104D3);
   (0x104D8, 0x104FB); (0x10570, 0x1057A); (0x1057C, 0x1058A);
   (0x1058C, 0x10592); (0x10594, 0x10595); (0x10597, 0x105A1);
   (0x105A3, 0x105B1); (0x105B3, 0x105B9); (0x105BB, 0x105BC);
   (0x10C80, 0x10CB2); (0x10CC0, 0x10CF2); (0x118A0, 0x118DF);
   (0x16E40, 0x16E7F); (0x1E900, 0x1E943) ].

Definition iscased (c : char) : bool := in_ranges c cased_ranges.

(** [_EXTRA_CASES] of [re]: for a lower-case character, the other
    lower-case characters that share its upper case. *)
Definition EXTRA_CASES : list (N * list N) :=
  [
   (0x69, [0x131]); (0x73, [0x17F]); (0xB5, [0x3BC]); (0x131, [0x69]);
   (0x17F, [0x73]); (0x345, [0x3B9; 0x1FBE]); (0x390, [0x1FD3]);
   (0x3B0, [0x1FE3]); (0x3B2, [0x3D0]); (0x3B5, [0x3F5]); (0x3B8, [0x3D1]);
   (0x3B9, [0x345; 0x1FBE]); (0x3BA, [0x3F0]); (0x3BC, [0xB5]);
   (0x3C0, [0x3D6]); (0x3C1, [0x3F1]); (0x3C2, [0x3C3]); (0x3C3, [0x3C2]);
   (0x3C6, [0x3D5]); (0x3D0, [0x3B2]); (0x3D1, [0x3B8]); (0x3D5, [0x3C6]);
   (0x3D6, [0x3C0]); (0x3F0, [0x3BA]); (0x3F1, [0x3C1]); (0x3F5, [0x3B5]);
   (0x432, [0x1C80]); (0x434, [0x1C81]); (0x43E, [0x1C82]); (0x441, [0x1C83]);
   (0x442, [0x1C84; 0x1C85]); (0x44A, [0x1C86]); (0x463, [0x1C87]);
   (0x1C80, [0x432]); (0x1C81, [0x434]); (0x1C82, [0x43E]); (0x1C83, [0x441]);
   (0x1C84, [0x442; 0x1C85]); (0x1C85, [0x442; 0x1C84]); (0x1C86, [0x44A]);
   (0x1C87, [0x463]); (0x1C88, [0xA64B]); (0x1E61, [0x1E9B]);
   (0x1E9B, [0x1E61]); (0x1FBE, [0x345; 0x3B9]); (0x1FD3, [0x390]);
   (0x1FE3, [0x3B0]); (0xA64B, [0x1C88]); (0xFB05, [0xFB06]);
   (0xFB06, [0xFB05]) ].

Definition extra_cases (lo : char) : list char :=
  match find (fun e => fst e =? lo) EXTRA_CASES with
  | Some e => snd e
  | None => []
  end.

(** A literal under [IGNORECASE], as [re] compiles it: a literal without
    another case stands for itself; any other stands for the characters
    whose lower case is its own or one of the extra cases of its own. *)
Definition literal_ignorecase (d c : char) : bool :=
  if iscased d then
    let lo := sre_lower d in
    existsb (N.eqb (sre_lower c)) (lo :: extra_cases lo)
  else c =? d.

Arguments sre_lower c : simpl never.
Arguments iscased c : simpl never.
Arguments literal_ignorecase d c : simpl never.

Definition atom_matches (ic : bool) (a : atom) (c : char) : bool :=
  match a with
  | ALit d => if ic then literal_ignorecase d c else c =? d
  | ADot => negb (c =? 10)
  | ASpace => isspace c
  | ADigit => isdecimal c
  | AWord => isword c
  end.

Definition class_matches (ic : bool) (cl : cclass) (c : char) : bool :=
  match cl with
  | One a => atom_matches ic a c
  | OneOf l => existsb (fun a => atom_matches ic a c) l
  | NoneOf l => negb (existsb (fun a => atom_matches ic a c) l)
  end.

Section Matcher.
Context {R : Type}.

(** Greedy repetition: take one more character while the class and the
    upper bound allow it, and fall back to stopping here, which needs the
    lower bound to be reached.  [bef] is the text consumed so far,
    reversed; [aft] is the text ahead. *)
Fixpoint rep_greedy (p : char -> bool) (lo : nat) (hi : option nat)
         (k : str -> str -> option R) (bef aft : str) {struct aft}
  : option R :=
  let stop := match lo with O => k bef aft | S _ => None end in
  match aft with
  | c :: aft' =>
      if p c && match hi with Some O => false | _ => true end
      then match rep_greedy p (pred lo) (option_map pred hi) k
                            (c :: bef) aft' with
           | Some r => Some r
           | None => stop
           end
      else stop
  | [] => stop
  end.

(** The backtracking matcher in continuation-passing style; [g] is what
    group 1 holds ([None] while it has not taken part). *)
Fixpoint rmatch (ic : bool) (r : re)
         (k : str -> str -> option str -> option R)
         (bef aft : str) (g : option str) {struct r} : option R :=
  match r with
  | Eps => k bef aft g
  | Rep cl lo hi =>
      rep_greedy (class_matches ic cl) lo hi (fun b a => k b a g) bef aft
  | Cat r1 r2 =>
      rmatch ic r1 (fun b a g' => rmatch ic r2 k b a g') bef aft g
  | Grp r1 =>
      rmatch ic r1
        (fun b a _ =>
           k b a (Some (rev (firstn (length b - length bef) b))))
        bef aft g
  | Opt r1 =>
      match rmatch ic r1 k bef aft g with
      | Some x => Some x
      | None => k bef aft g
      end
  | Bol => match bef with [] => k bef aft g | _ => None end
  | Eol =>
      match aft with
      | [] => k bef aft g
      | [c] => if c =? 10 then k bef aft g else None
      | _ => None
      end
  end.
End Matcher.

(** What a successful match gives the caller: [group(1)], [None] when the
    group took no part. *)
Definition accept (_ _ : str) (g : option str) : option (option str) :=
  Some g.

Fixpoint search_from (ic : bool) (r : re) (bef aft : str)
  : option (option str) :=
  match rmatch ic r accept bef aft None with
  | Some g => Some g
  | None =>
      match aft with
      | [] => None
      | c :: aft' => search_from ic r (c :: bef) aft'
      end
  end.

(** [regex.search(text)]: the leftmost match. *)
Definition re_search (p : pattern) (text : str) : option (option str) :=
  search_from (ignorecase p) (body p) [] text.

(** [re.match(regex, text)]: a match at the start of the text. *)
Definition re_match (p : pattern) (text : str) : option (option str) :=
  rmatch (ignorecase p) (body p) accept [] text None.

(** Shorthands for writing the patterns down. *)
Definition chr (c : char) : re := Rep (One (ALit c)) 1 (Some 1%nat).
Definition lits (s : str) : re := fold_right (fun c r => Cat (chr c) r) Eps s.
Definition star (cl : cclass) : re := Rep cl 0 None.
Definition plus (cl : cclass) : re := Rep cl 1 None.
Definition maybe (cl : cclass) : re := Rep cl 0 (Some 1%nat).
Fixpoint seq (rs : list re) : re :=
  match rs with
  | [] => Eps
  | [r] => r
  | r :: rs' => Cat r (seq rs')
  end.

(** ** Dictionaries

    The module-level tables of [main.py] are [dict] literals with distinct
    keys; they are kept as association lists in the order they are written,
    which is the order Python iterates them in. *)

Definition dict (V : Type) := list (str * V).

Fixpoint dict_get {V : Type} (d : dict V) (k : str) : option V :=
  match d with
  | [] => None
  | (k', v) :: d' => if str_eqb k k' then Some v else dict_get d' k
  end.

(** [d.get(k, default)]. *)
Definition get_or {V : Type} (d : dict V) (k : str) (default : V) : V :=
  match dict_get d k with
  | Some v => v
  | None => default
  end.

Definition keys {V : Type} (d : dict V) : list str := map fst d.

(** [k in d]. *)
Definition has_key {V : Type} (d : dict V) (k : str) : bool :=
  match dict_get d k with Some _ => true | None => false end.

(** ** Parsing a lead (FIELD_PATTERNS, parse_lead_text) *)

Definition any_space : re := star (One ASpace).
Definition rest_of_line : re := Grp (plus (One ADot)).
Definition phone_digits : re :=
  Cat (maybe (One (ALit 0x2B))) (Rep (One ADigit) 6 (Some 15%nat)).
Definition email_chars : cclass := OneOf [AWord; ALit 0x2E; ALit 0x2D].

Definition FIELD_PATTERNS : dict pattern :=
  [ (u "Имя клиента",
      mkPattern (seq [lits (u "Имя клиента:"); any_space; rest_of_line]) true);
    (u "Телефон",
      mkPattern (seq [lits (u "Телефон:"); any_space; Grp phone_digits]) true);
    (u "Telegram",
      mkPattern (seq [lits (u "Telegram:"); any_space;
                      maybe (One (ALit 0x40)); Grp (plus (One AWord))]) true);
    (u "WhatsApp",
      mkPattern (seq [lits (u "WhatsApp:"); any_space; Grp phone_digits]) true);
    (u "Email",
      mkPattern (seq [lits (u "Email:"); any_space;
                      Opt (Grp (seq [plus email_chars; chr 0x40;
                                     plus email_chars; chr 0x2E;
                                     plus (One AWord)]))]) true);
    (u "Мессенджер",
      mkPattern (seq [lits (u "Мессенджер:"); any_space; rest_of_line]) true);
    (u "Purpose",
      mkPattern (seq [lits (u "Purpose:"); any_space; rest_of_line]) true);
    (u "Payment method",
      mkPattern (seq [lits (u "Pay"); maybe (One (ALit 0x6D)); lits (u "ent");
                      any_space; lits (u "method:"); any_space;
                      rest_of_line]) true);
    (u "UTM",
      mkPattern (seq [lits (u "UTM:"); any_space; rest_of_line]) true);
    (u "Project",
      mkPattern (seq [lits (u "Project:"); any_space; rest_of_line]) true);
    (u "Region",
      mkPattern (seq [lits (u "Region:"); any_space; rest_of_line]) true) ].

(** The body of the loop of [parse_lead_text]: the stripped group 1 of the
    leftmost match, or the empty string when there is no match or the group
    is empty. *)
Definition extract (regex : pattern) (text : str) : str :=
  match re_search regex text with
  | Some (Some raw) => if truthy raw then strip raw else []
  | _ => []
  end.

Definition parse_lead_text (text : str) : dict str :=
  map (fun fr => (fst fr, extract (snd fr) text)) FIELD_PATTERNS.

(** [r'^\+?\d{6,15}$'] *)
Definition phone_pattern : pattern :=
  mkPattern (seq [Bol; phone_digits; Eol]) false.

Definition validate_phone (phone : str) : bool :=
  if negb (truthy phone) then true
  else match re_match phone_pattern phone with
       | Some _ => true
       | None => false
       end.

(** [r"[^@]+@[^@]+\.[^@]+"] *)
Definition email_pattern : pattern :=
  let not_at := NoneOf [ALit 0x40] in
  mkPattern (seq [plus not_at; chr 0x40; plus not_at; chr 0x2E; plus not_at])
            false.

Definition validate_email (email : str) : bool :=
  if negb (truthy email) then true
  else match re_match email_pattern email with
       | Some _ => true
       | None => false
       end.

(** ** Time zone and region from the phone prefix *)

(** [sorted(ks, key=len, reverse=True)]: a stable sort, so keys of one
    length stay in the order of the table. *)
Fixpoint insert_by_len (k : str) (l : list str) : list str :=
  match l with
  | [] => [k]
  | h :: t =>
      if (length h <=? length k)%nat then k :: l
      else h :: insert_by_len k t
  end.

Definition sorted_by_len_desc (ks : list str) : list str :=
  fold_right insert_by_len [] ks.

Definition COUNTRY_TZ_MAP : dict str :=
  [ (u "34", u "GMT+1"); (u "7", u "GMT+3"); (u "1", u "GMT-5") ].

(** The loop of [guess_tz_by_phone] over the sorted country codes. *)
Fixpoint first_prefix (tbl : dict str) (digits : str) (ccodes : list str)
  : str :=
  match ccodes with
  | [] => u "Другой"
  | ccode :: rest =>
      if startswith digits ccode then get_or tbl ccode []
      else first_prefix tbl digits rest
  end.

(** [guess_tz_by_phone], with the table it reads as an argument;
    [guess_tz_by_phone] proper is the instance at [COUNTRY_TZ_MAP]. *)
Definition guess_tz_in (tbl : dict str) (phone : str) : str :=
  if negb (startswith phone (u "+")) then u "Другой"
  else
    let digits := skipn 1 phone in
    first_prefix tbl digits (sorted_by_len_desc (keys tbl)).

Definition guess_tz_by_phone (phone : str) : str :=
  guess_tz_in COUNTRY_TZ_MAP phone.

Definition guess_region_by_phone (phone : str) : str :=
  if negb (startswith phone (u "+")) then u "Unknown"
  else
    let digits := skipn 1 phone in
    if startswith digits (u "34") then u "Spain"
    else if startswith digits (u "7") then u "Russia"
    else if startswith digits (u "1") then u "USA"
    else u "Unknown".

(** The prefixes and labels [guess_region_by_phone] tests, read as a table. *)
Definition REGION_TABLE : dict str :=
  [ (u "34", u "Spain"); (u "7", u "Russia"); (u "1", u "USA") ].

(** ** The UTM breakdown shown after intake *)

Definition utm_chunk (chunk0 : str) : list str :=
  let chunk := strip chunk0 in
  if negb (truthy chunk) then []
  else if contains 0x3D chunk then
    match split_first 0x3D chunk with
    | [k; v] => [strip k ++ u " = " ++ strip v]
    | _ => [chunk]
    end
  else [chunk].

Definition parse_utm_details (utm_str : str) : str :=
  if negb (truthy utm_str) then u "UTM-данные: (не указаны)"
  else
    let pipe_parts := split_on 0x7C utm_str in
    let lines :=
      flat_map (fun part => flat_map utm_chunk (split_on 0x26 (strip part)))
               pipe_parts in
    match lines with
    | [] => u "UTM-данные: (пусто)"
    | _ => u "UTM-данные:" ++ nl ++ join nl lines
    end.

(** ** Fields, options and columns *)

Definition FIELD_CODES : dict str :=
  [ (u "Источник лида", u "src");
    (u "Часовой пояс", u "tz");
    (u "Доступность в мессенджерах", u "msg_avail");
    (u "Сегментация", u "seg");
    (u "Звонок IP-телефонией", u "ip_call");
    (u "Альтернативный номер", u "alt_phone_yesno");
    (u "Личный номер", u "pers_phone_yesno");
    (u "Перенос встречи", u "meet_postpone");
    (u "Сообщение в мессенджеры (Повторное касание)", u "msg_touch");
    (u "Заметки", u "notes");
    (u "Бюджет", u "budget");
    (u "Цель", u "goal");
    (u "Предпочтения", u "prefs");
    (u "Видеозвонок / осмотр объекта", u "vid_call");
    (u "Отправить материалы лиду", u "send_mat");
    (u "Прогрев / прогресс", u "progress");
    (u "Интерес", u "interest");
    (u "Результат (CRM)", u "crm_result");
    (u "Задача на повтор", u "task_repeat");
    (u "Связаться через мессенджер", u "messenger_call") ].

(** [{v: k for k, v in FIELD_CODES.items()}] *)
Definition CODE_TO_FIELD : dict str :=
  map (fun kv => (snd kv, fst kv)) FIELD_CODES.

Definition yes_no : dict str := [ (u "yes", u "Да"); (u "no", u "Нет") ].

Definition OPTIONS_MAP : dict (dict str) :=
  [ (u "src", [ (u "tg", u "Telegram"); (u "other", u "Другой") ]);
    (u "tz", [ (u "gmt3", u "GMT+3"); (u "other", u "Другой") ]);
    (u "msg_avail",
      [ (u "tg", u "Telegram"); (u "wa", u "WhatsApp"); (u "vb", u "Viber");
        (u "ln", u "Line"); (u "none", u "Нет") ]);
    (u "seg", [ (u "buyer", u "покупатель"); (u "investor", u "инвестор") ]);
    (u "ip_call", yes_no);
    (u "alt_phone_yesno", yes_no);
    (u "pers_phone_yesno", yes_no);
    (u "meet_postpone",
      [ (u "earlier", u "Да, контактировать на день раньше");
        (u "no", u "Нет") ]);
    (u "vid_call", yes_no);
    (u "send_mat", yes_no);
    (u "progress",
      [ (u "details", u "Прогрев: согласие на детали");
        (u "transfer", u "Прогрев: перенос") ]);
    (u "interest",
      [ (u "high", u "Высокий"); (u "med", u "Средний");
        (u "low", u "Низкий") ]);
    (u "crm_result",
      [ (u "success", u "Успех"); (u "fail", u "Неудача");
        (u "repeat", u "Повтор касания") ]);
    (u "task_repeat", yes_no);
    (u "messenger_call", yes_no) ].

Definition FIELD_TO_COL : dict Z :=
  [ (u "notes", 12); (u "src", 13); (u "tz", 14); (u "msg_avail", 15);
    (u "seg", 16); (u "ip_call", 18); (u "alt_phone_yesno", 19);
    (u "pers_phone_yesno", 20); (u "msg_touch", 21); (u "meet_postpone", 22);
    (u "progress", 23); (u "interest", 24); (u "crm_result", 25);
    (u "task_repeat", 26); (u "budget", 27); (u "goal", 28); (u "prefs", 29);
    (u "vid_call", 30); (u "send_mat", 31); (u "messenger_call", 32) ]%Z.

Definition ALGORITHM_TEXT : str :=
  concat
    [ u "Вот алгоритм действий для подготовки и разговора с клиентом:"; nl; nl;
      u "1) Подготовка к контакту:"; nl;
      u "   - Определить источник лида."; nl;
      u "   - Уточнить регион клиента (авто)."; nl;
      u "   - Проверить часовой пояс."; nl;
      u "   - Узнать доступность в мессенджерах."; nl;
      u "   - Подготовить материалы и локальные номера."; nl;
      u "2) Первый контакт:"; nl;
      u "   - Попробовать дозвон через телефонию."; nl;
      u "   - При недоступности - попробовать WhatsApp/Telegram."; nl;
      u "   - Записать результат в CRM."; nl;
      u "3) Продолжение:"; nl;
      u "   - Повторное касание через 1 день."; nl;
      u "   - Поддержка интереса, отправка материалов."; nl;
      u "4) Разговор с клиентом:"; nl;
      u "   - Представиться."; nl;
      u "   - Уточнить бюджет/цель/условия."; nl;
      u "   - Презентация объекта."; nl;
      u "   - Записать предпочтения в CRM."; nl;
      u "5) Завершение / финализация:"; nl;
      u "   - Если готов - организовать видеозвонок или осмотр."; nl;
      u "   - Иначе - запланировать повтор."; nl;
      u "6) Постконтактная работа:"; nl;
      u "   - Записать итог контакта."; nl;
      u "   - Продолжить взаимодействие, если клиент "; dquote;
      u "отложил"; dquote; u "."; nl ].

Definition START_TEXT : str :=
  concat
    [ u "Привет! Я бот, помогающий заполнить лид. ";
      u "Скопируйте и вставьте данные в таком формате:"; nl; nl;
      u "Имя клиента: Иван Иванов"; nl;
      u "Телефон: +71234567890"; nl;
      u "Telegram: @ivanov"; nl;
      u "WhatsApp: +71234567890"; nl;
      u "Email: ivanov@example.com"; nl;
      u "Мессенджер: WhatsApp"; nl;
      u "Purpose: Business meeting"; nl;
      u "Payment method: Credit card"; nl;
      u "UTM: utm_source=telegram&utm_medium=bot"; nl;
      u "Project: Intellect | Cove Edition | 300k+ | ENG"; nl;
      u "Region: Dubai (необязательно)"; nl; nl;
      u "Потом я выведу меню, чтобы можно было уточнить и проверить всё остальное!" ].

(** ** The states of the conversation *)

Inductive LeadStates := BULK_DATA | EDITING.

(** What a handler returns to the [ConversationHandler]: a state, [None],
    or [ConversationHandler.END]. *)
Inductive Returned :=
| Next (s : LeadStates)
| NoChange
| END.

(** ** The sheet

    The worksheet is a grid of cells addressed by a row and a column, both
    counted from 1; a row or a cell that was never written reads as empty.
    An operation returns [None] where gspread raises for an index below 1. *)

Definition Sheet := list (list str).

Fixpoint set_nth {A : Type} (d : A) (n : nat) (x : A) (l : list A) : list A :=
  match n, l with
  | O, [] => [x]
  | O, _ :: t => x :: t
  | S n', [] => d :: set_nth d n' x []
  | S n', h :: t => h :: set_nth d n' x t
  end.

Definition bad_index (i : Z) : bool := (i <? 1)%Z.
Definition idx (i : Z) : nat := Z.to_nat (i - 1).

(** [sheet.row_values(row)] *)
Definition sheet_row_values (sh : Sheet) (row : Z) : option (list str) :=
  if bad_index row then None else Some (nth (idx row) sh []).

(** [sheet.cell(row, col).value]: [None] for an empty cell. *)
Definition sheet_cell_value (sh : Sheet) (row col : Z)
  : option (option str) :=
  if bad_index row || bad_index col then None
  else
    let v := nth (idx col) (nth (idx row) sh []) [] in
    Some (if truthy v then Some v else None).

(** [sheet.update_cell(row, col, value)] *)
Definition sheet_update_cell (sh : Sheet) (row col : Z) (value : str)
  : option Sheet :=
  if bad_index row || bad_index col then None
  else
    Some (set_nth [] (idx row)
                  (set_nth [] (idx col) value (nth (idx row) sh [])) sh).

(** A row holds data when one of its cells is not empty. *)
Definition has_data (row : list str) : bool := existsb truthy row.

Fixpoint drop_empty_rows (sh : Sheet) : Sheet :=
  match sh with
  | row :: sh' => if has_data row then sh else drop_empty_rows sh'
  | [] => []
  end.

(** The rows down to the last one that holds data: a row of empty cells
    below it is as good as no row. *)
Definition used_rows (sh : Sheet) : Sheet :=
  rev (drop_empty_rows (rev sh)).

(** [sheet.append_row(values)]: the values go into the row below the last
    one that holds data. *)
Definition sheet_append_row (sh : Sheet) (values : list str) : Sheet :=
  used_rows sh ++ [values].

(** [sheet.get_all_values()]: the rows down to the last one that holds
    data. *)
Definition sheet_get_all_values (sh : Sheet) : list (list str) :=
  used_rows sh.

(** A new element at position [n], behind padding where the list is
    shorter. *)
Fixpoint insert_nth {A : Type} (d : A) (n : nat) (x : A) (l : list A)
  : list A :=
  match n, l with
  | O, _ => x :: l
  | S n', [] => d :: insert_nth d n' x []
  | S n', h :: t => h :: insert_nth d n' x t
  end.

(** The list without its element at position [n]. *)
Fixpoint remove_nth {A : Type} (n : nat) (l : list A) : list A :=
  match n, l with
  | _, [] => []
  | O, _ :: t => t
  | S n', h :: t => h :: remove_nth n' t
  end.

(** [sheet.insert_row(values, index)]: the rows from [index] on move down. *)
Definition sheet_insert_row (sh : Sheet) (values : list str) (index : Z)
  : option Sheet :=
  if bad_index index then None
  else Some (insert_nth [] (idx index) values sh).

(** [sheet.delete_rows(index)]: the rows below [index] move up. *)
Definition sheet_delete_rows (sh : Sheet) (index : Z) : option Sheet :=
  if bad_index index then None else Some (remove_nth (idx index) sh).

(** A row from its first cell that is not empty. *)
Fixpoint drop_blanks (row : list str) : list str :=
  match row with
  | c :: row' => if truthy c then row else drop_blanks row'
  | [] => []
  end.

(** A row as gspread returns it: without the empty cells at its end. *)
Definition trim_row (row : list str) : list str :=
  rev (drop_blanks (rev row)).

(** ** What the bot sends *)

Record Button := mkButton { label : str; callback_data : str }.

Definition Keyboard := list (list Button).

Inductive Sent :=
| ReplyText (text : str) (reply_markup : option Keyboard)
| EditMessageText (text : str) (reply_markup : option Keyboard)
| Answer.

(** ** The world a handler runs in *)

(** [context.user_data] of the acting user: the two keys the bot uses. *)
Record UserData := mkUserData {
  editing_field : option str;
  editing_row : option Z }.

(** [faults] lists, call by call, whether the next calls to the sheet raise;
    past its end every call goes through.  [outbox] holds what was sent,
    newest first. *)
Record World := mkWorld {
  sheet : Sheet;
  faults : list bool;
  outbox : list Sent;
  user_data : UserData }.

Inductive result (A : Type) :=
| Ok (a : A)
| Raised.

Arguments Ok {A} a.
Arguments Raised {A}.

Definition M (A : Type) : Type := World -> result A * World.

Definition ret {A : Type} (a : A) : M A := fun w => (Ok a, w).

Definition bind {A B : Type} (m : M A) (k : A -> M B) : M B :=
  fun w =>
    match m w with
    | (Ok a, w') => k a w'
    | (Raised, w') => (Raised, w')
    end.

Notation "x <- m ;; k" := (bind m (fun x => k))
  (at level 61, m at next level, right associativity).
Notation "m ;; k" := (bind m (fun _ => k))
  (at level 61, right associativity).

Definition raise {A : Type} : M A := fun w => (Raised, w).

(** [try: body / except Exception: handler] *)
Definition try_except {A : Type} (body handler : M A) : M A :=
  fun w =>
    match body w with
    | (Ok a, w') => (Ok a, w')
    | (Raised, w') => handler w'
    end.

(** One call to the sheet: it raises when the fault plan says so, leaving
    the sheet as it was, or when the operation itself does. *)
Definition sheet_call {A : Type} (op : Sheet -> option (A * Sheet)) : M A :=
  fun w =>
    let later := tl (faults w) in
    match faults w with
    | true :: _ => (Raised, mkWorld (sheet w) later (outbox w) (user_data w))
    | _ =>
        match op (sheet w) with
        | Some (a, sh') => (Ok a, mkWorld sh' later (outbox w) (user_data w))
        | None => (Raised, mkWorld (sheet w) later (outbox w) (user_data w))
        end
    end.

Definition row_values (row : Z) : M (list str) :=
  sheet_call (fun sh => option_map (fun r => (r, sh)) (sheet_row_values sh row)).

Definition cell_value (row col : Z) : M (option str) :=
  sheet_call (fun sh => option_map (fun v => (v, sh)) (sheet_cell_value sh row col)).

Definition update_cell (row col : Z) (value : str) : M unit :=
  sheet_call (fun sh => option_map (fun sh' => (tt, sh'))
                                   (sheet_update_cell sh row col value)).

Definition append_row (values : list str) : M unit :=
  sheet_call (fun sh => Some (tt, sheet_append_row sh values)).

Definition get_all_values : M (list (list str)) :=
  sheet_call (fun sh => Some (sheet_get_all_values sh, sh)).

(** [sheet.row_values(row)] where the caller can tell a row of empty cells
    from a row with something in it: the empty cells at the end are left
    out, as gspread does.  [show_main_menu] reads its row through
    [row_values]; it cannot tell the difference. *)
Definition trimmed_row_values (row : Z) : M (list str) :=
  sheet_call (fun sh => option_map (fun r => (trim_row r, sh))
                                   (sheet_row_values sh row)).

Definition insert_row (values : list str) (index : Z) : M unit :=
  sheet_call (fun sh => option_map (fun sh' => (tt, sh'))
                                   (sheet_insert_row sh values index)).

Definition delete_rows (index : Z) : M unit :=
  sheet_call (fun sh => option_map (fun sh' => (tt, sh'))
                                   (sheet_delete_rows sh index)).

Definition send (s : Sent) : M unit :=
  fun w => (Ok tt, mkWorld (sheet w) (faults w) (s :: outbox w) (user_data w)).

Definition reply_text (text : str) (markup : option Keyboard) : M unit :=
  send (ReplyText text markup).

Definition edit_message_text (text : str) (markup : option Keyboard)
  : M unit :=
  send (EditMessageText text markup).

Definition answer : M unit := send Answer.

Definition get_user_data : M UserData := fun w => (Ok (user_data w), w).

Definition set_user_data (ud : UserData) : M unit :=
  fun w => (Ok tt, mkWorld (sheet w) (faults w) (outbox w) ud).

(** ** The menu (show_main_menu) *)

(** [get_val] of [show_main_menu], with the row it reads as an argument. *)
Definition get_val (row_vals : list str) (field_code : str) : str :=
  let col := get_or FIELD_TO_COL field_code 0%Z in
  if ((col <? 1) || (col >? Z.of_nat (length row_vals)))%Z then []
  else lower (strip (str_or (nth (idx col) row_vals []) [])).

Definition icon (selected : bool) : str :=
  if selected then u "✅" else u "❌".

Definition MENU_TEXT : str :=
  concat
    [ u "Пожалуйста, уточните нужные пункты или введите текстовые поля:"; nl;
      u "(Нажмите «Завершить», когда всё заполнено.)" ].

(** The rows of buttons [show_main_menu] builds from the row it has read. *)
Definition keyboard (row_vals : list str) (row_index : Z) : Keyboard :=
  let get_val := get_val row_vals in
  let ri := str_of_Z row_index in
  let noop := fun text => [mkButton text (u "noop")] in
  let src_val := get_val (u "src") in
  let tg_icon := icon (str_eqb src_val (u "telegram")) in
  let other_icon := icon (str_eqb src_val (u "другой")) in
  let ma_v := get_val (u "msg_avail") in
  let icon2 := fun x => icon (str_eqb ma_v (lower x)) in
  let seg_v := get_val (u "seg") in
  let buy_icon := icon (str_eqb seg_v (u "покупатель")) in
  let inv_icon := icon (str_eqb seg_v (u "инвестор")) in
  let ipcall := get_val (u "ip_call") in
  let yes_icon := icon (str_eqb ipcall (u "да")) in
  let no_icon := icon (str_eqb ipcall (u "нет")) in
  let alt_v := get_val (u "alt_phone_yesno") in
  let alt_yes := icon (str_eqb alt_v (u "да")) in
  let alt_no := icon (str_eqb alt_v (u "нет")) in
  let per_v := get_val (u "pers_phone_yesno") in
  let per_yes := icon (str_eqb per_v (u "да")) in
  let per_no := icon (str_eqb per_v (u "нет")) in
  let mc_v := get_val (u "messenger_call") in
  let mc_yes := icon (str_eqb mc_v (u "да")) in
  let mc_no := icon (str_eqb mc_v (u "нет")) in
  let meet_v := get_val (u "meet_postpone") in
  let earl_icon :=
    icon (str_eqb meet_v (u "да, контактировать на день раньше")) in
  let no_meet_icon := icon (str_eqb meet_v (u "нет")) in
  let prog_v := get_val (u "progress") in
  let dt_icon := icon (str_eqb prog_v (u "прогрев: согласие на детали")) in
  let tr_icon := icon (str_eqb prog_v (u "прогрев: перенос")) in
  let int_v := get_val (u "interest") in
  let hi_ic := icon (str_eqb int_v (u "высокий")) in
  let med_ic := icon (str_eqb int_v (u "средний")) in
  let low_ic := icon (str_eqb int_v (u "низкий")) in
  let crm_v := get_val (u "crm_result") in
  let su_ic := icon (str_eqb crm_v (u "успех")) in
  let fa_ic := icon (str_eqb crm_v (u "неудача")) in
  let re_ic := icon (str_eqb crm_v (u "повтор касания")) in
  let task_v := get_val (u "task_repeat") in
  let ty := icon (str_eqb task_v (u "да")) in
  let tn := icon (str_eqb task_v (u "нет")) in
  let vid_val := get_val (u "vid_call") in
  let v_yes := icon (str_eqb vid_val (u "да")) in
  let v_no := icon (str_eqb vid_val (u "нет")) in
  let sm_val := get_val (u "send_mat") in
  let sm_yes := icon (str_eqb sm_val (u "да")) in
  let sm_no := icon (str_eqb sm_val (u "нет")) in
  [ noop (u "=== (1) Подготовка к контакту ===");
    [ mkButton (u "Источник: Telegram " ++ tg_icon) (u "src:tg:" ++ ri);
      mkButton (u "Другой " ++ other_icon) (u "src:other:" ++ ri) ];
    [ mkButton (u "Tg " ++ icon2 (u "telegram")) (u "msg_avail:tg:" ++ ri);
      mkButton (u "WA " ++ icon2 (u "whatsapp")) (u "msg_avail:wa:" ++ ri);
      mkButton (u "Viber " ++ icon2 (u "viber")) (u "msg_avail:vb:" ++ ri) ];
    [ mkButton (u "Line " ++ icon2 (u "line")) (u "msg_avail:ln:" ++ ri);
      mkButton (u "Нет " ++ icon2 (u "нет")) (u "msg_avail:none:" ++ ri) ];
    [ mkButton (u "Сегментация: покупатель " ++ buy_icon)
               (u "seg:buyer:" ++ ri);
      mkButton (u "инвестор " ++ inv_icon) (u "seg:investor:" ++ ri) ];
    noop (u "=== (2) Первый контакт ===");
    [ mkButton (u "Звонок IP: Да " ++ yes_icon) (u "ip_call:yes:" ++ ri);
      mkButton (u "Нет " ++ no_icon) (u "ip_call:no:" ++ ri) ];
    [ mkButton (u "Альтернативный номер: Да " ++ alt_yes)
               (u "alt_phone_yesno:yes:" ++ ri);
      mkButton (u "Нет " ++ alt_no) (u "alt_phone_yesno:no:" ++ ri) ];
    [ mkButton (u "Личный номер: Да " ++ per_yes)
               (u "pers_phone_yesno:yes:" ++ ri);
      mkButton (u "Нет " ++ per_no) (u "pers_phone_yesno:no:" ++ ri) ];
    [ mkButton (u "Связаться через мессенджер: Да " ++ mc_yes)
               (u "messenger_call:yes:" ++ ri);
      mkButton (u "Нет " ++ mc_no) (u "messenger_call:no:" ++ ri) ];
    noop (u "=== (3) Продолжение ===");
    [ mkButton (u "Перенос встречи: 'День раньше' " ++ earl_icon)
               (u "meet_postpone:earlier:" ++ ri);
      mkButton (u "Нет " ++ no_meet_icon) (u "meet_postpone:no:" ++ ri) ];
    [ mkButton (u "Прогрев: детали " ++ dt_icon) (u "progress:details:" ++ ri);
      mkButton (u "Прогрев: перенос " ++ tr_icon)
               (u "progress:transfer:" ++ ri) ];
    [ mkButton (u "Интерес: Высокий " ++ hi_ic) (u "interest:high:" ++ ri);
      mkButton (u "Средний " ++ med_ic) (u "interest:med:" ++ ri);
      mkButton (u "Низкий " ++ low_ic) (u "interest:low:" ++ ri) ];
    [ mkButton (u "Результат: Успех " ++ su_ic) (u "crm_result:success:" ++ ri);
      mkButton (u "Неудача " ++ fa_ic) (u "crm_result:fail:" ++ ri);
      mkButton (u "Повтор " ++ re_ic) (u "crm_result:repeat:" ++ ri) ];
    [ mkButton (u "Задача на повтор: Да " ++ ty) (u "task_repeat:yes:" ++ ri);
      mkButton (u "Нет " ++ tn) (u "task_repeat:no:" ++ ri) ];
    noop (u "=== (4) Повторное касание ===");
    [ mkButton (u "Сообщение (ввести)") (u "input:msg_touch:" ++ ri) ];
    noop (u "=== (5) Общение с лидом ===");
    [ mkButton (u "Заметки (доп. запись)") (u "input:notes:" ++ ri) ];
    [ mkButton (u "Бюджет (ввести)") (u "input:budget:" ++ ri);
      mkButton (u "Цель (ввести)") (u "input:goal:" ++ ri) ];
    [ mkButton (u "Предпочтения (ввести)") (u "input:prefs:" ++ ri) ];
    noop (u "=== (6) Финализация ===");
    [ mkButton (u "Видеозвонок: Да " ++ v_yes) (u "vid_call:yes:" ++ ri);
      mkButton (u "Нет " ++ v_no) (u "vid_call:no:" ++ ri) ];
    [ mkButton (u "Отправить материалы: Да " ++ sm_yes)
               (u "send_mat:yes:" ++ ri);
      mkButton (u "Нет " ++ sm_no) (u "send_mat:no:" ++ ri) ];
    [ mkButton (u "Завершить") (u "finish:_:" ++ ri) ] ].

(** Who [show_main_menu] and [_reply] are handed: an [Update] (and whether
    it carries a callback query) or the [CallbackQuery] itself, which has no
    [callback_query] attribute. *)
Inductive Target :=
| AnUpdate (has_callback_query : bool)
| AQuery.

Definition _reply (update_or_query : Target) (text : str)
           (reply_markup : option Keyboard) : M unit :=
  match update_or_query with
  | AnUpdate true => edit_message_text text reply_markup
  | _ => reply_text text reply_markup
  end.

Definition show_main_menu (update_or_query : Target) (row_index : Z)
  : M unit :=
  read <- try_except
            (row_vals <- row_values row_index ;; ret (Some row_vals))
            (_reply update_or_query
                    (u "Не смог получить данные о лиде. Попробуйте позже.")
                    None ;;
             ret None) ;;
  match read with
  | None => ret tt
  | Some row_vals =>
      _reply update_or_query MENU_TEXT (Some (keyboard row_vals row_index))
  end.

(** ** The handlers *)

Section Handlers.

(** The user ids read from the environment when the bot starts. *)
Variable AUTHORIZED_USERS : list Z.

(** [update.effective_user.id] is the [user_id] argument. *)
Definition check_authorized (user_id : Z) : M bool :=
  if negb (existsb (Z.eqb user_id) AUTHORIZED_USERS) then
    reply_text (u "Извините, у вас нет прав пользоваться этим ботом.") None ;;
    ret false
  else ret true.

Definition cmd_algorithm (user_id : Z) : M Returned :=
  ok <- check_authorized user_id ;;
  if negb ok then ret NoChange
  else reply_text ALGORITHM_TEXT None ;; ret NoChange.

Definition cmd_start (user_id : Z) : M Returned :=
  ok <- check_authorized user_id ;;
  if negb ok then ret NoChange
  else reply_text START_TEXT None ;; ret (Next BULK_DATA).

(** The 32 columns of the row [process_lead] appends. *)
Definition lead_row (lead : dict str) (region_auto tz_auto : str)
  : list str :=
  [ get_or lead (u "Имя клиента") [];
    get_or lead (u "Телефон") [];
    get_or lead (u "Telegram") [];
    get_or lead (u "WhatsApp") [];
    get_or lead (u "Email") [];
    get_or lead (u "Мессенджер") [];
    get_or lead (u "Purpose") [];
    get_or lead (u "Payment method") [];
    get_or lead (u "UTM") [];
    get_or lead (u "Project") [];
    region_auto;
    [];
    get_or lead (u "Источник лида") [];
    tz_auto;
    []; []; []; []; []; []; []; []; []; [];
    []; []; []; []; []; []; []; [] ].

Definition process_lead (user_id : Z) (message_text : str) : M Returned :=
  ok <- check_authorized user_id ;;
  if negb ok then ret (Next BULK_DATA)
  else
    let user_input := strip message_text in
    let lead := parse_lead_text user_input in
    if negb (truthy (get_or lead (u "Имя клиента") [])) then
      reply_text
        (u "Ой! Похоже, вы не указали 'Имя клиента'. Пожалуйста, повторите.")
        None ;;
      ret (Next BULK_DATA)
    else
      let phone_candidate :=
        str_or (get_or lead (u "Телефон") [])
               (get_or lead (u "WhatsApp") []) in
      if negb (truthy phone_candidate
               || truthy (get_or lead (u "Мессенджер") [])) then
        reply_text
          (u "Чтобы связаться, нужен либо телефон, либо мессенджер. Пожалуйста, добавьте одно из них.")
          None ;;
        ret (Next BULK_DATA)
      else if truthy phone_candidate
              && negb (validate_phone phone_candidate) then
        reply_text
          (u "Формат телефона кажется неправильным. Попробуйте ещё раз.")
          None ;;
        ret (Next BULK_DATA)
      else if truthy (get_or lead (u "Email") [])
              && negb (validate_email (get_or lead (u "Email") [])) then
        reply_text
          (u "Email выглядит некорректным. Исправьте или уберите поле Email.")
          None ;;
        ret (Next BULK_DATA)
      else
        let tz_auto :=
          if truthy phone_candidate then guess_tz_by_phone phone_candidate
          else [] in
        let region_auto :=
          let given := get_or lead (u "Region") [] in
          if truthy phone_candidate && negb (truthy given)
          then guess_region_by_phone phone_candidate
          else given in
        let row := lead_row lead region_auto tz_auto in
        saved <- try_except
                   (append_row row ;; ret true)
                   (reply_text
                      (u "Ой, что-то пошло не так при записи в Google Sheets. Попробуйте позже.")
                      None ;;
                    ret false) ;;
        if negb saved then ret (Next BULK_DATA)
        else
          all_values <- get_all_values ;;
          let new_row_index := Z.of_nat (length all_values) in
          let utm_info := parse_utm_details (get_or lead (u "UTM") []) in
          let summary_text :=
            concat
              [ u "Данные лида сохранены!"; nl; nl;
                u "Определён часовой пояс: "; str_or tz_auto (u "N/A"); nl;
                u "Определён регион: "; str_or region_auto (u "N/A"); nl; nl;
                utm_info; nl;
                u "Теперь вы можете уточнить дополнительные поля в меню ниже." ]
          in
          reply_text summary_text None ;;
          show_main_menu (AnUpdate false) new_row_index ;;
          ret (Next EDITING).

(** [query.data] is the [query_data] argument. *)
Definition handle_button (user_id : Z) (query_data : str) : M Returned :=
  ok <- check_authorized user_id ;;
  if negb ok then ret (Next BULK_DATA)
  else
    answer ;;
    match split_on 0x3A query_data with
    | [field_code; short_code; row_str] =>
        match py_int row_str with
        | None => raise
        | Some row_idx =>
            if str_eqb field_code (u "noop") then
              show_main_menu AQuery row_idx ;;
              ret (Next EDITING)
            else if str_eqb field_code (u "finish") then
              edit_message_text
                (concat
                   [ u "Все данные обновлены! Я готов принять нового лида."; nl;
                     u "Просто пришлите следующий лид в том же формате." ])
                None ;;
              ret (Next BULK_DATA)
            else if str_eqb field_code (u "input") then
              set_user_data (mkUserData (Some short_code) (Some row_idx)) ;;
              let field_name := get_or CODE_TO_FIELD short_code short_code in
              edit_message_text
                (concat [u "Напишите, пожалуйста, "; field_name; u ":"])
                None ;;
              ret (Next EDITING)
            else
              let col := get_or FIELD_TO_COL field_code 0%Z in
              if (col =? 0)%Z then
                edit_message_text (u "Неизвестное поле для обновления.")
                                  None ;;
                ret (Next EDITING)
              else if negb (has_key OPTIONS_MAP field_code)
                      || negb (has_key (get_or OPTIONS_MAP field_code [])
                                       short_code) then
                edit_message_text (u "Неизвестная опция.") None ;;
                ret (Next EDITING)
              else
                let new_text :=
                  get_or (get_or OPTIONS_MAP field_code []) short_code [] in
                read <- try_except
                          (value <- cell_value row_idx col ;;
                           ret (Some (match value with
                                      | Some v => str_or v []
                                      | None => []
                                      end)))
                          (edit_message_text
                             (u "Ошибка при чтении данных. Попробуйте позже.")
                             None ;;
                           ret None) ;;
                match read with
                | None => ret (Next EDITING)
                | Some current_val =>
                    let new_val :=
                      if str_eqb (lower current_val) (lower new_text)
                      then [] else new_text in
                    try_except
                      (update_cell row_idx col new_val ;;
                       let disp_val := str_or new_val (u "Пусто") in
                       let field_name :=
                         get_or CODE_TO_FIELD field_code field_code in
                       edit_message_text
                         (concat [field_name; u " → "; disp_val]) None ;;
                       show_main_menu AQuery row_idx)
                      (edit_message_text
                         (u "Произошла ошибка при обновлении. Попробуйте ещё раз.")
                         None) ;;
                    ret (Next EDITING)
                end
        end
    | _ =>
        edit_message_text
          (u "Что-то не так с данными кнопки (callback_data).") None ;;
        ret (Next EDITING)
    end.

Definition handle_text_input (user_id : Z) (message_text : str)
  : M Returned :=
  ok <- check_authorized user_id ;;
  if negb ok then ret (Next BULK_DATA)
  else
    let text := strip message_text in
    ud <- get_user_data ;;
    let code := editing_field ud in
    let row_idx := editing_row ud in
    match code, row_idx with
    | Some code, Some row_idx =>
        if negb (truthy code) || (row_idx =? 0)%Z then
          reply_text
            (u "Не найдено, какое поле надо заполнить. Попробуйте заново.")
            None ;;
          ret (Next BULK_DATA)
        else
          let col := get_or FIELD_TO_COL code 0%Z in
          if (col <? 1)%Z then
            reply_text (u "Что-то не так с этим полем.") None ;;
            ret (Next BULK_DATA)
          else
            try_except
              ((if str_eqb code (u "notes") then
                  value <- cell_value row_idx col ;;
                  let existing_val :=
                    match value with Some v => str_or v [] | None => [] end in
                  let new_val :=
                    if truthy existing_val
                    then existing_val ++ u "; " ++ text
                    else text in
                  update_cell row_idx col new_val
                else update_cell row_idx col text) ;;
               let field_name := get_or CODE_TO_FIELD code code in
               reply_text
                 (concat [ u "Отлично, поле «"; field_name; u "» теперь: «";
                           text; u "»." ])
                 None ;;
               show_main_menu (AnUpdate false) row_idx ;;
               ret (Next EDITING))
              (reply_text
                 (u "Произошла ошибка при сохранении. Попробуйте позже.")
                 None ;;
               ret (Next BULK_DATA))
    | _, _ =>
        reply_text
          (u "Не найдено, какое поле надо заполнить. Попробуйте заново.")
          None ;;
        ret (Next BULK_DATA)
    end.

Definition cmd_cancel (user_id : Z) : M Returned :=
  ok <- check_authorized user_id ;;
  if negb ok then ret END
  else
    reply_text (u "Процесс отменён. Введите /start, чтобы начать заново.")
               None ;;
    ret END.

Definition unknown (user_id : Z) : M Returned :=
  ok <- check_authorized user_id ;;
  if negb ok then ret NoChange
  else
    reply_text (u "Неизвестная команда. Попробуйте /start или /algorithm.")
               None ;;
    ret NoChange.

(** [error_handler]: what the dispatcher runs when a handler raises. *)
Definition error_handler : M unit :=
  reply_text (u "Произошла ошибка. Попробуйте позже.") None.

(** ** The dispatcher ([main])

    One user's conversation with the bot: the state the
    [ConversationHandler] keeps for that user ([None] before [/start] and
    after [END]) and the world.  Handlers are tried in the order [main]
    adds them: the [/algorithm] command, the conversation, and [unknown]
    for every other command. *)

Inductive Event :=
| Command (name : str)      (* /name *)
| TextMessage (text : str)  (* text that is not a command *)
| ButtonPress (data : str). (* a callback query *)

Definition route (conv : option LeadStates) (user_id : Z) (ev : Event)
  : option (M Returned) :=
  match ev, conv with
  | Command name, _ =>
      if str_eqb name (u "algorithm") then Some (cmd_algorithm user_id)
      else if str_eqb name (u "start") && negb (match conv with
                                                | Some _ => true
                                                | None => false
                                                end)
      then Some (cmd_start user_id)
      else if str_eqb name (u "cancel") && (match conv with
                                            | Some _ => true
                                            | None => false
                                            end)
      then Some (cmd_cancel user_id)
      else Some (unknown user_id)
  | TextMessage text, Some BULK_DATA => Some (process_lead user_id text)
  | TextMessage text, Some EDITING => Some (handle_text_input user_id text)
  | ButtonPress data, Some EDITING => Some (handle_button user_id data)
  | _, _ => None
  end.

(** One update, handled to completion.  A handler that raises leaves the
    conversation state as it was and the error handler replies. *)
Definition dispatch (user_id : Z) (ev : Event)
           (s : option LeadStates * World) : option LeadStates * World :=
  let (conv, w) := s in
  match route conv user_id ev with
  | None => (conv, w)
  | Some handler =>
      match handler w with
      | (Ok (Next st), w') => (Some st, w')
      | (Ok NoChange, w') => (conv, w')
      | (Ok END, w') => (None, w')
      | (Raised, w') => (conv, snd (error_handler w'))
      end
  end.

End Handlers.

(** ** What runs when the module is loaded

    The list of authorized users is read from the environment and the
    header row of the sheet is put in place before any update is
    handled. *)

(** The digits that are no decimal digits (Unicode Numeric_Type=Digit):
    superscripts and subscripts, circled and parenthesized digits and the
    like, as ranges. *)
Definition other_digits : list (N * N) :=
  [ (0xB2, 0xB3); (0xB9, 0xB9); (0x1369, 0x1371); (0x19DA, 0x19DA);
    (0x2070, 0x2070); (0x2074, 0x2079); (0x2080, 0x2089); (0x2460, 0x2468);
    (0x2474, 0x247C); (0x2488, 0x2490); (0x24EA, 0x24EA); (0x24F5, 0x24FD);
    (0x24FF, 0x24FF); (0x2776, 0x277E); (0x2780, 0x2788); (0x278A, 0x2792);
    (0x10A40, 0x10A43); (0x10E60, 0x10E68); (0x11052, 0x1105A);
    (0x1F100, 0x1F10A) ].

(** [str.isdigit] on one code point. *)
Definition isdigit_char (c : char) : bool :=
  isdecimal c
  || existsb (fun r => (fst r <=? c) && (c <=? snd r)) other_digits.

(** [s.isdigit()]: at least one character, and digits only. *)
Definition isdigit (s : str) : bool := truthy s && forallb isdigit_char s.

(** The loop that fills [AUTHORIZED_USERS]; [None] stands for the
    [ValueError] of [int(part)], which stops the module from loading. *)
Fixpoint authorized_entries (parts : list str) : option (list Z) :=
  match parts with
  | [] => Some []
  | part0 :: rest =>
      let part := strip part0 in
      if isdigit part then
        match py_int part with
        | Some n => option_map (cons n) (authorized_entries rest)
        | None => None
        end
      else authorized_entries rest
  end.

(** [AUTHORIZED_USERS] as the module computes it from the environment
    variable of the same name. *)
Definition load_authorized_users (_auth_str : str) : option (list Z) :=
  if truthy _auth_str then authorized_entries (split_on 0x2C _auth_str)
  else Some [].

(** The headers of the 32 columns. *)
Definition REQUIRED_HEADERS : list str :=
  [ u "Имя клиента"; u "Телефон"; u "Telegram"; u "WhatsApp"; u "Email";
    u "Мессенджер"; u "Purpose"; u "Payment method"; u "UTM"; u "Project";
    u "Region"; u "Заметки"; u "Источник лида"; u "Часовой пояс";
    u "Доступность в мессенджерах"; u "Сегментация"; u "Часовой пояс (GMT)";
    u "Звонок IP-телефонией"; u "Альтернативный номер"; u "Личный номер";
    u "Сообщение в мессенджеры (Повторное касание)"; u "Перенос встречи";
    u "Прогрев / прогресс"; u "Интерес"; u "Результат (CRM)";
    u "Задача на повтор"; u "Бюджет"; u "Цель"; u "Предпочтения";
    u "Видеозвонок / осмотр объекта"; u "Отправить материалы лиду";
    u "Связаться через мессенджер" ].

(** [a == b] on lists of strings. *)
Fixpoint strs_eqb (a b : list str) : bool :=
  match a, b with
  | [], [] => true
  | x :: a', y :: b' => str_eqb x y && strs_eqb a' b'
  | _, _ => false
  end.

(** [setup_sheet], run once when the module is loaded; nothing catches
    what it raises. *)
Definition setup_sheet : M unit :=
  existing <- trimmed_row_values 1 ;;
  match existing with
  | [] => insert_row REQUIRED_HEADERS 1
  | _ =>
      if negb (strs_eqb (firstn (length REQUIRED_HEADERS) existing)
                        REQUIRED_HEADERS) then
        delete_rows 1 ;;
        insert_row REQUIRED_HEADERS 1
      else ret tt
  end.

(** * The vocabulary of the properties

    Definitions that only the statements below use: what a match consumed,
    the shapes and reasons the claims name, and ways to read the world
    before and after a handler ran. *)

(** [denotes ic r cs g g']: the expression [r] can consume exactly the
    characters [cs], taking group 1 from [g] to [g'].  The anchors consume
    nothing; where they hold is not recorded here. *)
Inductive denotes (ic : bool) : re -> str -> option str -> option str -> Prop :=
| d_eps g : denotes ic Eps [] g g
| d_rep cl lo hi cs g :
    Forall (fun c => class_matches ic cl c = true) cs ->
    (lo <= length cs)%nat ->
    match hi with Some h => (length cs <= h)%nat | None => True end ->
    denotes ic (Rep cl lo hi) cs g g
| d_cat r1 r2 cs1 cs2 g g1 g2 :
    denotes ic r1 cs1 g g1 -> denotes ic r2 cs2 g1 g2 ->
    denotes ic (Cat r1 r2) (cs1 ++ cs2) g g2
| d_grp r cs g g1 :
    denotes ic r cs g g1 -> denotes ic (Grp r) cs g (Some cs)
| d_opt_taken r cs g g1 :
    denotes ic r cs g g1 -> denotes ic (Opt r) cs g g1
| d_opt_skipped r g : denotes ic (Opt r) [] g g
| d_bol g : denotes ic Bol [] g g
| d_eol g : denotes ic Eol [] g g.

(** An optional '+' and then 6 to 15 decimal digits. *)
Definition phone_shape (s : str) : Prop :=
  exists sign digits,
    s = sign ++ digits /\ (sign = [] \/ sign = [0x2B]) /\
    Forall (fun c => isdecimal c = true) digits /\
    (6 <= length digits <= 15)%nat.

(** Sortedness in the form the loop needs it: whoever stands behind the
    head is no longer than the head. *)
Inductive by_len_desc : list str -> Prop :=
| bld_nil : by_len_desc []
| bld_cons h t :
    (forall x, In x t -> (length x <= length h)%nat) ->
    by_len_desc t -> by_len_desc (h :: t).

(** [k], with label [v], is a longest key of [tbl] that [digits] starts
    with. *)
Definition longest_match (tbl : dict str) (digits k v : str) : Prop :=
  In (k, v) tbl /\ startswith digits k = true /\
  forall k' v', In (k', v') tbl -> startswith digits k' = true ->
                (length k' <= length k)%nat.

(** [phone] has no leading '+', or what follows it starts with no key of
    [tbl]. *)
Definition no_match (tbl : dict str) (phone : str) : Prop :=
  startswith phone (u "+") = false \/
  forall k v, In (k, v) tbl -> startswith (skipn 1 phone) k = false.

(** The reasons intake rejects a lead for, in the order [process_lead]
    tests them. *)
Inductive Rejection :=
| MissingRequiredField
| NoContactChannel
| InvalidPhoneFormat
| InvalidEmailFormat.

(** The reply [process_lead] sends for each reason. *)
Definition rejection_text (r : Rejection) : str :=
  match r with
  | MissingRequiredField =>
      u "Ой! Похоже, вы не указали 'Имя клиента'. Пожалуйста, повторите."
  | NoContactChannel =>
      u "Чтобы связаться, нужен либо телефон, либо мессенджер. Пожалуйста, добавьте одно из них."
  | InvalidPhoneFormat =>
      u "Формат телефона кажется неправильным. Попробуйте ещё раз."
  | InvalidEmailFormat =>
      u "Email выглядит некорректным. Исправьте или уберите поле Email."
  end.

(** [lead.get("Телефон") or lead.get("WhatsApp")] *)
Definition phone_candidate_of (lead : dict str) : str :=
  str_or (get_or lead (u "Телефон") []) (get_or lead (u "WhatsApp") []).

(** The checks of [process_lead] on a parsed lead, by name. *)
Definition lead_rejection (lead : dict str) : option Rejection :=
  if negb (truthy (get_or lead (u "Имя клиента") [])) then
    Some MissingRequiredField
  else if negb (truthy (phone_candidate_of lead)
                || truthy (get_or lead (u "Мессенджер") [])) then
    Some NoContactChannel
  else if truthy (phone_candidate_of lead)
          && negb (validate_phone (phone_candidate_of lead)) then
    Some InvalidPhoneFormat
  else if truthy (get_or lead (u "Email") [])
          && negb (validate_email (get_or lead (u "Email") [])) then
    Some InvalidEmailFormat
  else None.

(** The reason intake turns a message down for, if any. *)
Definition intake_rejection (message_text : str) : option Rejection :=
  lead_rejection (parse_lead_text (strip message_text)).

(** [sheet.cell(row, col).value or ""] on a sheet. *)
Definition cell_text (sh : Sheet) (row col : Z) : str :=
  match sheet_cell_value sh row col with
  | Some (Some v) => v
  | _ => []
  end.

(** The sheet after [update_cell(row, col, value)] went through. *)
Definition set_cell (sh : Sheet) (row col : Z) (value : str) : Sheet :=
  set_nth [] (idx row) (set_nth [] (idx col) value (nth (idx row) sh [])) sh.

(** [value or ""] for what [sheet.cell(...).value] gave. *)
Definition or_empty (value : option str) : str :=
  match value with Some v => str_or v [] | None => [] end.

(** The three-part token a button carries: [field:option:rowIndex]. *)
Definition token (field_code short_code row_str : str) : str :=
  field_code ++ [0x3A] ++ short_code ++ [0x3A] ++ row_str.

(** The buttons of a keyboard, row after row. *)
Definition buttons (kb : Keyboard) : list Button := concat kb.

(** What [_reply] sends for the menu. *)
Definition menu_message (target : Target) (kb : Keyboard) : Sent :=
  match target with
  | AnUpdate true => EditMessageText MENU_TEXT (Some kb)
  | _ => ReplyText MENU_TEXT (Some kb)
  end.

(** What [handle_button] needs of a field of [OPTIONS_MAP] and of its
    options to reach the toggle. *)
Definition toggle_field_ok (entry : str * dict str) : bool :=
  let field_code := fst entry in
  negb (contains 0x3A field_code)
  && negb (str_eqb field_code (u "noop"))
  && negb (str_eqb field_code (u "finish"))
  && negb (str_eqb field_code (u "input"))
  && (1 <=? get_or FIELD_TO_COL field_code 0)%Z
  && forallb (fun o => negb (contains 0x3A (fst o)) && truthy (snd o))
             (snd entry).

(** The value a toggle writes over [current]. *)
Definition toggled (current canonical : str) : str :=
  if str_eqb (lower current) (lower canonical) then [] else canonical.

(** The value a free-text submission writes over [existing]. *)
Definition submitted (code existing text : str) : str :=
  if str_eqb code (u "notes") then
    if truthy existing then existing ++ u "; " ++ text else text
  else text.

(** The world after [check_authorized] has turned the user away. *)
Definition refused (w : World) : World :=
  mkWorld (sheet w) (faults w)
          (ReplyText (u "Извините, у вас нет прав пользоваться этим ботом.")
                     None :: outbox w)
          (user_data w).

(** The world after one plain reply. *)
Definition replied (w : World) (text : str) : World :=
  mkWorld (sheet w) (faults w) (ReplyText text None :: outbox w)
          (user_data w).

(** A call to the sheet raised on the way from [w] to [w']: the part of the
    fault plan that was used up holds a [true]. *)
Definition met_failure (w w' : World) : Prop :=
  exists used, faults w = used ++ faults w' /\ In true used.

(** The next call to the sheet is not planned to fail. *)
Definition next_call_ok (w : World) : Prop :=
  match faults w with true :: _ => False | _ => True end.

(** The newest thing sent is the plain text [text]. *)
Definition reported (w : World) (text : str) : Prop :=
  hd_error (outbox w) = Some (ReplyText text None)
  \/ hd_error (outbox w) = Some (EditMessageText text None).

(** The texts a failure of the sheet is reported with. *)
Definition READ_FAILED : str := u "Ошибка при чтении данных. Попробуйте позже.".
Definition UPDATE_FAILED : str :=
  u "Произошла ошибка при обновлении. Попробуйте ещё раз.".
Definition APPEND_FAILED : str :=
  u "Ой, что-то пошло не так при записи в Google Sheets. Попробуйте позже.".
Definition MENU_FAILED : str :=
  u "Не смог получить данные о лиде. Попробуйте позже.".
Definition SAVE_FAILED : str :=
  u "Произошла ошибка при сохранении. Попробуйте позже.".
Definition HANDLER_FAILED : str := u "Произошла ошибка. Попробуйте позже.".

(** The row the first call to the sheet of a transition asks for, for the
    transitions that go to the sheet with a row named in the update: a
    "noop" button and a toggle, with the row of the token, and a free text,
    with the row of the pointer. *)
Definition first_row (ev : Event) (conv : option LeadStates) (w : World)
  : option Z :=
  match ev, conv with
  | ButtonPress data, Some EDITING =>
      match split_on 0x3A data with
      | [field_code; short_code; row_str] =>
          match py_int row_str with
          | None => None
          | Some row =>
              if str_eqb field_code (u "noop") then Some row
              else if str_eqb field_code (u "finish") then None
              else if str_eqb field_code (u "input") then None
              else if (get_or FIELD_TO_COL field_code 0 =? 0)%Z then None
              else if negb (has_key OPTIONS_MAP field_code)
                      || negb (has_key (get_or OPTIONS_MAP field_code [])
                                       short_code) then None
              else Some row
          end
      | _ => None
      end
  | TextMessage _, Some EDITING =>
      match editing_field (user_data w), editing_row (user_data w) with
      | Some code, Some row =>
          if negb (truthy code) || (row =? 0)%Z then None
          else if (get_or FIELD_TO_COL code 0 <? 1)%Z then None
          else Some row
      | _, _ => None
      end
  | _, _ => None
  end.

(** The sheet refuses the first call of the transition: an authorized
    user's update sends it to a row below 1, for which gspread raises
    whatever the fault plan says. *)
Definition sheet_refuses (auth : list Z) (user_id : Z) (ev : Event)
           (conv : option LeadStates) (w : World) : Prop :=
  In user_id auth
  /\ exists row, first_row ev conv w = Some row /\ (row < 1)%Z.

(** How the transition for [ev] from the state [conv] and the world [w]
    ends when a call to the sheet raised: what was reported, the state
    after it, and what became of the sheet. *)
Inductive failure_outcome (ev : Event) (conv conv' : option LeadStates)
          (w w' : World) : Prop :=
| fo_read data :     (* the toggle could not read the cell *)
    ev = ButtonPress data ->
    conv = Some EDITING -> conv' = Some EDITING ->
    sheet w' = sheet w ->
    reported w' READ_FAILED ->
    failure_outcome ev conv conv' w w'
| fo_update data :   (* the toggle could not write the cell *)
    ev = ButtonPress data ->
    conv = Some EDITING -> conv' = Some EDITING ->
    sheet w' = sheet w ->
    reported w' UPDATE_FAILED ->
    failure_outcome ev conv conv' w w'
| fo_menu_button data : (* the menu could not read the row, after a button *)
    ev = ButtonPress data ->
    conv = Some EDITING -> conv' = Some EDITING ->
    reported w' MENU_FAILED ->
    failure_outcome ev conv conv' w w'
| fo_menu_text text : (* the text is saved; the menu could not read the row *)
    ev = TextMessage text ->
    conv = Some EDITING -> conv' = Some EDITING ->
    reported w' MENU_FAILED ->
    failure_outcome ev conv conv' w w'
| fo_save text :     (* a free-text submission could not read or write *)
    ev = TextMessage text ->
    conv = Some EDITING -> conv' = Some BULK_DATA ->
    sheet w' = sheet w ->
    reported w' SAVE_FAILED ->
    failure_outcome ev conv conv' w w'
| fo_append text :   (* intake could not append the row *)
    ev = TextMessage text ->
    conv = Some BULK_DATA -> conv' = Some BULK_DATA ->
    sheet w' = sheet w ->
    reported w' APPEND_FAILED ->
    failure_outcome ev conv conv' w w'
| fo_count text :    (* intake could not count the rows: the error handler *)
    ev = TextMessage text ->
    conv = Some BULK_DATA -> conv' = Some BULK_DATA ->
    (exists row, sheet w' = sheet_append_row (sheet w) row) ->
    reported w' HANDLER_FAILED ->
    failure_outcome ev conv conv' w w'
| fo_menu_intake text : (* the menu could not read the row just appended *)
    ev = TextMessage text ->
    conv = Some BULK_DATA -> conv' = Some EDITING ->
    (exists row, sheet w' = sheet_append_row (sheet w) row) ->
    reported w' MENU_FAILED ->
    failure_outcome ev conv conv' w w'.

(** [m] leaves the observation [f] of the world as it finds it. *)
Definition keeps {A X : Type} (f : World -> X) (m : M A) : Prop :=
  forall w, f (snd (m w)) = f w.

(** [matches ic r bef cs aft g g']: between the text [bef] behind it
    (reversed) and the text [aft] ahead of it, [r] can consume exactly [cs],
    taking group 1 from [g] to [g'], with the anchors holding where they
    stand. *)
Inductive matches (ic : bool)
  : re -> str -> str -> str -> option str -> option str -> Prop :=
| m_eps bef aft g : matches ic Eps bef [] aft g g
| m_rep cl lo hi bef cs aft g :
    Forall (fun c => class_matches ic cl c = true) cs ->
    (lo <= length cs)%nat ->
    match hi with Some h => (length cs <= h)%nat | None => True end ->
    matches ic (Rep cl lo hi) bef cs aft g g
| m_cat r1 r2 bef cs1 cs2 aft g g1 g2 :
    matches ic r1 bef cs1 (cs2 ++ aft) g g1 ->
    matches ic r2 (rev cs1 ++ bef) cs2 aft g1 g2 ->
    matches ic (Cat r1 r2) bef (cs1 ++ cs2) aft g g2
| m_grp r bef cs aft g g1 :
    matches ic r bef cs aft g g1 -> matches ic (Grp r) bef cs aft g (Some cs)
| m_opt_taken r bef cs aft g g1 :
    matches ic r bef cs aft g g1 -> matches ic (Opt r) bef cs aft g g1
| m_opt_skipped r bef aft g : matches ic (Opt r) bef [] aft g g
| m_bol aft g : matches ic Bol [] [] aft g g
| m_eol bef aft g :
    aft = [] \/ aft = [10] -> matches ic Eol bef [] aft g g.

(** A non-empty local part, '@', a non-empty domain, '.', a non-empty
    ending, none of the three holding an '@', and then anything at all. *)
Definition email_shape (s : str) : Prop :=
  exists a b c rest,
    s = a ++ [0x40] ++ b ++ [0x2E] ++ c ++ rest
    /\ a <> [] /\ b <> [] /\ c <> []
    /\ ~ In 0x40 a /\ ~ In 0x40 b /\ ~ In 0x40 c.

(** A character of [[\w\.-]]. *)
Definition email_char (c : char) : bool :=
  isword c || (c =? 0x2E) || (c =? 0x2D).

(** What the Email pattern captures: [[\w\.-]+@[\w\.-]+\.\w+]. *)
Definition parsed_email_shape (s : str) : Prop :=
  exists a b c,
    s = a ++ [0x40] ++ b ++ [0x2E] ++ c
    /\ a <> [] /\ b <> [] /\ c <> []
    /\ Forall (fun x => email_char x = true) a
    /\ Forall (fun x => email_char x = true) b
    /\ Forall (fun x => isword x = true) c.

(** No class of [r] accepts the character [c]. *)
Fixpoint re_avoids (ic : bool) (c : char) (r : re) : bool :=
  match r with
  | Rep cl _ _ => negb (class_matches ic cl c)
  | Cat r1 r2 => re_avoids ic c r1 && re_avoids ic c r2
  | Grp r1 | Opt r1 => re_avoids ic c r1
  | Eps | Bol | Eol => true
  end.

(** No class inside the group of [r] accepts the character [c]. *)
Fixpoint group_avoids (ic : bool) (c : char) (r : re) : bool :=
  match r with
  | Grp r1 => re_avoids ic c r1
  | Cat r1 r2 => group_avoids ic c r1 && group_avoids ic c r2
  | Opt r1 => group_avoids ic c r1
  | Eps | Rep _ _ _ | Bol | Eol => true
  end.

(** The text [s] begins with the literal text [l] as a pattern matches it:
    character by character, and under [IGNORECASE] in any case. *)
Fixpoint literals_at (ic : bool) (l s : str) : bool :=
  match l, s with
  | [], _ => true
  | d :: l', c :: s' => atom_matches ic (ALit d) c && literals_at ic l' s'
  | _ :: _, [] => false
  end.

(** A key and a value as they stand in a UTM string. *)
Definition utm_key (k : str) : Prop :=
  strip k = k /\ contains 0x7C k = false /\ contains 0x26 k = false
  /\ contains 0x3D k = false.

(** A value may hold '='. *)
Definition utm_value (v : str) : Prop :=
  strip v = v /\ contains 0x7C v = false /\ contains 0x26 v = false.

(** White space or one of the two separators of a UTM string. *)
Definition utm_blank (c : char) : bool :=
  isspace c || (c =? 0x7C) || (c =? 0x26).

(** The time zone [process_lead] stores with a lead: the one of the phone
    prefix, when there is a phone candidate. *)
Definition tz_of (lead : dict str) : str :=
  let phone_candidate := phone_candidate_of lead in
  if truthy phone_candidate then guess_tz_by_phone phone_candidate else [].

(** The region given in the text, else the one of the phone prefix. *)
Definition region_of (lead : dict str) : str :=
  let phone_candidate := phone_candidate_of lead in
  let given := get_or lead (u "Region") [] in
  if truthy given then given
  else if truthy phone_candidate then guess_region_by_phone phone_candidate
  else [].

(** The row intake stores for a parsed lead: the ten parsed fields in the
    order of [FIELD_PATTERNS], the region, two empty cells, the time zone
    and eighteen empty cells. *)
Definition stored_row (lead : dict str) : list str :=
  firstn 10 (map snd lead) ++ [region_of lead; []; []; tz_of lead]
  ++ repeat [] 18.

(** The summary [process_lead] sends before the menu. *)
Definition summary_text (lead : dict str) : str :=
  concat
    [ u "Данные лида сохранены!"; nl; nl;
      u "Определён часовой пояс: "; str_or (tz_of lead) (u "N/A"); nl;
      u "Определён регион: "; str_or (region_of lead) (u "N/A"); nl; nl;
      parse_utm_details (get_or lead (u "UTM") []); nl;
      u "Теперь вы можете уточнить дополнительные поля в меню ниже." ].

(** A conversation: the updates of one user, handled one after the
    other. *)
Definition conversation (auth : list Z) (user_id : Z) (evs : list Event)
           (s : option LeadStates * World) : option LeadStates * World :=
  fold_left (fun s ev => dispatch auth user_id ev s) evs s.

(** The world after the messages [ms] were sent, the newest first. *)
Definition sent (w : World) (ms : list Sent) : World :=
  mkWorld (sheet w) (faults w) (ms ++ outbox w) (user_data w).

(** What [handle_button] answers to data it cannot take apart. *)
Definition BAD_BUTTON : str :=
  u "Что-то не так с данными кнопки (callback_data).".

(** What [handle_text_input] answers when it has nowhere to write. *)
Definition NO_TARGET : str :=
  u "Не найдено, какое поле надо заполнить. Попробуйте заново.".
Definition BAD_FIELD : str := u "Что-то не так с этим полем.".

(** The answers of [unknown] and of [cmd_cancel]. *)
Definition UNKNOWN_COMMAND : str :=
  u "Неизвестная команда. Попробуйте /start или /algorithm.".
Definition CANCELLED : str :=
  u "Процесс отменён. Введите /start, чтобы начать заново.".

(** Is this user in a conversation? *)
Definition in_conversation (conv : option LeadStates) : bool :=
  match conv with Some _ => true | None => false end.

(** The prompt the "input" button is answered with. *)
Definition prompt (code : str) : str :=
  concat [u "Напишите, пожалуйста, "; get_or CODE_TO_FIELD code code; u ":"].

(** The decimal digits of a number, as characters. *)
Fixpoint uint_str (d : Decimal.uint) : str :=
  match d with
  | Decimal.Nil => []
  | Decimal.D0 l => 0x30 :: uint_str l
  | Decimal.D1 l => 0x31 :: uint_str l
  | Decimal.D2 l => 0x32 :: uint_str l
  | Decimal.D3 l => 0x33 :: uint_str l
  | Decimal.D4 l => 0x34 :: uint_str l
  | Decimal.D5 l => 0x35 :: uint_str l
  | Decimal.D6 l => 0x36 :: uint_str l
  | Decimal.D7 l => 0x37 :: uint_str l
  | Decimal.D8 l => 0x38 :: uint_str l
  | Decimal.D9 l => 0x39 :: uint_str l
  end.

(** The number the digits stand for, read from the left. *)
Fixpoint uint_val (acc : N) (d : Decimal.uint) : N :=
  match d with
  | Decimal.Nil => acc
  | Decimal.D0 l => uint_val (acc * 10 + 0) l
  | Decimal.D1 l => uint_val (acc * 10 + 1) l
  | Decimal.D2 l => uint_val (acc * 10 + 2) l
  | Decimal.D3 l => uint_val (acc * 10 + 3) l
  | Decimal.D4 l => uint_val (acc * 10 + 4) l
  | Decimal.D5 l => uint_val (acc * 10 + 5) l
  | Decimal.D6 l => uint_val (acc * 10 + 6) l
  | Decimal.D7 l => uint_val (acc * 10 + 7) l
  | Decimal.D8 l => uint_val (acc * 10 + 8) l
  | Decimal.D9 l => uint_val (acc * 10 + 9) l
  end.

(** The sheet [setup_sheet] leaves when no call fails. *)
Definition with_headers (sh : Sheet) : Sheet :=
  match trim_row (nth 0 sh []) with
  | [] => REQUIRED_HEADERS :: sh
  | existing =>
      if strs_eqb (firstn 32 existing) REQUIRED_HEADERS then sh
      else REQUIRED_HEADERS :: remove_nth 0 sh
  end.

(** * Properties *)

(** ** Strings and dictionaries *)

Lemma str_eqb_eq (s t : str) : str_eqb s t = true <-> s = t.
Proof.
  revert t; induction s as [|c s IH]; intros [|d t]; simpl;
    try (split; [discriminate | congruence]); [tauto|].
  rewrite andb_true_iff, N.eqb_eq, IH.
  split; [intros [-> ->]; reflexivity | intros H; inversion H; auto].
Qed.

Lemma str_eqb_refl (s : str) : str_eqb s s = true.
Proof. apply str_eqb_eq; reflexivity. Qed.

Lemma str_eqb_neq (s t : str) : str_eqb s t = false <-> s <> t.
Proof.
  rewrite <- str_eqb_eq. destruct (str_eqb s t); split; congruence.
Qed.

Lemma truthy_false (s : str) : truthy s = false <-> s = [].
Proof. destruct s; simpl; split; congruence. Qed.

Lemma dict_get_In {V : Type} (d : dict V) (k : str) (v : V) :
  dict_get d k = Some v -> In (k, v) d.
Proof.
  induction d as [|[k' v'] d IH]; simpl; [discriminate|].
  destruct (str_eqb k k') eqn:E.
  - apply str_eqb_eq in E. intros H; inversion H; subst; auto.
  - auto.
Qed.

Lemma dict_get_NoDup {V : Type} (d : dict V) (k : str) (v : V) :
  NoDup (keys d) -> In (k, v) d -> dict_get d k = Some v.
Proof.
  induction d as [|[k' v'] d IH]; simpl; [tauto|].
  intros ND [H|H].
  - inversion H; subst. rewrite str_eqb_refl. reflexivity.
  - inversion ND as [|? ? Hnotin ND']; subst.
    destruct (str_eqb k k') eqn:E.
    + apply str_eqb_eq in E; subst. exfalso. apply Hnotin.
      change k' with (fst (k', v)). apply in_map. exact H.
    + auto.
Qed.

Lemma startswith_app (s p : str) :
  startswith s p = true <-> exists r, s = p ++ r.
Proof.
  revert s; induction p as [|d p IH]; intros s; simpl.
  - split; [exists s; reflexivity | reflexivity].
  - destruct s as [|c s].
    + split; [discriminate | intros [r H]; discriminate].
    + rewrite andb_true_iff, N.eqb_eq, IH. split.
      * intros [-> [r ->]]. exists r. reflexivity.
      * intros [r H]. inversion H; subst. split; [reflexivity | exists r; reflexivity].
Qed.

Lemma startswith_same_length (s p q : str) :
  startswith s p = true -> startswith s q = true ->
  length p = length q -> p = q.
Proof.
  rewrite !startswith_app. intros [r ->] [r' H] L.
  revert q r' H L; induction p as [|c p IH]; intros [|d q] r' H L;
    simpl in *; try discriminate; [reflexivity|].
  inversion H; subst. f_equal. eapply IH; eauto.
Qed.

(** ** The longest matching prefix *)

Lemma insert_by_len_In (k x : str) (l : list str) :
  In x (insert_by_len k l) <-> x = k \/ In x l.
Proof.
  induction l as [|h t IH]; simpl; [intuition congruence|].
  destruct (length h <=? length k)%nat; simpl; [intuition congruence|].
  rewrite IH. intuition congruence.
Qed.

Lemma sorted_by_len_desc_In (x : str) (ks : list str) :
  In x (sorted_by_len_desc ks) <-> In x ks.
Proof.
  induction ks as [|k ks IH]; simpl; [tauto|].
  rewrite insert_by_len_In, IH. intuition congruence.
Qed.

Lemma insert_by_len_sorted (k : str) (l : list str) :
  by_len_desc l -> by_len_desc (insert_by_len k l).
Proof.
  induction 1 as [|h t Hh Ht IH]; simpl.
  - constructor; [intros x []| constructor].
  - destruct (length h <=? length k)%nat eqn:E.
    + apply Nat.leb_le in E. constructor.
      * intros x [<-|Hx]; [exact E|]. specialize (Hh x Hx). lia.
      * constructor; assumption.
    + apply Nat.leb_gt in E. constructor; [|exact IH].
      intros x Hx. apply insert_by_len_In in Hx as [->|Hx]; [lia | auto].
Qed.

Lemma sorted_by_len_desc_sorted (ks : list str) :
  by_len_desc (sorted_by_len_desc ks).
Proof.
  induction ks; simpl; [constructor | apply insert_by_len_sorted; assumption].
Qed.

Lemma first_prefix_none (tbl : dict str) (digits : str) (ks : list str) :
  (forall k, In k ks -> startswith digits k = false) ->
  first_prefix tbl digits ks = u "Другой".
Proof.
  induction ks as [|h t IH]; intros H; [reflexivity|].
  simpl. rewrite (H h (or_introl eq_refl)). apply IH.
  intros k Hk. apply H. right. exact Hk.
Qed.

Lemma first_prefix_longest (tbl : dict str) (digits k : str) (ks : list str) :
  by_len_desc ks -> In k ks -> startswith digits k = true ->
  (forall k', In k' ks -> startswith digits k' = true ->
              (length k' <= length k)%nat) ->
  first_prefix tbl digits ks = get_or tbl k [].
Proof.
  induction 1 as [|h t Hh Ht IH]; intros Hin Hk Hmax; [destruct Hin|].
  simpl. destruct (startswith digits h) eqn:E.
  - assert (h = k) as ->; [|reflexivity].
    apply (startswith_same_length digits); auto.
    apply Nat.le_antisymm; [apply Hmax; simpl; auto|].
    destruct Hin as [->|Hin]; [lia | auto].
  - destruct Hin as [->|Hin]; [congruence|].
    apply IH; auto. intros k' Hk'. apply Hmax. right. exact Hk'.
Qed.

Lemma in_keys {V : Type} (d : dict V) (k : str) :
  In k (keys d) <-> exists v, In (k, v) d.
Proof.
  unfold keys. rewrite in_map_iff. split.
  - intros [[k' v] [<- H]]. exists v. exact H.
  - intros [v H]. exists (k, v). auto.
Qed.

Lemma guess_tz_in_longest (tbl : dict str) (digits k v : str) :
  NoDup (keys tbl) -> longest_match tbl digits k v ->
  guess_tz_in tbl (0x2B :: digits) = v.
Proof.
  intros ND (Hin & Hk & Hmax). unfold guess_tz_in.
  change (startswith (0x2B :: digits) (u "+")) with true. simpl negb.
  cbv iota. change (skipn 1 (0x2B :: digits)) with digits. cbv zeta.
  rewrite (first_prefix_longest tbl digits k).
  - unfold get_or. rewrite (dict_get_NoDup tbl k v ND Hin). reflexivity.
  - apply sorted_by_len_desc_sorted.
  - apply sorted_by_len_desc_In, in_keys. exists v. exact Hin.
  - exact Hk.
  - intros k' Hk'. apply sorted_by_len_desc_In, in_keys in Hk' as [v' Hv'].
    eauto.
Qed.

Lemma guess_tz_in_none (tbl : dict str) (phone : str) :
  no_match tbl phone -> guess_tz_in tbl phone = u "Другой".
Proof.
  intros H. unfold guess_tz_in.
  destruct (startswith phone (u "+")) eqn:E; [|reflexivity].
  destruct H as [H|H]; [congruence|]. simpl negb. cbv iota zeta.
  apply first_prefix_none. intros k Hk.
  apply sorted_by_len_desc_In, in_keys in Hk as [v Hv]. eauto.
Qed.

Lemma guess_region_longest (digits k v : str) :
  longest_match REGION_TABLE digits k v ->
  guess_region_by_phone (0x2B :: digits) = v.
Proof.
  intros (Hin & Hk & _).
  simpl in Hin. destruct Hin as [H|[H|[H|[]]]]; inversion H; subst;
    apply startswith_app in Hk as [r ->]; reflexivity.
Qed.

Lemma guess_region_none (phone : str) :
  no_match REGION_TABLE phone -> guess_region_by_phone phone = u "Unknown".
Proof.
  intros H. unfold guess_region_by_phone.
  destruct (startswith phone (u "+")) eqn:E; [|reflexivity].
  destruct H as [H|H]; [congruence|]. simpl negb. cbv iota zeta.
  rewrite (H (u "34") (u "Spain")), (H (u "7") (u "Russia")),
    (H (u "1") (u "USA")); simpl; auto.
Qed.

(** C5.  Time zone and region inference from a phone candidate.  For a
    candidate that starts with '+', whose remaining characters start with a
    prefix of the table, the label of the longest such prefix is returned;
    a candidate with no leading '+' or with no prefix of the table gets the
    sentinel ("Другой" for the time zone, "Unknown" for the region).  The
    time zone part holds for every table with distinct keys, of which
    [guess_tz_by_phone] is the instance at [COUNTRY_TZ_MAP]; the region part
    is about the prefixes [guess_region_by_phone] tests, [REGION_TABLE]. *)
Theorem phone_prefix_inference (tbl : dict str) (phone : str) :
  NoDup (keys tbl) ->
  (forall digits k v,
      phone = 0x2B :: digits -> longest_match tbl digits k v ->
      guess_tz_in tbl phone = v)
  /\ (no_match tbl phone -> guess_tz_in tbl phone = u "Другой")
  /\ (forall digits k v,
         phone = 0x2B :: digits -> longest_match REGION_TABLE digits k v ->
         guess_region_by_phone phone = v)
  /\ (no_match REGION_TABLE phone ->
      guess_region_by_phone phone = u "Unknown").
Proof.
  intros ND. repeat split.
  - intros digits k v -> H. apply (guess_tz_in_longest tbl digits k v); assumption.
  - apply guess_tz_in_none.
  - intros digits k v -> H. apply (guess_region_longest digits k v); assumption.
  - apply guess_region_none.
Qed.

Lemma country_tz_keys_distinct : NoDup (keys COUNTRY_TZ_MAP).
Proof.
  repeat constructor; simpl; intuition discriminate.
Qed.

(** The instance the bot runs: a Spanish number, by the static tables. *)
Lemma phone_prefix_inference_witness :
  guess_tz_by_phone (u "+34600111222") = u "GMT+1"
  /\ guess_region_by_phone (u "+34600111222") = u "Spain".
Proof.
  destruct (phone_prefix_inference COUNTRY_TZ_MAP (u "+34600111222")
              country_tz_keys_distinct) as (Htz & _ & Hreg & _).
  split.
  - apply (Htz (u "34600111222") (u "34") (u "GMT+1") eq_refl).
    split; [simpl; auto|]. split; [reflexivity|].
    intros k' v' Hin Hk'. simpl in Hin.
    destruct Hin as [H|[H|[H|[]]]]; inversion H; subst;
      [auto | discriminate Hk' | discriminate Hk'].
  - apply (Hreg (u "34600111222") (u "34") (u "Spain") eq_refl).
    split; [simpl; auto|]. split; [reflexivity|].
    intros k' v' Hin Hk'. simpl in Hin.
    destruct Hin as [H|[H|[H|[]]]]; inversion H; subst;
      [auto | discriminate Hk' | discriminate Hk'].
Defined.

(** Of two prefixes that both match, the longer one decides. *)
Example longest_prefix_wins :
  guess_tz_in [ (u "1", u "GMT-5"); (u "12", u "GMT-6") ] (u "+1234")
  = u "GMT-6".
Proof. reflexivity. Qed.

(** ** What a match has consumed *)

Lemma rep_greedy_sound {R : Type} (p : char -> bool)
      (k : str -> str -> option R) (aft : str) :
  forall lo hi bef res,
    rep_greedy p lo hi k bef aft = Some res ->
    exists cs aft',
      aft = cs ++ aft' /\ Forall (fun c => p c = true) cs /\
      (lo <= length cs)%nat /\
      match hi with Some h => (length cs <= h)%nat | None => True end /\
      k (rev cs ++ bef) aft' = Some res.
Proof.
  induction aft as [|c aft IH]; intros lo hi bef res H; simpl in H.
  - destruct lo; [|discriminate]. exists [], []. simpl.
    repeat split; auto. destruct hi; [lia | exact I].
  - assert (Hstop :
              match lo with O => k bef (c :: aft) | S _ => None end = Some res ->
              exists cs aft',
                c :: aft = cs ++ aft' /\ Forall (fun c => p c = true) cs /\
                (lo <= length cs)%nat /\
                match hi with Some h => (length cs <= h)%nat | None => True end /\
                k (rev cs ++ bef) aft' = Some res).
    { destruct lo; [|discriminate]. intros Hk. exists [], (c :: aft). simpl.
      repeat split; auto. destruct hi; [lia | exact I]. }
    destruct (p c && match hi with Some O => false | _ => true end) eqn:E;
      [|auto].
    destruct (rep_greedy p (pred lo) (option_map pred hi) k (c :: bef) aft)
      as [r|] eqn:E'; [|auto].
    inversion H; subst r. clear H Hstop.
    apply andb_true_iff in E as [Hp Hhi].
    apply IH in E' as (cs & aft' & -> & Hall & Hlo & Hh & Hk).
    exists (c :: cs), aft'. simpl. rewrite <- app_assoc. simpl.
    repeat split; auto; [lia|].
    destruct hi as [[|h]|]; simpl in *; [discriminate | lia | exact I].
Qed.

Lemma firstn_rev_app (cs bef : str) :
  rev (firstn (length (rev cs ++ bef) - length bef) (rev cs ++ bef)) = cs.
Proof.
  rewrite length_app, Nat.add_sub, firstn_app, Nat.sub_diag, firstn_all.
  simpl. rewrite app_nil_r. apply rev_involutive.
Qed.

Lemma rmatch_sound {R : Type} (ic : bool) (r : re) :
  forall (k : str -> str -> option str -> option R) bef aft g res,
    rmatch ic r k bef aft g = Some res ->
    exists cs aft' g',
      aft = cs ++ aft' /\ denotes ic r cs g g' /\
      k (rev cs ++ bef) aft' g' = Some res.
Proof.
  induction r as [|cl lo hi|r1 IH1 r2 IH2|r IH|r IH| |];
    intros k bef aft g res H; simpl in H.
  - exists [], aft, g. repeat split; [constructor | exact H].
  - apply rep_greedy_sound in H as (cs & aft' & -> & Hall & Hlo & Hhi & Hk).
    exists cs, aft', g. repeat split; [constructor; assumption | exact Hk].
  - apply IH1 in H as (cs1 & aft1 & g1 & -> & D1 & H).
    apply IH2 in H as (cs2 & aft2 & g2 & -> & D2 & H).
    exists (cs1 ++ cs2), aft2, g2. rewrite <- app_assoc.
    repeat split; [econstructor; eassumption|].
    rewrite rev_app_distr, <- app_assoc. exact H.
  - apply IH in H as (cs & aft' & g1 & -> & D & H).
    rewrite firstn_rev_app in H.
    exists cs, aft', (Some cs). repeat split; [econstructor; eassumption | exact H].
  - destruct (rmatch ic r k bef aft g) as [x|] eqn:E.
    + inversion H; subst x. apply IH in E as (cs & aft' & g1 & -> & D & E).
      exists cs, aft', g1. repeat split; [apply d_opt_taken; assumption | exact E].
    + exists [], aft, g. repeat split; [apply d_opt_skipped | exact H].
  - destruct bef; [|discriminate].
    exists [], aft, g. repeat split; [constructor | exact H].
  - exists [], aft, g. repeat split; [constructor|].
    destruct aft as [|c [|d aft]]; try discriminate; [exact H|].
    destruct (c =? 10); [exact H | discriminate].
Qed.

Lemma search_from_sound (ic : bool) (r : re) (aft : str) :
  forall bef res,
    search_from ic r bef aft = Some res ->
    exists cs g, denotes ic r cs None g /\ res = g.
Proof.
  induction aft as [|c aft IH]; intros bef res H; simpl in H;
    destruct (rmatch ic r accept bef _ None) as [g|] eqn:E;
    try discriminate.
  - inversion H; subst g.
    apply rmatch_sound in E as (cs & aft' & g' & _ & D & E).
    inversion E; subst. eauto.
  - inversion H; subst g.
    apply rmatch_sound in E as (cs & aft' & g' & _ & D & E).
    inversion E; subst. eauto.
  - eauto.
Qed.

(** ** The shape of an extracted phone number *)

(** A literal that has no other case is matched by itself only, with or
    without [IGNORECASE]. *)
Lemma literal_uncased (ic : bool) (d c : char) :
  iscased d = false -> atom_matches ic (ALit d) c = true -> c = d.
Proof.
  intros Hd H. cbn [atom_matches] in H. unfold literal_ignorecase in H.
  rewrite Hd in H. destruct ic; apply N.eqb_eq in H; exact H.
Qed.

Lemma literal_uncased_self (ic : bool) (d : char) :
  iscased d = false -> atom_matches ic (ALit d) d = true.
Proof.
  intros Hd. cbn [atom_matches]. unfold literal_ignorecase. rewrite Hd.
  destruct ic; apply N.eqb_refl.
Qed.

Lemma denotes_phone_digits (ic : bool) (cs : str) (g g' : option str) :
  denotes ic phone_digits cs g g' -> phone_shape cs.
Proof.
  unfold phone_digits, maybe. intros H.
  inversion H as [| |? ? cs1 cs2 ? ? ? D1 D2| | | | |]; subst.
  inversion D1 as [|? ? ? ? ? Hall1 _ Hhi1| | | | | |]; subst.
  inversion D2 as [|? ? ? ? ? Hall2 Hlo2 Hhi2| | | | | |]; subst.
  exists cs1, cs2. repeat split; auto.
  destruct cs1 as [|c [|d cs1]]; simpl in Hhi1; [auto | | lia].
  right. inversion Hall1 as [|? ? Hc _]; subst. cbn [class_matches] in Hc.
  f_equal. apply (literal_uncased ic 0x2B c); [reflexivity | exact Hc].
Qed.

Lemma isdecimal_not_space (c : char) : isdecimal c = true -> isspace c = false.
Proof.
  unfold isdecimal. intros H. apply existsb_exists in H as (lo & Hlo & Hin).
  unfold in_block in Hin. apply andb_true_iff in Hin as [H1 H2].
  apply N.leb_le in H1. apply N.ltb_lt in H2.
  unfold isspace.
  repeat (apply orb_false_iff; split);
    try apply andb_false_iff; try apply N.eqb_neq;
    simpl in Hlo;
    repeat (destruct Hlo as [<-|Hlo];
            [first [ lia | left; apply N.leb_gt; lia
                   | right; apply N.leb_gt; lia ]|]);
    destruct Hlo.
Qed.

Lemma rep_greedy_max {R : Type} (p : char -> bool)
      (k : str -> str -> option R) (run rest : str) (res : R) :
  forall lo hi bef,
    Forall (fun c => p c = true) run ->
    (lo <= length run)%nat ->
    match hi with Some h => (length run <= h)%nat | None => True end ->
    match rest with
    | [] => True
    | c :: _ => p c = false \/ hi = Some (length run)
    end ->
    k (rev run ++ bef) rest = Some res ->
    rep_greedy p lo hi k bef (run ++ rest) = Some res.
Proof.
  induction run as [|c run IH]; intros lo hi bef Hall Hlo Hhi Hrest Hk;
    simpl in *.
  - assert (lo = 0%nat) as -> by lia.
    destruct rest as [|c rest]; simpl; [exact Hk|].
    destruct Hrest as [-> | ->]; simpl; [exact Hk|].
    rewrite andb_false_r. exact Hk.
  - inversion Hall as [|? ? Hc Hall']; subst. rewrite Hc. simpl.
    assert (match hi with Some O => false | _ => true end = true) as ->.
    { destruct hi as [[|h]|]; [lia | reflexivity | reflexivity]. }
    rewrite (IH (pred lo) (option_map pred hi) (c :: bef)); auto.
    + lia.
    + destruct hi as [h|]; simpl; [lia | exact I].
    + destruct rest as [|d rest]; [exact I|].
      destruct Hrest as [Hd | ->]; [left; exact Hd | right; reflexivity].
    + rewrite <- app_assoc in Hk. exact Hk.
Qed.

Lemma isdecimal_not_plus (c : char) : isdecimal c = true -> (c =? 0x2B) = false.
Proof.
  intros H. apply N.eqb_neq. intros ->. discriminate H.
Qed.

Lemma validate_phone_shape (s : str) : phone_shape s -> validate_phone s = true.
Proof.
  intros (sign & digits & -> & Hsign & Hall & Hlen).
  unfold validate_phone. destruct (negb (truthy (sign ++ digits))); [reflexivity|].
  assert (Hd : re_match phone_pattern (sign ++ digits) = Some None);
    [|rewrite Hd; reflexivity].
  unfold re_match, phone_pattern, phone_digits, maybe. simpl.
  destruct Hsign as [-> | ->].
  - change ([] ++ digits) with ([] ++ digits : str).
    apply (rep_greedy_max _ _ [] digits); simpl; auto; try lia.
    + destruct digits as [|d ds]; [exact I|]. left.
      inversion Hall; subst. apply isdecimal_not_plus. assumption.
    + rewrite <- (app_nil_r digits).
      apply (rep_greedy_max _ _ digits []); simpl; auto; lia.
  - apply (rep_greedy_max _ _ [0x2B] digits); simpl; auto.
    + destruct digits; [exact I | right; reflexivity].
    + rewrite <- (app_nil_r digits).
      apply (rep_greedy_max _ _ digits []); simpl; auto; lia.
Qed.

Lemma lstrip_head (s : str) :
  match s with c :: _ => isspace c = false | [] => True end -> lstrip s = s.
Proof.
  destruct s as [|c s]; simpl; [reflexivity | intros ->; reflexivity].
Qed.

Lemma strip_phone_shape (s : str) : phone_shape s -> strip s = s.
Proof.
  intros (sign & digits & -> & Hsign & Hall & Hlen).
  unfold strip, rstrip. rewrite (lstrip_head (sign ++ digits)).
  - rewrite lstrip_head; [apply rev_involutive|].
    rewrite rev_app_distr.
    destruct (rev digits) as [|d r] eqn:E.
    + apply (f_equal (@length _)) in E. rewrite length_rev in E.
      simpl in E. lia.
    + simpl. apply isdecimal_not_space.
      rewrite Forall_forall in Hall. apply Hall.
      apply in_rev. rewrite E. left. reflexivity.
  - destruct Hsign as [-> | ->]; simpl; [|reflexivity].
    destruct digits as [|d ds]; [exact I|].
    inversion Hall; subst. apply isdecimal_not_space. assumption.
Qed.

(** What a pattern of the form [label \s* ( phone )] extracts. *)
Lemma extract_phone_shape (label : re) (text : str) :
  let regex := mkPattern (seq [label; any_space; Grp phone_digits]) true in
  extract regex text = [] \/ phone_shape (extract regex text).
Proof.
  intros regex. unfold extract.
  destruct (re_search regex text) as [[raw|]|] eqn:E; auto.
  destruct (truthy raw); auto. right.
  assert (Hs : phone_shape raw).
  { unfold re_search in E. simpl in E.
    apply search_from_sound in E as (cs & g & D & Hg). subst g.
    inversion D as [| |? ? cs1 cs2 ? g1 ? D1 D2| | | | |]; subst.
    inversion D2 as [| |? ? cs3 cs4 ? g2 ? D3 D4| | | | |]; subst.
    inversion D4 as [| | |? ? ? ? D5| | | |]; subst.
    eapply denotes_phone_digits. eassumption. }
  rewrite (strip_phone_shape raw Hs). exact Hs.
Qed.

(** The candidate [process_lead] checks is empty or of the phone shape,
    and [validate_phone] accepts both. *)
Lemma parsed_candidate_valid (p w : str) :
  p = [] \/ phone_shape p -> w = [] \/ phone_shape w ->
  validate_phone (str_or p w) = true.
Proof.
  intros Hp Hw. unfold str_or. destruct (truthy p) eqn:T.
  - destruct Hp as [Hp|Hp]; [rewrite Hp in T; discriminate|].
    apply validate_phone_shape. exact Hp.
  - destruct Hw as [-> | Hw]; [reflexivity|].
    apply validate_phone_shape. exact Hw.
Qed.

(** C10.  Whatever the text, the parser's phone and WhatsApp values are
    empty or an optional '+' followed by 6 to 15 digits, so the phone
    candidate intake assembles from them always passes [validate_phone]. *)
Theorem parsed_phones_well_formed (text : str) :
  let lead := parse_lead_text text in
  let phone := get_or lead (u "Телефон") [] in
  let whatsapp := get_or lead (u "WhatsApp") [] in
  (phone = [] \/ phone_shape phone)
  /\ (whatsapp = [] \/ phone_shape whatsapp)
  /\ validate_phone (str_or phone whatsapp) = true.
Proof.
  intros lead phone whatsapp.
  assert (Hp : phone = [] \/ phone_shape phone)
    by apply (extract_phone_shape (lits (u "Телефон:")) text).
  assert (Hw : whatsapp = [] \/ phone_shape whatsapp)
    by apply (extract_phone_shape (lits (u "WhatsApp:")) text).
  repeat split; auto.
  apply parsed_candidate_valid; assumption.
Qed.

(** ** Authorization *)

(** From here on the literals are compared as they are written. *)
Opaque u.

Lemma authorized_iff (auth : list Z) (user_id : Z) :
  existsb (Z.eqb user_id) auth = true <-> In user_id auth.
Proof.
  rewrite existsb_exists. split.
  - intros (x & Hin & E). apply Z.eqb_eq in E. subst. exact Hin.
  - intros H. exists user_id. split; [exact H | apply Z.eqb_refl].
Qed.

Lemma check_authorized_denied {A : Type} (auth : list Z) (user_id : Z)
      (k : bool -> M A) (w : World) :
  ~ In user_id auth ->
  bind (check_authorized auth user_id) k w = k false (refused w).
Proof.
  intros H. unfold bind, check_authorized.
  destruct (existsb (Z.eqb user_id) auth) eqn:E.
  - apply authorized_iff in E. contradiction.
  - reflexivity.
Qed.

Lemma check_authorized_granted {A : Type} (auth : list Z) (user_id : Z)
      (k : bool -> M A) (w : World) :
  In user_id auth ->
  bind (check_authorized auth user_id) k w = k true w.
Proof.
  intros H. unfold bind, check_authorized.
  apply authorized_iff in H. rewrite H. reflexivity.
Qed.

(** Every handler returns at once for a user who is not on the list. *)
Lemma route_denied (auth : list Z) (user_id : Z) (conv : option LeadStates)
      (ev : Event) (handler : M Returned) (w : World) :
  ~ In user_id auth ->
  route auth conv user_id ev = Some handler ->
  exists r, handler w = (Ok r, refused w).
Proof.
  intros Hno Hr.
  destruct ev as [name|text|data]; simpl in Hr.
  - destruct (str_eqb name (u "algorithm"));
      [|destruct (str_eqb name (u "start") && _);
        [|destruct (str_eqb name (u "cancel") && _)]];
      inversion Hr; subst handler;
      [ unfold cmd_algorithm | unfold cmd_start | unfold cmd_cancel
      | unfold unknown ];
      rewrite check_authorized_denied by assumption; eexists; reflexivity.
  - destruct conv as [[|]|]; inversion Hr; subst handler;
      [unfold process_lead | unfold handle_text_input];
      rewrite check_authorized_denied by assumption; eexists; reflexivity.
  - destruct conv as [[|]|]; inversion Hr; subst handler.
    unfold handle_button.
    rewrite check_authorized_denied by assumption; eexists; reflexivity.
Qed.

(** C9.  An update from a user who is not in [AUTHORIZED_USERS] never
    reaches the sheet, whatever it is and whatever state the conversation is
    in: the sheet is as it was (no row appended, no cell written), no call
    to it was made (the fault plan is untouched), and [user_data] is as it
    was. *)
Theorem unauthorized_never_touches_store
        (auth : list Z) (user_id : Z) (ev : Event)
        (conv : option LeadStates) (w : World) :
  ~ In user_id auth ->
  let w' := snd (dispatch auth user_id ev (conv, w)) in
  sheet w' = sheet w /\ faults w' = faults w /\ user_data w' = user_data w.
Proof.
  intros Hno. unfold dispatch.
  destruct (route auth conv user_id ev) as [handler|] eqn:Hr; [|simpl; auto].
  destruct (route_denied auth user_id conv ev handler w Hno Hr) as [r ->].
  destruct r as [st| |]; simpl; auto.
Qed.

Lemma unauthorized_never_touches_store_witness :
  let auth := [1001%Z] in
  let w := mkWorld [[u "Имя клиента"]] [true] [] (mkUserData None None) in
  let lead := u "Имя клиента: Ana Телефон: +34600111222" in
  let w' := snd (dispatch auth 7%Z (TextMessage lead) (Some BULK_DATA, w)) in
  ~ In 7%Z auth
  /\ sheet w' = sheet w /\ faults w' = faults w /\ user_data w' = user_data w.
Proof.
  assert (H : ~ In 7%Z [1001%Z]) by (simpl; intuition discriminate).
  split; [exact H|].
  exact (unauthorized_never_touches_store
           [1001%Z] 7%Z
           (TextMessage (u "Имя клиента: Ana Телефон: +34600111222"))
           (Some BULK_DATA)
           (mkWorld [[u "Имя клиента"]] [true] [] (mkUserData None None)) H).
Defined.

(** ** Intake *)

Lemma process_lead_rejected (auth : list Z) (user_id : Z)
      (message_text : str) (w : World) (r : Rejection) :
  In user_id auth ->
  intake_rejection message_text = Some r ->
  process_lead auth user_id message_text w
  = (Ok (Next BULK_DATA), replied w (rejection_text r)).
Proof.
  intros Hauth Hr. unfold process_lead.
  rewrite check_authorized_granted by assumption.
  cbv beta zeta. change (negb true) with false. cbv iota.
  unfold intake_rejection, lead_rejection, phone_candidate_of in Hr.
  set (lead := parse_lead_text (strip message_text)) in *.
  destruct (negb (truthy (get_or lead (u "Имя клиента") [])));
    [inversion Hr; reflexivity|].
  destruct (negb (truthy (str_or (get_or lead (u "Телефон") [])
                                 (get_or lead (u "WhatsApp") []))
                  || truthy (get_or lead (u "Мессенджер") [])));
    [inversion Hr; reflexivity|].
  destruct (truthy (str_or (get_or lead (u "Телефон") [])
                           (get_or lead (u "WhatsApp") []))
            && negb (validate_phone
                       (str_or (get_or lead (u "Телефон") [])
                               (get_or lead (u "WhatsApp") []))));
    [inversion Hr; reflexivity|].
  destruct (truthy (get_or lead (u "Email") [])
            && negb (validate_email (get_or lead (u "Email") [])));
    [inversion Hr; reflexivity|].
  discriminate Hr.
Qed.

Lemma process_lead_denied (auth : list Z) (user_id : Z)
      (message_text : str) (w : World) :
  ~ In user_id auth ->
  process_lead auth user_id message_text w = (Ok (Next BULK_DATA), refused w).
Proof.
  intros H. unfold process_lead.
  rewrite check_authorized_denied by assumption. reflexivity.
Qed.

Lemma missing_name_rejection (message_text : str) :
  truthy (get_or (parse_lead_text (strip message_text)) (u "Имя клиента") [])
  = false ->
  intake_rejection message_text = Some MissingRequiredField.
Proof.
  intros H. unfold intake_rejection, lead_rejection. rewrite H. reflexivity.
Qed.

(** C7.  A lead text that fails a check of intake is answered with the
    reason, the conversation stays in [BULK_DATA] and the sheet is what it
    was: no row is appended, and no call to the sheet is even made.  A text
    with no name fails with [MissingRequiredField]. *)
Theorem rejected_intake_leaves_store
        (auth : list Z) (user_id : Z) (message_text : str) (w : World)
        (r : Rejection) :
  intake_rejection message_text = Some r ->
  let s' := dispatch auth user_id (TextMessage message_text)
                     (Some BULK_DATA, w) in
  fst s' = Some BULK_DATA
  /\ sheet (snd s') = sheet w
  /\ faults (snd s') = faults w
  /\ (In user_id auth ->
      outbox (snd s') = ReplyText (rejection_text r) None :: outbox w)
  /\ (truthy (get_or (parse_lead_text (strip message_text))
                     (u "Имя клиента") []) = false ->
      r = MissingRequiredField).
Proof.
  intros Hr. unfold dispatch. simpl route. cbv iota.
  assert (Hname :
            truthy (get_or (parse_lead_text (strip message_text))
                           (u "Имя клиента") []) = false ->
            r = MissingRequiredField).
  { intros H. apply missing_name_rejection in H. congruence. }
  destruct (existsb (Z.eqb user_id) auth) eqn:E.
  - apply authorized_iff in E.
    rewrite (process_lead_rejected auth user_id message_text w r E Hr).
    simpl. auto.
  - assert (Hno : ~ In user_id auth).
    { intros H. apply authorized_iff in H. congruence. }
    rewrite (process_lead_denied auth user_id message_text w Hno).
    simpl. repeat split; auto. intros H. contradiction.
Qed.

Lemma rejected_intake_leaves_store_witness :
  let auth := [7%Z] in
  let text := u "Телефон: +34600111222" in
  let w := mkWorld [[u "Имя клиента"; u "Телефон"]] [] []
                   (mkUserData None None) in
  let s' := dispatch auth 7%Z (TextMessage text) (Some BULK_DATA, w) in
  intake_rejection text = Some MissingRequiredField
  /\ fst s' = Some BULK_DATA
  /\ sheet (snd s') = sheet w
  /\ faults (snd s') = faults w.
Proof.
  assert (H : intake_rejection (u "Телефон: +34600111222")
              = Some MissingRequiredField) by (vm_compute; reflexivity).
  split; [exact H|].
  destruct (rejected_intake_leaves_store
              [7%Z] 7%Z (u "Телефон: +34600111222")
              (mkWorld [[u "Имя клиента"; u "Телефон"]] [] []
                       (mkUserData None None))
              MissingRequiredField H) as (H1 & H2 & H3 & _).
  auto.
Defined.

(** The phone format check of [process_lead] never fires: the candidate it
    is given comes out of the parser. *)
Lemma phone_format_never_rejected (message_text : str) :
  intake_rejection message_text <> Some InvalidPhoneFormat.
Proof.
  unfold intake_rejection, lead_rejection.
  unfold phone_candidate_of.
  rewrite (parsed_candidate_valid
             (get_or (parse_lead_text (strip message_text)) (u "Телефон") [])
             (get_or (parse_lead_text (strip message_text)) (u "WhatsApp") []))
    by first [ apply (extract_phone_shape (lits (u "Телефон:")))
             | apply (extract_phone_shape (lits (u "WhatsApp:"))) ].
  rewrite andb_false_r.
  repeat match goal with
         | |- context [if ?b then _ else _] => destruct b
         end; discriminate.
Qed.

(** ** What a handler leaves alone *)

Lemma keeps_ret {A X : Type} (f : World -> X) (a : A) : keeps f (ret a).
Proof. intros w. reflexivity. Qed.

Lemma keeps_raise {A X : Type} (f : World -> X) : keeps f (@raise A).
Proof. intros w. reflexivity. Qed.

Lemma keeps_bind {A B X : Type} (f : World -> X) (m : M A) (k : A -> M B) :
  keeps f m -> (forall a, keeps f (k a)) -> keeps f (bind m k).
Proof.
  intros Hm Hk w. unfold bind. specialize (Hm w).
  destruct (m w) as [[a|] w']; simpl in *; [|exact Hm].
  rewrite Hk. exact Hm.
Qed.

Lemma keeps_try {A X : Type} (f : World -> X) (body handler : M A) :
  keeps f body -> keeps f handler -> keeps f (try_except body handler).
Proof.
  intros Hb Hh w. unfold try_except. specialize (Hb w).
  destruct (body w) as [[a|] w']; simpl in *; [exact Hb|].
  rewrite Hh. exact Hb.
Qed.

Lemma keeps_ud_send (s : Sent) : keeps user_data (send s).
Proof. intros w. reflexivity. Qed.

Lemma keeps_ud_get : keeps user_data get_user_data.
Proof. intros w. reflexivity. Qed.

Lemma keeps_ud_sheet_call {A : Type} (op : Sheet -> option (A * Sheet)) :
  keeps user_data (sheet_call op).
Proof.
  intros w. unfold sheet_call.
  destruct (faults w) as [|[|] fs]; [| reflexivity |];
    destruct (op (sheet w)) as [[a sh']|]; reflexivity.
Qed.

Ltac keeps_ud_step :=
  match goal with
  | |- keeps _ (bind _ _) => apply keeps_bind; [|intros ?]
  | |- keeps _ (ret _) => apply keeps_ret
  | |- keeps _ raise => apply keeps_raise
  | |- keeps _ (try_except _ _) => apply keeps_try
  | |- keeps _ (send _) => apply keeps_ud_send
  | |- keeps _ (sheet_call _) => apply keeps_ud_sheet_call
  | |- keeps _ get_user_data => apply keeps_ud_get
  | |- keeps _ (if ?b then _ else _) => destruct b
  | |- keeps _ (match ?x with _ => _ end) => destruct x
  | |- keeps _ (let _ := _ in _) => cbv zeta
  | |- keeps _ _ =>
      progress unfold reply_text, edit_message_text, answer, row_values,
        cell_value, update_cell, append_row, get_all_values, _reply,
        show_main_menu, check_authorized
  end.

Ltac keeps_ud := repeat keeps_ud_step.

Lemma process_lead_keeps_ud (auth : list Z) (user_id : Z) (text : str) :
  keeps user_data (process_lead auth user_id text).
Proof. unfold process_lead. keeps_ud. Qed.

Lemma handle_text_input_keeps_ud (auth : list Z) (user_id : Z) (text : str) :
  keeps user_data (handle_text_input auth user_id text).
Proof. unfold handle_text_input. keeps_ud. Qed.

(** [handle_button] writes [user_data] for an "input" token only. *)
Lemma handle_button_keeps_ud (auth : list Z) (user_id : Z) (data : str) :
  (forall f s r, split_on 0x3A data = [f; s; r] ->
                 str_eqb f (u "input") = false) ->
  keeps user_data (handle_button auth user_id data).
Proof.
  intros H. unfold handle_button.
  apply keeps_bind; [keeps_ud | intros ok].
  destruct (negb ok); [keeps_ud|].
  apply keeps_bind; [keeps_ud | intros _].
  destruct (split_on 0x3A data) as [|f [|s [|r [|x l]]]]; try solve [keeps_ud].
  specialize (H f s r eq_refl).
  destruct (py_int r) as [row_idx|]; [|keeps_ud].
  destruct (str_eqb f (u "noop")); [keeps_ud|].
  destruct (str_eqb f (u "finish")); [keeps_ud|].
  rewrite H. keeps_ud.
Qed.

Lemma dispatch_keeps_ud (auth : list Z) (user_id : Z) (ev : Event)
      (conv : option LeadStates) (w : World) :
  (forall handler, route auth conv user_id ev = Some handler ->
                   keeps user_data handler) ->
  user_data (snd (dispatch auth user_id ev (conv, w))) = user_data w.
Proof.
  intros H. unfold dispatch.
  destruct (route auth conv user_id ev) as [handler|]; [|reflexivity].
  specialize (H handler eq_refl w).
  destruct (handler w) as [[[st| |]|] w']; simpl in *; exact H.
Qed.

Lemma split_on_app (sep : char) (a b : str) :
  contains sep a = false ->
  split_on sep (a ++ sep :: b) = a :: split_on sep b.
Proof.
  induction a as [|c a IH]; simpl; intros H.
  - rewrite N.eqb_refl. reflexivity.
  - apply orb_false_iff in H as [Hc Ha]. rewrite N.eqb_sym, Hc.
    rewrite (IH Ha). reflexivity.
Qed.

Lemma split_on_none (sep : char) (a : str) :
  contains sep a = false -> split_on sep a = [a].
Proof.
  induction a as [|c a IH]; simpl; intros H; [reflexivity|].
  apply orb_false_iff in H as [Hc Ha]. rewrite N.eqb_sym, Hc.
  rewrite (IH Ha). reflexivity.
Qed.

Lemma split_token (f s r : str) :
  contains 0x3A f = false -> contains 0x3A s = false ->
  contains 0x3A r = false ->
  split_on 0x3A (token f s r) = [f; s; r].
Proof.
  intros Hf Hs Hr. unfold token. simpl app.
  rewrite split_on_app, split_on_app, split_on_none; auto.
Qed.

Lemma split_token_head (f s r : str) :
  contains 0x3A f = false ->
  exists rest, split_on 0x3A (token f s r) = f :: rest.
Proof.
  intros Hf. unfold token. simpl app. rewrite split_on_app by assumption.
  eexists. reflexivity.
Qed.

(** ** The pointer to the field awaiting text *)

(** Nothing clears the pointer: no text message and no "finish" button
    changes [user_data], whatever the state of the conversation, so after a
    successful free-text submission and after "finish" the session still
    records the field code and row it recorded before. *)
Theorem pointer_is_never_cleared
        (auth : list Z) (user_id : Z) (conv : option LeadStates) (w : World) :
  (forall text,
      user_data (snd (dispatch auth user_id (TextMessage text) (conv, w)))
      = user_data w)
  /\ (forall short_code row_str,
         user_data
           (snd (dispatch auth user_id
                          (ButtonPress (token (u "finish") short_code row_str))
                          (conv, w)))
         = user_data w).
Proof.
  split.
  - intros text. apply dispatch_keeps_ud. intros handler Hr.
    destruct conv as [[|]|]; simpl in Hr; inversion Hr; subst handler.
    + apply process_lead_keeps_ud.
    + apply handle_text_input_keeps_ud.
  - intros short_code row_str. apply dispatch_keeps_ud. intros handler Hr.
    destruct conv as [[|]|]; simpl in Hr; inversion Hr; subst handler.
    apply handle_button_keeps_ud. intros f s r Hsplit.
    destruct (split_token_head (u "finish") short_code row_str) as [rest E];
      [vm_compute; reflexivity|].
    rewrite E in Hsplit. inversion Hsplit; subst f.
    vm_compute. reflexivity.
Qed.

(** A free-text trigger for "budget" on row 2, the text "100" and then
    "finish".  The text is stored and the conversation goes on in
    [EDITING], then back to [BULK_DATA], and the pointer is still there
    after either step. *)
Lemma pointer_survives_submission_and_finish :
  let w := mkWorld [[u "Имя клиента"]; [u "Ana"]] [] []
                   (mkUserData None None) in
  let s1 := dispatch [7%Z] 7%Z (ButtonPress (u "input:budget:2"))
                     (Some EDITING, w) in
  let s2 := dispatch [7%Z] 7%Z (TextMessage (u "100")) s1 in
  let s3 := dispatch [7%Z] 7%Z (ButtonPress (u "finish:_:2")) s2 in
  fst s2 = Some EDITING
  /\ cell_text (sheet (snd s2)) 2 27 = u "100"
  /\ user_data (snd s2) = mkUserData (Some (u "budget")) (Some 2%Z)
  /\ fst s3 = Some BULK_DATA
  /\ user_data (snd s3) = mkUserData (Some (u "budget")) (Some 2%Z).
Proof.
  vm_compute. repeat split; reflexivity.
Qed.

(** ** The phone format check *)

(** C6.  A lead whose phone is written with five digits: the value is not
    extracted, the candidate is empty, and the lead is stored without a
    phone instead of being turned down for its format. *)
Lemma malformed_phone_is_stored_as_absent :
  let text := u "Имя клиента: Ana" ++ nl ++ u "Телефон: 12345" ++ nl
              ++ u "Мессенджер: WhatsApp" in
  let w := mkWorld [[u "Имя клиента"; u "Телефон"]] [] []
                   (mkUserData None None) in
  let s' := dispatch [7%Z] 7%Z (TextMessage text) (Some BULK_DATA, w) in
  validate_phone (u "12345") = false
  /\ phone_candidate_of (parse_lead_text (strip text)) = []
  /\ intake_rejection text = None
  /\ fst s' = Some EDITING
  /\ map (firstn 6) (sheet (snd s'))
     = [ [u "Имя клиента"; u "Телефон"];
         [u "Ana"; []; []; []; []; u "WhatsApp"] ].
Proof.
  vm_compute. repeat split; reflexivity.
Qed.

(** ** Reading back what was written *)

Lemma nth_set_nth {A : Type} (d d' x : A) (n : nat) (l : list A) :
  nth n (set_nth d n x l) d' = x.
Proof.
  revert l; induction n as [|n IH]; intros [|h t]; simpl; auto.
Qed.

Lemma bad_index_false (i : Z) : (1 <= i)%Z -> bad_index i = false.
Proof. intros H. unfold bad_index. apply Z.ltb_ge. exact H. Qed.

Lemma sheet_update_cell_ok (sh : Sheet) (row col : Z) (value : str) :
  (1 <= row)%Z -> (1 <= col)%Z ->
  sheet_update_cell sh row col value = Some (set_cell sh row col value).
Proof.
  intros Hr Hc. unfold sheet_update_cell.
  rewrite (bad_index_false row Hr), (bad_index_false col Hc). reflexivity.
Qed.

Lemma sheet_cell_value_ok (sh : Sheet) (row col : Z) :
  (1 <= row)%Z -> (1 <= col)%Z ->
  exists value,
    sheet_cell_value sh row col = Some value
    /\ or_empty value = cell_text sh row col.
Proof.
  intros Hr Hc. unfold cell_text, sheet_cell_value.
  rewrite (bad_index_false row Hr), (bad_index_false col Hc). simpl.
  eexists. split; [reflexivity|].
  destruct (nth (idx col) (nth (idx row) sh []) []); reflexivity.
Qed.

Lemma cell_text_set_cell (sh : Sheet) (row col : Z) (value : str) :
  (1 <= row)%Z -> (1 <= col)%Z ->
  cell_text (set_cell sh row col value) row col = value.
Proof.
  intros Hr Hc. unfold cell_text, sheet_cell_value, set_cell.
  rewrite (bad_index_false row Hr), (bad_index_false col Hc). simpl.
  rewrite !nth_set_nth. destruct value; reflexivity.
Qed.

(** ** Runs in which every call to the sheet goes through *)

Lemma cell_value_clean (row col : Z) (sh : Sheet) (ob : list Sent)
      (ud : UserData) (value : option str) :
  sheet_cell_value sh row col = Some value ->
  cell_value row col (mkWorld sh [] ob ud) = (Ok value, mkWorld sh [] ob ud).
Proof.
  intros H. unfold cell_value, sheet_call. simpl. rewrite H. reflexivity.
Qed.

Lemma update_cell_clean (row col : Z) (value : str) (sh : Sheet)
      (ob : list Sent) (ud : UserData) :
  (1 <= row)%Z -> (1 <= col)%Z ->
  update_cell row col value (mkWorld sh [] ob ud)
  = (Ok tt, mkWorld (set_cell sh row col value) [] ob ud).
Proof.
  intros Hr Hc. unfold update_cell, sheet_call. simpl.
  rewrite sheet_update_cell_ok by assumption. reflexivity.
Qed.

Lemma show_main_menu_clean (target : Target) (row : Z) (sh : Sheet)
      (ob : list Sent) (ud : UserData) :
  (1 <= row)%Z -> target <> AnUpdate true ->
  show_main_menu target row (mkWorld sh [] ob ud)
  = (Ok tt,
     mkWorld sh []
             (ReplyText MENU_TEXT
                        (Some (keyboard (nth (idx row) sh []) row)) :: ob)
             ud).
Proof.
  intros Hr Ht. unfold show_main_menu, row_values, sheet_call, bind,
    try_except, ret, sheet_row_values. simpl.
  rewrite (bad_index_false row Hr). simpl.
  destruct target as [[|]|]; [congruence | reflexivity | reflexivity].
Qed.

(** ** Tokens: what [int()] accepts holds no colon *)

Lemma contains_app (sep : char) (a b : str) :
  contains sep (a ++ b) = contains sep a || contains sep b.
Proof. unfold contains. apply existsb_app. Qed.

Lemma contains_cons (sep c : char) (s : str) :
  contains sep (c :: s) = (sep =? c) || contains sep s.
Proof. reflexivity. Qed.

Lemma lstrip_split (s : str) :
  exists pre, s = pre ++ lstrip s /\ forallb isspace pre = true.
Proof.
  induction s as [|c s (pre & E & H)]; simpl.
  - exists []. auto.
  - destruct (isspace c) eqn:Hc.
    + exists (c :: pre). simpl. rewrite Hc, H. split; [congruence | reflexivity].
    + exists []. auto.
Qed.

Lemma spaces_no_colon (pre : str) :
  forallb isspace pre = true -> contains 0x3A pre = false.
Proof.
  induction pre as [|c pre IH]; [reflexivity|].
  intros H. cbn [forallb] in H. apply andb_true_iff in H as [Hc H].
  rewrite contains_cons, (IH H), orb_false_r. apply N.eqb_neq. intros <-. discriminate Hc.
Qed.

Lemma contains_rev (sep : char) (s : str) :
  contains sep (rev s) = contains sep s.
Proof.
  induction s as [|c s IH]; [reflexivity|].
  cbn [rev]. rewrite contains_app, IH, !contains_cons.
  cbn [contains existsb]. rewrite orb_false_r. apply orb_comm.
Qed.

Lemma strip_no_colon (s : str) :
  contains 0x3A (strip s) = false -> contains 0x3A s = false.
Proof.
  unfold strip, rstrip. rewrite contains_rev. intros H.
  destruct (lstrip_split s) as (pre & E & Hpre).
  destruct (lstrip_split (rev (lstrip s))) as (post & E' & Hpost).
  rewrite E, contains_app, (spaces_no_colon pre Hpre). simpl.
  rewrite <- contains_rev, E', contains_app, (spaces_no_colon post Hpost), H.
  reflexivity.
Qed.

Lemma int_digits_no_colon (s : str) :
  forall acc b n, int_digits acc b s = Some n -> contains 0x3A s = false.
Proof.
  induction s as [|c s IH]; intros acc b n H; [reflexivity|].
  cbn [int_digits] in H. rewrite contains_cons.
  destruct (digit_value c) as [d|] eqn:Hd.
  - rewrite (IH _ _ _ H), orb_false_r.
    apply N.eqb_neq. intros <-. vm_compute in Hd. discriminate.
  - destruct ((c =? 0x5F) && b) eqn:Hc; [|discriminate].
    apply andb_true_iff in Hc as [Hc _]. apply N.eqb_eq in Hc. subst c.
    destruct s as [|c' s']; [discriminate|].
    rewrite (IH _ _ _ H). reflexivity.
Qed.

Lemma py_int_no_colon (s : str) (n : Z) :
  py_int s = Some n -> contains 0x3A s = false.
Proof.
  unfold py_int. intros H. apply strip_no_colon.
  destruct (strip s) as [|c t]; [discriminate|].
  assert (Hd : forall f : N -> Z, forall ds,
             option_map f (int_digits 0 false ds) = Some n ->
             contains 0x3A ds = false).
  { intros f ds Hf. destruct (int_digits 0 false ds) eqn:E; [|discriminate].
    eapply int_digits_no_colon. eassumption. }
  destruct (c =? 0x2B) eqn:E1; [apply N.eqb_eq in E1; subst c|].
  { rewrite contains_cons. cbn [N.eqb Pos.eqb orb]. eapply Hd. exact H. }
  destruct (c =? 0x2D) eqn:E2; [apply N.eqb_eq in E2; subst c|].
  { rewrite contains_cons. cbn [N.eqb Pos.eqb orb]. eapply Hd. exact H. }
  assert (H' : option_map Z.of_N (int_digits 0 false (c :: t)) = Some n).
  { revert H. clear -E1 E2. apply N.eqb_neq in E1, E2.
    destruct c as [|p]; [auto|].
    do 6 (destruct p as [p|p|]; auto); try congruence. }
  eapply Hd. exact H'.
Qed.

(** ** Toggling an option *)

Lemma options_map_ok : forallb toggle_field_ok OPTIONS_MAP = true.
Proof. vm_compute. reflexivity. Qed.


Lemma toggle_facts (field_code short_code : str) (opts : dict str)
      (canonical : str) :
  dict_get OPTIONS_MAP field_code = Some opts ->
  dict_get opts short_code = Some canonical ->
  contains 0x3A field_code = false
  /\ contains 0x3A short_code = false
  /\ str_eqb field_code (u "noop") = false
  /\ str_eqb field_code (u "finish") = false
  /\ str_eqb field_code (u "input") = false
  /\ (1 <= get_or FIELD_TO_COL field_code 0)%Z
  /\ truthy canonical = true.
Proof.
  intros Hf Ho. apply dict_get_In in Hf, Ho.
  pose proof options_map_ok as H. rewrite forallb_forall in H.
  specialize (H _ Hf). unfold toggle_field_ok in H. cbn [fst snd] in H.
  repeat (apply andb_true_iff in H as [H ?]).
  rewrite forallb_forall in H0. specialize (H0 _ Ho). cbn [fst snd] in H0.
  apply andb_true_iff in H0 as [? ?].
  repeat match goal with
         | H : negb _ = true |- _ => apply negb_true_iff in H
         end.
  repeat split; auto. apply Z.leb_le. assumption.
Qed.

Lemma handle_button_toggle (auth : list Z) (user_id : Z)
      (field_code short_code row_str : str) (row : Z)
      (opts : dict str) (canonical : str)
      (sh : Sheet) (ob : list Sent) (ud : UserData) :
  In user_id auth ->
  dict_get OPTIONS_MAP field_code = Some opts ->
  dict_get opts short_code = Some canonical ->
  py_int row_str = Some row -> (1 <= row)%Z ->
  let col := get_or FIELD_TO_COL field_code 0%Z in
  exists ob',
    handle_button auth user_id (token field_code short_code row_str)
                  (mkWorld sh [] ob ud)
    = (Ok (Next EDITING),
       mkWorld (set_cell sh row col
                         (toggled (cell_text sh row col) canonical))
               [] ob' ud).
Proof.
  intros Hauth Hf Ho Hint Hrow col.
  destruct (toggle_facts _ _ _ _ Hf Ho) as (C1 & C2 & N1 & N2 & N3 & Hcol & Hcan).
  pose proof (py_int_no_colon _ _ Hint) as C3.
  unfold handle_button.
  rewrite check_authorized_granted by assumption.
  cbv beta. change (negb true) with false. cbv iota.
  rewrite (split_token _ _ _ C1 C2 C3).
  rewrite Hint, N1, N2, N3.
  fold col.
  assert (Hc0 : (col =? 0)%Z = false) by (apply Z.eqb_neq; lia).
  rewrite Hc0.
  assert (E1 : get_or OPTIONS_MAP field_code [] = opts)
    by (unfold get_or; rewrite Hf; reflexivity).
  assert (E2 : get_or opts short_code [] = canonical)
    by (unfold get_or; rewrite Ho; reflexivity).
  assert (E3 : has_key OPTIONS_MAP field_code = true)
    by (unfold has_key; rewrite Hf; reflexivity).
  assert (E4 : has_key opts short_code = true)
    by (unfold has_key; rewrite Ho; reflexivity).
  rewrite !E1, !E2, E3, E4. cbn [negb orb]. cbv iota.
  destruct (sheet_cell_value_ok sh row col Hrow Hcol) as (value & Hv & Hor).
  cbv beta iota zeta delta [bind try_except answer edit_message_text send ret
                        sheet faults outbox user_data].
  rewrite (cell_value_clean row col sh _ ud value Hv).
  cbv beta iota.
  fold (or_empty value). rewrite Hor.
  rewrite (update_cell_clean row col _ sh _ ud Hrow Hcol).
  cbv beta iota.
  rewrite show_main_menu_clean by (auto; discriminate).
  eexists. reflexivity.
Qed.

Lemma dispatch_button (auth : list Z) (user_id : Z) (data : str) (w : World)
      (st : LeadStates) (w' : World) :
  handle_button auth user_id data w = (Ok (Next st), w') ->
  dispatch auth user_id (ButtonPress data) (Some EDITING, w) = (Some st, w').
Proof.
  intros H. unfold dispatch. simpl route. cbv iota. rewrite H. reflexivity.
Qed.

Lemma toggled_twice (current canonical : str) :
  truthy canonical = true ->
  toggled (toggled current canonical) canonical
  = if str_eqb (lower current) (lower canonical) then canonical else [].
Proof.
  intros H. unfold toggled.
  destruct (str_eqb (lower current) (lower canonical)).
  - destruct canonical; [discriminate | reflexivity].
  - rewrite str_eqb_refl. reflexivity.
Qed.

(** C1, as the code has it.  An authorized toggle of an option of a field
    of [OPTIONS_MAP], with every call to the sheet going through, reads the
    cell and writes the empty string when the cell equals the option's
    canonical value up to case, and the canonical value otherwise; the
    conversation stays in [EDITING].  Hence the same toggle twice in a row:
    from a cell that does not hold the option the cell holds exactly the
    canonical value in between and is empty afterwards; from a cell that
    already holds it the cell is empty in between and holds the canonical
    value afterwards. *)
Theorem toggle_twice
        (auth : list Z) (user_id : Z) (field_code short_code row_str : str)
        (row : Z) (opts : dict str) (canonical : str) (w : World) :
  In user_id auth ->
  dict_get OPTIONS_MAP field_code = Some opts ->
  dict_get opts short_code = Some canonical ->
  py_int row_str = Some row -> (1 <= row)%Z ->
  faults w = [] ->
  let col := get_or FIELD_TO_COL field_code 0%Z in
  let ev := ButtonPress (token field_code short_code row_str) in
  let s1 := dispatch auth user_id ev (Some EDITING, w) in
  let s2 := dispatch auth user_id ev s1 in
  let before := cell_text (sheet w) row col in
  let between := cell_text (sheet (snd s1)) row col in
  let after := cell_text (sheet (snd s2)) row col in
  fst s1 = Some EDITING /\ fst s2 = Some EDITING
  /\ between = (if str_eqb (lower before) (lower canonical)
                then [] else canonical)
  /\ (str_eqb (lower before) (lower canonical) = false ->
      between = canonical /\ after = [])
  /\ (str_eqb (lower before) (lower canonical) = true ->
      between = [] /\ after = canonical).
Proof.
  intros Hauth Hf Ho Hint Hrow Hfaults col ev s1 s2 before between after.
  destruct w as [sh fs ob ud]. simpl in Hfaults. subst fs.
  destruct (toggle_facts _ _ _ _ Hf Ho) as (_ & _ & _ & _ & _ & Hcol & Hcan).
  destruct (handle_button_toggle auth user_id field_code short_code row_str
              row opts canonical sh ob ud Hauth Hf Ho Hint Hrow) as [ob1 H1].
  pose proof (dispatch_button _ _ _ _ _ _ H1) as D1.
  destruct (handle_button_toggle auth user_id field_code short_code row_str
              row opts canonical
              (set_cell sh row (get_or FIELD_TO_COL field_code 0%Z)
                        (toggled (cell_text sh row
                                    (get_or FIELD_TO_COL field_code 0%Z))
                                 canonical))
              ob1 ud Hauth Hf Ho Hint Hrow) as [ob2 H2].
  pose proof (dispatch_button _ _ _ _ _ _ H2) as D2.
  assert (E1 : between = toggled before canonical).
  { unfold between, s1, ev. rewrite D1. cbn [snd sheet].
    apply cell_text_set_cell; assumption. }
  assert (E2 : after = toggled (toggled before canonical) canonical).
  { unfold after, s2, s1, ev. rewrite D1, D2. cbn [snd sheet].
    rewrite !cell_text_set_cell by assumption. reflexivity. }
  rewrite (toggled_twice _ _ Hcan) in E2.
  unfold toggled in E1.
  repeat split.
  - unfold s1, ev. rewrite D1. reflexivity.
  - unfold s2, s1, ev. rewrite D1, D2. reflexivity.
  - exact E1.
  - rewrite E1, H. reflexivity.
  - rewrite E2, H. reflexivity.
  - rewrite E1, H. reflexivity.
  - rewrite E2, H. reflexivity.
Qed.

Lemma toggle_twice_witness :
  let w := mkWorld [[u "Имя клиента"]; [u "Ana"]] [] []
                   (mkUserData None None) in
  let ev := ButtonPress (token (u "src") (u "tg") (u "2")) in
  let s1 := dispatch [7%Z] 7%Z ev (Some EDITING, w) in
  let s2 := dispatch [7%Z] 7%Z ev s1 in
  dict_get OPTIONS_MAP (u "src")
  = Some [ (u "tg", u "Telegram"); (u "other", u "Другой") ]
  /\ py_int (u "2") = Some 2%Z
  /\ cell_text (sheet w) 2 13 = []
  /\ cell_text (sheet (snd s1)) 2 13 = u "Telegram"
  /\ cell_text (sheet (snd s2)) 2 13 = [].
Proof.
  assert (Hf : dict_get OPTIONS_MAP (u "src")
               = Some [ (u "tg", u "Telegram"); (u "other", u "Другой") ])
    by (vm_compute; reflexivity).
  assert (Ho : dict_get [ (u "tg", u "Telegram"); (u "other", u "Другой") ]
                        (u "tg") = Some (u "Telegram"))
    by (vm_compute; reflexivity).
  assert (Hint : py_int (u "2") = Some 2%Z) by (vm_compute; reflexivity).
  assert (Hrow : (1 <= 2)%Z) by lia.
  assert (Hauth : In 7%Z [7%Z]) by (left; reflexivity).
  destruct (toggle_twice [7%Z] 7%Z (u "src") (u "tg") (u "2") 2%Z _ _
              (mkWorld [[u "Имя клиента"]; [u "Ana"]] [] []
                       (mkUserData None None))
              Hauth Hf Ho Hint Hrow eq_refl) as (_ & _ & _ & Hoff & _).
  assert (Hb : str_eqb
                 (lower (cell_text [[u "Имя клиента"]; [u "Ana"]] 2
                                   (get_or FIELD_TO_COL (u "src") 0%Z)))
                 (lower (u "Telegram")) = false)
    by (vm_compute; reflexivity).
  destruct (Hoff Hb) as [Hbetween Hafter].
  cbv zeta.
  split; [exact Hf|]. split; [exact Hint|].
  split; [vm_compute; reflexivity|].
  split; [exact Hbetween | exact Hafter].
Defined.

(** C1 as stated fails when the option is already selected: the same
    toggle twice leaves the cell holding the canonical value, and the cell
    is empty between the two. *)
Lemma toggle_twice_from_selected :
  let w := mkWorld (set_cell [[u "Имя клиента"]; [u "Ana"]] 2 13
                             (u "Telegram"))
                   [] [] (mkUserData None None) in
  let ev := ButtonPress (u "src:tg:2") in
  let s1 := dispatch [7%Z] 7%Z ev (Some EDITING, w) in
  let s2 := dispatch [7%Z] 7%Z ev s1 in
  cell_text (sheet w) 2 13 = u "Telegram"
  /\ cell_text (sheet (snd s1)) 2 13 = []
  /\ cell_text (sheet (snd s2)) 2 13 = u "Telegram"
  /\ cell_text (sheet (snd s1)) 2 13 <> u "Telegram"
  /\ cell_text (sheet (snd s2)) 2 13 <> [].
Proof.
  vm_compute. repeat split; try reflexivity; discriminate.
Qed.

(** ** Submitting free text *)

Lemma column_known (code : str) :
  (1 <= get_or FIELD_TO_COL code 0)%Z -> truthy code = true.
Proof.
  destruct code; [|reflexivity]. vm_compute. intros H. contradiction H.
  reflexivity.
Qed.

Lemma handle_text_input_stores (auth : list Z) (user_id : Z)
      (message_text code : str) (row : Z)
      (sh : Sheet) (ob : list Sent) :
  In user_id auth ->
  (1 <= row)%Z -> (1 <= get_or FIELD_TO_COL code 0)%Z ->
  let col := get_or FIELD_TO_COL code 0%Z in
  let ud := mkUserData (Some code) (Some row) in
  exists ob',
    handle_text_input auth user_id message_text (mkWorld sh [] ob ud)
    = (Ok (Next EDITING),
       mkWorld (set_cell sh row col
                         (submitted code (cell_text sh row col)
                                    (strip message_text)))
               [] ob' ud).
Proof.
  intros Hauth Hrow Hcol col ud.
  pose proof (column_known code Hcol) as Hcode.
  unfold handle_text_input.
  rewrite check_authorized_granted by assumption.
  cbv beta zeta. change (negb true) with false. cbv iota.
  unfold bind at 1, get_user_data. cbn [user_data ud editing_field editing_row].
  unfold ud. cbn [editing_field editing_row].
  rewrite Hcode. cbn [negb orb].
  assert (Hr0 : (row =? 0)%Z = false) by (apply Z.eqb_neq; lia).
  rewrite Hr0. fold col.
  assert (Hc1 : (col <? 1)%Z = false) by (apply Z.ltb_ge; exact Hcol).
  rewrite Hc1.
  destruct (sheet_cell_value_ok sh row col Hrow Hcol) as (value & Hv & Hor).
  unfold submitted.
  destruct (str_eqb code (u "notes")).
  - cbv beta iota zeta delta [bind try_except reply_text send ret
                              sheet faults outbox user_data].
    rewrite (cell_value_clean row col sh _ _ value Hv).
    cbv beta iota. fold (or_empty value). rewrite Hor.
    rewrite (update_cell_clean row col _ sh _ _ Hrow Hcol).
    cbv beta iota.
    rewrite show_main_menu_clean by (auto; discriminate).
    eexists. reflexivity.
  - cbv beta iota zeta delta [bind try_except reply_text send ret
                              sheet faults outbox user_data].
    rewrite (update_cell_clean row col _ sh _ _ Hrow Hcol).
    cbv beta iota.
    rewrite show_main_menu_clean by (auto; discriminate).
    eexists. reflexivity.
Qed.

Lemma dispatch_text_editing (auth : list Z) (user_id : Z) (text : str)
      (w : World) (st : LeadStates) (w' : World) :
  handle_text_input auth user_id text w = (Ok (Next st), w') ->
  dispatch auth user_id (TextMessage text) (Some EDITING, w) = (Some st, w').
Proof.
  intros H. unfold dispatch. simpl route. cbv iota. rewrite H. reflexivity.
Qed.

(** C4, as the code has it.  The text of a submission is the message with
    the white space around it stripped.  With the pointer on a field code
    that has a column and on a row of the sheet, and every call to the sheet
    going through: for "notes" a non-empty cell gets "; " and the text
    appended and an empty cell becomes the text; for every other code the
    cell becomes the text.  Hence two submissions in a row leave the first
    text, "; " and the second text in an empty notes cell, and the second
    text alone in any other field. *)
Theorem free_text_submission
        (auth : list Z) (user_id : Z) (message1 message2 code : str)
        (row : Z) (w : World) :
  In user_id auth ->
  faults w = [] ->
  user_data w = mkUserData (Some code) (Some row) ->
  (1 <= row)%Z -> (1 <= get_or FIELD_TO_COL code 0)%Z ->
  let col := get_or FIELD_TO_COL code 0%Z in
  let text1 := strip message1 in
  let text2 := strip message2 in
  let existing := cell_text (sheet w) row col in
  let s1 := dispatch auth user_id (TextMessage message1) (Some EDITING, w) in
  let s2 := dispatch auth user_id (TextMessage message2) s1 in
  let cell1 := cell_text (sheet (snd s1)) row col in
  let cell2 := cell_text (sheet (snd s2)) row col in
  fst s1 = Some EDITING
  /\ (code = u "notes" -> existing <> [] ->
      cell1 = existing ++ u "; " ++ text1)
  /\ (code = u "notes" -> existing = [] -> cell1 = text1)
  /\ (code <> u "notes" -> cell1 = text1)
  /\ (code = u "notes" -> existing = [] -> text1 <> [] ->
      cell2 = text1 ++ u "; " ++ text2)
  /\ (code <> u "notes" -> cell2 = text2).
Proof.
  intros Hauth Hfaults Hud Hrow Hcol col text1 text2 existing s1 s2 cell1 cell2.
  destruct w as [sh fs ob ud]. simpl in Hfaults, Hud. subst fs ud.
  destruct (handle_text_input_stores auth user_id message1 code row sh ob
              Hauth Hrow Hcol) as [ob1 H1].
  pose proof (dispatch_text_editing _ _ _ _ _ _ H1) as D1.
  destruct (handle_text_input_stores auth user_id message2 code row
              (set_cell sh row (get_or FIELD_TO_COL code 0%Z)
                        (submitted code
                                   (cell_text sh row
                                              (get_or FIELD_TO_COL code 0%Z))
                                   (strip message1)))
              ob1 Hauth Hrow Hcol) as [ob2 H2].
  pose proof (dispatch_text_editing _ _ _ _ _ _ H2) as D2.
  assert (E1 : cell1 = submitted code existing text1).
  { unfold cell1, s1. rewrite D1. cbn [snd sheet].
    apply cell_text_set_cell; assumption. }
  assert (E2 : cell2 = submitted code (submitted code existing text1) text2).
  { unfold cell2, s2, s1. rewrite D1, D2. cbn [snd sheet].
    rewrite !cell_text_set_cell by assumption. reflexivity. }
  unfold submitted in E1, E2.
  split; [unfold s1; rewrite D1; reflexivity|].
  repeat split.
  - intros -> Hne. rewrite E1, str_eqb_refl.
    destruct existing; [congruence | reflexivity].
  - intros -> He. rewrite E1, str_eqb_refl, He. reflexivity.
  - intros Hn. apply str_eqb_neq in Hn. rewrite E1, Hn. reflexivity.
  - intros -> He Hne. rewrite E2, str_eqb_refl, He. cbn [truthy].
    destruct text1; [congruence | reflexivity].
  - intros Hn. apply str_eqb_neq in Hn. rewrite E2, Hn. reflexivity.
Qed.

(** "a" and then "b" into an empty notes cell. *)
Lemma free_text_submission_witness :
  let w := mkWorld [[u "Имя клиента"]; [u "Ana"]] [] []
                   (mkUserData (Some (u "notes")) (Some 2%Z)) in
  let s1 := dispatch [7%Z] 7%Z (TextMessage (u "a")) (Some EDITING, w) in
  let s2 := dispatch [7%Z] 7%Z (TextMessage (u "b")) s1 in
  get_or FIELD_TO_COL (u "notes") 0%Z = 12%Z
  /\ cell_text (sheet w) 2 12 = []
  /\ cell_text (sheet (snd s1)) 2 12 = u "a"
  /\ cell_text (sheet (snd s2)) 2 12 = u "a; b".
Proof.
  assert (Hcol : (1 <= get_or FIELD_TO_COL (u "notes") 0)%Z)
    by (vm_compute; discriminate).
  assert (Hrow : (1 <= 2)%Z) by lia.
  assert (Hauth : In 7%Z [7%Z]) by (left; reflexivity).
  destruct (free_text_submission [7%Z] 7%Z (u "a") (u "b") (u "notes") 2%Z
              (mkWorld [[u "Имя клиента"]; [u "Ana"]] [] []
                       (mkUserData (Some (u "notes")) (Some 2%Z)))
              Hauth eq_refl eq_refl Hrow Hcol)
    as (_ & _ & Hfirst & _ & Hsecond & _).
  assert (He : cell_text [[u "Имя клиента"]; [u "Ana"]] 2
                         (get_or FIELD_TO_COL (u "notes") 0%Z) = [])
    by (vm_compute; reflexivity).
  assert (Ha : strip (u "a") <> []) by (vm_compute; discriminate).
  specialize (Hfirst eq_refl He). specialize (Hsecond eq_refl He Ha).
  cbv zeta.
  split; [vm_compute; reflexivity|].
  split; [vm_compute; reflexivity|].
  split.
  - etransitivity; [exact Hfirst | vm_compute; reflexivity].
  - etransitivity; [exact Hsecond | vm_compute; reflexivity].
Defined.

(** C4 as stated fails on a message with white space around it: the cell
    does not become the submitted text but the stripped one. *)
Lemma submitted_text_is_stripped :
  let w := mkWorld [[u "Имя клиента"]; [u "Ana"]] [] []
                   (mkUserData (Some (u "budget")) (Some 2%Z)) in
  let s1 := dispatch [7%Z] 7%Z (TextMessage (u " 100k ")) (Some EDITING, w) in
  fst s1 = Some EDITING
  /\ cell_text (sheet (snd s1)) 2 27 = u "100k"
  /\ cell_text (sheet (snd s1)) 2 27 <> u " 100k ".
Proof.
  vm_compute. repeat split; try reflexivity; discriminate.
Qed.

(** ** Failures of the sheet *)

Lemma no_true (pre used fs : list bool) :
  pre ++ fs = used ++ fs -> forallb negb pre = true -> ~ In true used.
Proof.
  intros E H Hin. apply app_inv_tail in E. subst used.
  rewrite forallb_forall in H. specialize (H true Hin). discriminate.
Qed.

Ltac run :=
  cbv beta iota zeta delta
      [bind ret raise try_except sheet_call row_values cell_value update_cell
       append_row get_all_values send reply_text edit_message_text answer
       _reply show_main_menu get_user_data set_user_data error_handler
       check_authorized editing_field editing_row
       sheet faults outbox user_data tl option_map fst snd negb].

Ltac no_failure :=
  let used := fresh "used" in
  let E := fresh "E" in
  let Hin := fresh "Hin" in
  intros (used & E & Hin); exfalso; revert Hin;
  first [ apply (no_true [] used _ E); reflexivity
        | apply (no_true [false] used _ E); reflexivity
        | apply (no_true [false; false] used _ E); reflexivity
        | apply (no_true [false; false; false] used _ E); reflexivity ].

Ltac outcome_done :=
  first [ reflexivity | left; reflexivity | right; reflexivity
        | eexists; reflexivity ].

Ltac outcome_by_message :=
  lazymatch goal with
  | |- failure_outcome _ _ _ _ ?w' =>
      let t := eval cbv beta iota delta [outbox hd_error] in
               (hd_error (outbox w')) in
      lazymatch t with
      | Some (_ (u "Ошибка при чтении данных. Попробуйте позже.") None) =>
          eapply fo_read
      | Some (_ (u "Произошла ошибка при обновлении. Попробуйте ещё раз.")
                None) =>
          eapply fo_update
      | Some (_ (u "Ой, что-то пошло не так при записи в Google Sheets. Попробуйте позже.")
                None) =>
          eapply fo_append
      | Some (_ (u "Произошла ошибка. Попробуйте позже.") None) =>
          eapply fo_count
      | Some (_ (u "Произошла ошибка при сохранении. Попробуйте позже.")
                None) =>
          eapply fo_save
      | Some (_ (u "Не смог получить данные о лиде. Попробуйте позже.")
                None) =>
          first [ eapply fo_menu_button; [reflexivity ..|]
                | eapply fo_menu_text; [reflexivity | reflexivity ..|]
                | eapply fo_menu_intake ]
      end
  end;
  outcome_done.

Ltac failure_found := intros _; outcome_by_message.

Ltac settle :=
  unfold met_failure; cbv beta iota delta [fst snd faults];
  first [no_failure | failure_found].

Ltac split_faults fs :=
  destruct fs as [|[|] [|[|] [|[|] fs]]].

Ltac on_sheet :=
  repeat match goal with
         | |- context [sheet_row_values ?s ?r] =>
             destruct (sheet_row_values s r); run
         | |- context [sheet_cell_value ?s ?r ?c] =>
             destruct (sheet_cell_value s r c); run
         | |- context [sheet_update_cell ?s ?r ?c ?v] =>
             destruct (sheet_update_cell s r c v); run
         end.

(** A transition in which a planned fault hit a call to the sheet. *)
Lemma planned_failure_is_reported
      (auth : list Z) (user_id : Z) (ev : Event)
      (conv : option LeadStates) (w : World) :
  let s' := dispatch auth user_id ev (conv, w) in
  met_failure w (snd s') -> failure_outcome ev conv (fst s') w (snd s').
Proof.
  intros s'. subst s'. destruct w as [sh fs ob ud]. unfold dispatch.
  destruct ev as [name|text|data].
  - (* commands never call the sheet *)
    cbn [route].
    destruct (str_eqb name (u "algorithm"));
      [|destruct (str_eqb name (u "start") && _);
        [|destruct (str_eqb name (u "cancel") && _)]];
      [ unfold cmd_algorithm | unfold cmd_start | unfold cmd_cancel
      | unfold unknown ];
      run; destruct (existsb (Z.eqb user_id) auth); run; settle.
  - destruct conv as [[|]|]; cbn [route]; [| |run; settle].
    + (* intake *)
      unfold process_lead.
      unfold bind at 1, check_authorized.
      destruct (existsb (Z.eqb user_id) auth); [|run; settle].
      cbv beta zeta. change (negb true) with false. cbv iota.
      change (ret true {| sheet := sh; faults := fs; outbox := ob; user_data := ud |})
        with (Ok true, {| sheet := sh; faults := fs; outbox := ob; user_data := ud |}).
      cbv beta iota.
      set (lead := parse_lead_text (strip text)) in *.
      destruct (negb (truthy (get_or lead (u "Имя клиента") [])));
        [run; settle|].
      destruct (negb (truthy (str_or (get_or lead (u "Телефон") [])
                                     (get_or lead (u "WhatsApp") []))
                      || truthy (get_or lead (u "Мессенджер") [])));
        [run; settle|].
      destruct (truthy (str_or (get_or lead (u "Телефон") [])
                               (get_or lead (u "WhatsApp") []))
                && negb (validate_phone
                           (str_or (get_or lead (u "Телефон") [])
                                   (get_or lead (u "WhatsApp") []))));
        [run; settle|].
      destruct (truthy (get_or lead (u "Email") [])
                && negb (validate_email (get_or lead (u "Email") [])));
        [run; settle|].
      split_faults fs; run; on_sheet; settle.
    + (* a free-text submission *)
      unfold handle_text_input.
      unfold bind at 1, check_authorized.
      destruct (existsb (Z.eqb user_id) auth); [|run; settle].
      cbv beta zeta. change (negb true) with false. cbv iota.
      change (ret true {| sheet := sh; faults := fs; outbox := ob; user_data := ud |})
        with (Ok true, {| sheet := sh; faults := fs; outbox := ob; user_data := ud |}).
      cbv beta iota.
      destruct ud as [[code|] [row|]]; run; try settle.
      destruct (_ || (row =? 0)%Z); run; [settle|].
      destruct (get_or FIELD_TO_COL code 0 <? 1)%Z; run; [settle|].
      destruct (str_eqb code (u "notes")); split_faults fs; run; on_sheet;
        settle.
  - destruct conv as [[|]|]; cbn [route]; [run; settle| |run; settle].
    (* a button *)
    unfold handle_button.
    unfold bind at 1, check_authorized.
    destruct (existsb (Z.eqb user_id) auth); [|run; settle].
    cbv beta zeta. change (negb true) with false. cbv iota.
    change (ret true {| sheet := sh; faults := fs; outbox := ob; user_data := ud |})
      with (Ok true, {| sheet := sh; faults := fs; outbox := ob; user_data := ud |}).
    cbv beta iota.
    destruct (split_on 58 data) as [|field_code [|short_code [|row_str [|x l]]]];
      try solve [run; settle].
    destruct (py_int row_str) as [row|]; [|run; settle].
    destruct (str_eqb field_code (u "noop"));
      [split_faults fs; run; on_sheet; settle|].
    destruct (str_eqb field_code (u "finish")); [run; settle|].
    destruct (str_eqb field_code (u "input")); [run; settle|].
    destruct (get_or FIELD_TO_COL field_code 0 =? 0)%Z; [run; settle|].
    destruct (negb (has_key OPTIONS_MAP field_code) || _); [run; settle|].
    split_faults fs; run; on_sheet; settle.
Qed.

Lemma sheet_row_values_refused (sh : Sheet) (row : Z) :
  (row < 1)%Z -> sheet_row_values sh row = None.
Proof.
  intros H. unfold sheet_row_values, bad_index.
  apply Z.ltb_lt in H. rewrite H. reflexivity.
Qed.

Lemma sheet_cell_value_refused (sh : Sheet) (row col : Z) :
  (row < 1)%Z -> sheet_cell_value sh row col = None.
Proof.
  intros H. unfold sheet_cell_value, bad_index.
  apply Z.ltb_lt in H. rewrite H. reflexivity.
Qed.

Lemma sheet_update_cell_refused (sh : Sheet) (row col : Z) (value : str) :
  (row < 1)%Z -> sheet_update_cell sh row col value = None.
Proof.
  intros H. unfold sheet_update_cell, bad_index.
  apply Z.ltb_lt in H. rewrite H. reflexivity.
Qed.

Ltac refused_by H :=
  rewrite ?(sheet_row_values_refused _ _ H),
          ?(sheet_cell_value_refused _ _ _ H),
          ?(sheet_update_cell_refused _ _ _ _ H).

(** A transition whose first call the sheet refuses, whatever the fault
    plan. *)
Lemma refused_call_is_reported
      (auth : list Z) (user_id : Z) (ev : Event)
      (conv : option LeadStates) (w : World) :
  let s' := dispatch auth user_id ev (conv, w) in
  sheet_refuses auth user_id ev conv w ->
  failure_outcome ev conv (fst s') w (snd s').
Proof.
  intros s' (Hauth & row & Hrow & Hlt). subst s'.
  destruct w as [sh fs ob ud]. unfold dispatch.
  destruct ev as [name|text|data]; cbn [first_row] in Hrow;
    [discriminate Hrow| |].
  - destruct conv as [[|]|]; try discriminate Hrow.
    cbn [route user_data] in *. unfold handle_text_input.
    rewrite check_authorized_granted by assumption.
    cbv beta zeta. change (negb true) with false. cbv iota.
    destruct ud as [[code|] [r|]]; cbn [editing_field editing_row] in Hrow;
      try discriminate Hrow.
    run. cbv beta iota zeta delta [negb] in Hrow.
    destruct (_ || (r =? 0)%Z); [discriminate Hrow|].
    destruct (get_or FIELD_TO_COL code 0 <? 1)%Z; [discriminate Hrow|].
    inversion Hrow; subst r.
    destruct (str_eqb code (u "notes")); split_faults fs; run;
      refused_by Hlt; run; outcome_by_message.
  - destruct conv as [[|]|]; try discriminate Hrow.
    cbn [route] in *. unfold handle_button.
    rewrite check_authorized_granted by assumption.
    cbv beta zeta. change (negb true) with false. cbv iota.
    destruct (split_on 58 data) as [|field_code [|short_code [|row_str [|x l]]]];
      try discriminate Hrow.
    destruct (py_int row_str) as [r|]; [|discriminate Hrow].
    destruct (str_eqb field_code (u "noop")).
    { inversion Hrow; subst r.
      split_faults fs; run; refused_by Hlt; run; outcome_by_message. }
    destruct (str_eqb field_code (u "finish")); [discriminate Hrow|].
    destruct (str_eqb field_code (u "input")); [discriminate Hrow|].
    destruct (get_or FIELD_TO_COL field_code 0 =? 0)%Z; [discriminate Hrow|].
    destruct (negb (has_key OPTIONS_MAP field_code) || _);
      [discriminate Hrow|].
    inversion Hrow; subst r.
    split_faults fs; run; refused_by Hlt; run; outcome_by_message.
Qed.

(** C2, as the code has it.  Whatever the update and the state, a
    transition in which a call to the sheet raised, because the fault plan
    said so or because the sheet refuses the row it is asked for, ends with
    the failure reported as the newest message, and [failure_outcome] says
    how.  A toggle that could not read or write its cell leaves the sheet
    and the state as they were; so does an intake that could not append.
    A menu that could not be read is reported and the handler goes on: in
    [EDITING], and after intake in [EDITING] with the row stored.  A row
    count that raises after the append reaches the error handler, with the
    row stored.  A free-text submission that could not read or write
    leaves the sheet as it was and the session in [BULK_DATA], not in
    [EDITING] where it was. *)
Theorem store_failure_is_reported
        (auth : list Z) (user_id : Z) (ev : Event)
        (conv : option LeadStates) (w : World) :
  let s' := dispatch auth user_id ev (conv, w) in
  met_failure w (snd s') \/ sheet_refuses auth user_id ev conv w ->
  failure_outcome ev conv (fst s') w (snd s').
Proof.
  intros s' [H|H].
  - apply planned_failure_is_reported. exact H.
  - apply refused_call_is_reported. exact H.
Qed.

(** The write of a free-text submission raises: the failure is reported,
    nothing is stored, and the session is in [BULK_DATA].  There the
    buttons of the menu the user still sees are not handled any more, and
    the text sent again is taken for a lead and turned down. *)
Lemma store_failure_is_reported_witness :
  let w := mkWorld [[u "Имя клиента"]; [u "Ana"]] [true] []
                   (mkUserData (Some (u "budget")) (Some 2%Z)) in
  let s1 := dispatch [7%Z] 7%Z (TextMessage (u "100k")) (Some EDITING, w) in
  let s2 := dispatch [7%Z] 7%Z (TextMessage (u "100k")) s1 in
  failure_outcome (TextMessage (u "100k")) (Some EDITING) (fst s1) w (snd s1)
  /\ fst s1 = Some BULK_DATA
  /\ sheet (snd s1) = sheet w
  /\ dispatch [7%Z] 7%Z (ButtonPress (u "src:tg:2")) s1 = s1
  /\ fst s2 = Some BULK_DATA
  /\ sheet (snd s2) = sheet w
  /\ reported (snd s2) (rejection_text MissingRequiredField).
Proof.
  cbv zeta. split.
  - apply (store_failure_is_reported
             [7%Z] 7%Z (TextMessage (u "100k")) (Some EDITING)
             (mkWorld [[u "Имя клиента"]; [u "Ana"]] [true] []
                      (mkUserData (Some (u "budget")) (Some 2%Z)))).
    left. exists [true].
    split; [vm_compute; reflexivity | left; reflexivity].
  - repeat split; try (vm_compute; reflexivity).
    left. vm_compute. reflexivity.
Defined.

(** A toggle sent to row 0: the sheet refuses the read, the failure is
    reported and the session stays in [EDITING]. *)
Lemma refused_read_is_reported :
  let w := mkWorld [[u "Имя клиента"]; [u "Ana"]] [] []
                   (mkUserData None None) in
  let s' := dispatch [7%Z] 7%Z (ButtonPress (u "src:tg:0"))
                     (Some EDITING, w) in
  sheet_refuses [7%Z] 7%Z (ButtonPress (u "src:tg:0")) (Some EDITING) w
  /\ ~ met_failure w (snd s')
  /\ fst s' = Some EDITING
  /\ sheet (snd s') = sheet w
  /\ reported (snd s') READ_FAILED.
Proof.
  cbv zeta. split; [|split].
  - split; [left; reflexivity|]. exists 0%Z.
    split; [vm_compute; reflexivity | lia].
  - intros (used & E & Hin). vm_compute in E.
    destruct used; [destruct Hin | discriminate E].
  - repeat split; try (vm_compute; reflexivity).
    right. vm_compute. reflexivity.
Qed.

(** ** The menu *)

Lemma get_val_cell (row_vals : list str) (field_code : str) :
  (1 <= get_or FIELD_TO_COL field_code 0)%Z ->
  get_val row_vals field_code
  = lower (strip (nth (idx (get_or FIELD_TO_COL field_code 0%Z)) row_vals [])).
Proof.
  intros H. unfold get_val.
  assert (E : (get_or FIELD_TO_COL field_code 0 <? 1)%Z = false)
    by (apply Z.ltb_ge; exact H).
  rewrite E. cbn [orb].
  destruct (get_or FIELD_TO_COL field_code 0 >? Z.of_nat (length row_vals))%Z
    eqn:G.
  - rewrite nth_overflow; [reflexivity|].
    unfold idx. apply Z.gtb_lt in G. lia.
  - unfold str_or. destruct (nth _ row_vals []); reflexivity.
Qed.

Lemma token_prefix (f s r : str) :
  token f s r = (f ++ [0x3A] ++ s ++ [0x3A]) ++ r.
Proof. unfold token. rewrite <- !app_assoc. reflexivity. Qed.

(** A button of another option has another token; the button of the
    option has the label the code builds. *)
Ltac other_button E := vm_compute in E; discriminate E.

Ltac this_button :=
  lazymatch goal with
  | |- exists text, ?l ++ _ = _ =>
      exists l; do 3 f_equal; vm_compute; reflexivity
  end.

Lemma ex_in_tail {A : Type} (P : A -> Prop) (x : A) (l : list A) :
  (exists b, In b l /\ P b) -> exists b, In b (x :: l) /\ P b.
Proof. intros (b & H & HP). exists b. split; [right; exact H | exact HP]. Qed.

Ltac pick_button :=
  lazymatch goal with
  | |- exists b, In b (?b0 :: ?l) /\ @?P b =>
      first [ exists b0; split;
              [ left; reflexivity
              | cbn [callback_data]; f_equal; vm_compute; reflexivity ]
            | apply ex_in_tail; pick_button ]
  end.

(** C8, as the code has it.  The menu is a function of the row read (and
    of the row index the tokens carry).  For every field of [OPTIONS_MAP]
    but "tz" and every option of it, the keyboard has a button with the
    option's token, and each such button ends in the selected marker exactly
    when the cell, with the white space around it stripped, equals the
    canonical value up to case; a cell the row is too short for counts as
    empty.  No button carries a token of "tz".  What [show_main_menu] sends
    when the row is read is the keyboard of that row. *)
Theorem menu_is_a_function_of_the_row (row_vals : list str) (row_index : Z) :
  let kb := buttons (keyboard row_vals row_index) in
  (forall field_code short_code opts canonical,
      dict_get OPTIONS_MAP field_code = Some opts ->
      dict_get opts short_code = Some canonical ->
      field_code <> u "tz" ->
      let data := token field_code short_code (str_of_Z row_index) in
      let cell :=
        nth (idx (get_or FIELD_TO_COL field_code 0%Z)) row_vals [] in
      let selected := str_eqb (lower (strip cell)) (lower canonical) in
      (exists b, In b kb /\ callback_data b = data)
      /\ (forall b, In b kb -> callback_data b = data ->
                    exists text, label b = text ++ icon selected))
  /\ (forall short_code b,
         In b kb ->
         callback_data b <> token (u "tz") short_code (str_of_Z row_index))
  /\ (forall target w,
         next_call_ok w ->
         sheet_row_values (sheet w) row_index = Some row_vals ->
         outbox (snd (show_main_menu target row_index w))
         = menu_message target (keyboard row_vals row_index) :: outbox w).
Proof.
  intros kb. split; [|split].
  - intros field_code short_code opts canonical Hf Ho Htz data cell selected.
    destruct (toggle_facts _ _ _ _ Hf Ho) as (_ & _ & _ & _ & _ & Hcol & _).
    subst selected cell. rewrite <- (get_val_cell row_vals field_code Hcol).
    subst data kb. rewrite token_prefix.
    unfold buttons, keyboard. cbv beta zeta. cbn [concat app].
    generalize (str_of_Z row_index) as ri. intros ri.
    apply dict_get_In in Hf. cbn [OPTIONS_MAP In] in Hf.
    apply dict_get_In in Ho.
    repeat (destruct Hf as [Hf|Hf];
            [injection Hf as <- <-; cbn [yes_no In] in Ho;
             repeat (destruct Ho as [Ho|Ho];
                     [injection Ho as <- <-|]); try (destruct Ho);
             try (exfalso; apply Htz; reflexivity)|]);
      try (destruct Hf).
    all: split; [pick_button|].
    all: intros b Hin E; cbn [In] in Hin;
      repeat (destruct Hin as [<-|Hin];
              [cbn [callback_data label] in *;
               first [other_button E | this_button]|]);
      destruct Hin.
  - intros short_code b Hin E. subst kb. rewrite token_prefix in E.
    unfold buttons, keyboard in Hin. cbv beta zeta in Hin.
    cbn [concat app In] in Hin. revert Hin E.
    generalize (str_of_Z row_index) as ri. intros ri Hin E.
    repeat (destruct Hin as [<-|Hin];
            [cbn [callback_data] in E; other_button E|]).
    destruct Hin.
  - intros target [sh fs ob ud] Hok Hrow. cbn [sheet] in Hrow.
    unfold next_call_ok in Hok. cbn [faults] in Hok.
    unfold show_main_menu, row_values, sheet_call, bind, try_except, ret,
      _reply, reply_text, edit_message_text, send, menu_message.
    cbn [faults sheet outbox user_data].
    destruct fs as [|[|] fs]; [|contradiction|];
      rewrite Hrow; destruct target as [[|]|]; reflexivity.
Qed.

(** A cell that holds the option in lower case: the "yes" button of the
    field is there and carries the selected marker. *)
Lemma menu_is_a_function_of_the_row_witness :
  let row_vals := nth 1 (set_cell [[u "Имя клиента"]; [u "Ana"]] 2 18
                                  (u "да")) [] in
  let kb := buttons (keyboard row_vals 2) in
  (exists b, In b kb /\ callback_data b = u "ip_call:yes:2")
  /\ (forall b, In b kb -> callback_data b = u "ip_call:yes:2" ->
                exists text, label b = text ++ u "✅").
Proof.
  assert (Hf : dict_get OPTIONS_MAP (u "ip_call") = Some yes_no)
    by (vm_compute; reflexivity).
  assert (Ho : dict_get yes_no (u "yes") = Some (u "Да"))
    by (vm_compute; reflexivity).
  assert (Htz : u "ip_call" <> u "tz") by (vm_compute; discriminate).
  destruct (menu_is_a_function_of_the_row
              (nth 1 (set_cell [[u "Имя клиента"]; [u "Ana"]] 2 18
                               (u "да")) [])
              2%Z) as (H & _ & _).
  specialize (H (u "ip_call") (u "yes") yes_no (u "Да") Hf Ho Htz).
  cbv zeta in H. destruct H as (Hex & Hall).
  cbv zeta. split.
  - destruct Hex as (b & Hin & E). exists b. split; [exact Hin|].
    etransitivity; [exact E | vm_compute; reflexivity].
  - intros b Hin E.
    destruct (Hall b Hin) as (text & Hl).
    + etransitivity; [exact E | vm_compute; reflexivity].
    + exists text. etransitivity; [exact Hl | vm_compute; reflexivity].
Defined.

(** C8 as stated fails twice over.  A cell holding "Да " (with a trailing
    blank) is not equal to the canonical "Да" up to case, yet the "yes"
    button of the field is marked selected; and the "tz" cell holds the
    canonical "GMT+3" of its option, yet the menu has no button for it. *)
Lemma marker_ignores_blanks_and_tz_has_no_button :
  let sh := set_cell (set_cell [[u "Имя клиента"]; [u "Ana"]] 2 14
                               (u "GMT+3"))
                     2 18 (u "Да ") in
  let row_vals := nth 1 sh [] in
  let kb := buttons (keyboard row_vals 2) in
  nth 17 row_vals [] = u "Да "
  /\ get_or (get_or OPTIONS_MAP (u "ip_call") []) (u "yes") [] = u "Да"
  /\ str_eqb (lower (u "Да ")) (lower (u "Да")) = false
  /\ existsb (fun b => str_eqb (callback_data b) (u "ip_call:yes:2")
                       && str_eqb (label b) (u "Звонок IP: Да ✅")) kb
     = true
  /\ nth 13 row_vals [] = u "GMT+3"
  /\ get_or (get_or OPTIONS_MAP (u "tz") []) (u "gmt3") [] = u "GMT+3"
  /\ existsb (fun b => str_eqb (callback_data b) (u "tz:gmt3:2")) kb = false.
Proof.
  vm_compute. repeat split; reflexivity.
Qed.

(** * The rest of the module

    Properties of the code the sections above leave aside: the validators
    and the parser as functions, intake that succeeds, what the handlers
    do to the sheet and to the pointer, the menu's tokens, and what runs
    when the module is loaded. *)

(** The pure functions are evaluated on their literals again. *)
Transparent u.

(** ** The matcher finds whatever can be matched *)

Lemma matches_denotes ic r bef cs aft g g' :
  matches ic r bef cs aft g g' -> denotes ic r cs g g'.
Proof.
  induction 1; try solve [econstructor; eauto].
Qed.

Lemma rmatch_matches {R : Type} (ic : bool) (r : re) :
  forall (k : str -> str -> option str -> option R) bef aft g res,
    rmatch ic r k bef aft g = Some res ->
    exists cs aft' g',
      aft = cs ++ aft' /\ matches ic r bef cs aft' g g' /\
      k (rev cs ++ bef) aft' g' = Some res.
Proof.
  induction r as [|cl lo hi|r1 IH1 r2 IH2|r IH|r IH| |];
    intros k bef aft g res H; simpl in H.
  - exists [], aft, g. repeat split; [constructor | exact H].
  - apply rep_greedy_sound in H as (cs & aft' & -> & Hall & Hlo & Hhi & Hk).
    exists cs, aft', g. repeat split; [constructor; assumption | exact Hk].
  - apply IH1 in H as (cs1 & aft1 & g1 & -> & D1 & H).
    apply IH2 in H as (cs2 & aft2 & g2 & -> & D2 & H).
    exists (cs1 ++ cs2), aft2, g2. rewrite <- app_assoc.
    repeat split; [econstructor; eassumption|].
    rewrite rev_app_distr, <- app_assoc. exact H.
  - apply IH in H as (cs & aft' & g1 & -> & D & H).
    rewrite firstn_rev_app in H.
    exists cs, aft', (Some cs). repeat split; [econstructor; eassumption | exact H].
  - destruct (rmatch ic r k bef aft g) as [x|] eqn:E.
    + inversion H; subst x. apply IH in E as (cs & aft' & g1 & -> & D & E).
      exists cs, aft', g1. repeat split; [apply m_opt_taken; assumption | exact E].
    + exists [], aft, g. repeat split; [apply m_opt_skipped | exact H].
  - destruct bef; [|discriminate].
    exists [], aft, g. repeat split; [constructor | exact H].
  - exists [], aft, g.
    destruct aft as [|c [|d aft]]; try discriminate.
    + repeat split; [constructor; auto | exact H].
    + destruct (c =? 10) eqn:E; [|discriminate]. apply N.eqb_eq in E. subst c.
      repeat split; [constructor; auto | exact H].
Qed.

Lemma rep_greedy_complete {R : Type} (p : char -> bool)
      (k : str -> str -> option R) (run rest : str) :
  forall lo hi bef,
    Forall (fun c => p c = true) run ->
    (lo <= length run)%nat ->
    match hi with Some h => (length run <= h)%nat | None => True end ->
    k (rev run ++ bef) rest <> None ->
    rep_greedy p lo hi k bef (run ++ rest) <> None.
Proof.
  induction run as [|c run IH]; intros lo hi bef Hall Hlo Hhi Hk;
    simpl in *.
  - assert (lo = 0%nat) as -> by lia.
    destruct rest as [|c rest]; simpl; [exact Hk|].
    destruct (p c && _); [|exact Hk].
    destruct (rep_greedy p 0 _ k (c :: bef) rest); [discriminate | exact Hk].
  - inversion Hall as [|? ? Hc Hall']; subst. rewrite Hc. simpl.
    assert (match hi with Some O => false | _ => true end = true) as ->.
    { destruct hi as [[|h]|]; [lia | reflexivity | reflexivity]. }
    specialize (IH (pred lo) (option_map pred hi) (c :: bef) Hall').
    destruct (rep_greedy p (pred lo) (option_map pred hi) k (c :: bef)
                         (run ++ rest)); [discriminate|].
    exfalso. apply IH; auto.
    + lia.
    + destruct hi as [h|]; simpl; [lia | exact I].
    + rewrite <- app_assoc in Hk. exact Hk.
Qed.

Lemma rmatch_complete {R : Type} (ic : bool) r bef cs aft g g' :
  matches ic r bef cs aft g g' ->
  forall k : str -> str -> option str -> option R,
    k (rev cs ++ bef) aft g' <> None ->
    rmatch ic r k bef (cs ++ aft) g <> None.
Proof.
  induction 1 as [bef aft g | cl lo hi bef cs aft g Hall Hlo Hhi
                 | r1 r2 bef cs1 cs2 aft g g1 g2 M1 IH1 M2 IH2
                 | r bef cs aft g g1 M IH | r bef cs aft g g1 M IH
                 | r bef aft g | aft g | bef aft g Ha];
    intros k Hk; simpl.
  - exact Hk.
  - apply rep_greedy_complete; auto.
  - rewrite <- app_assoc. apply IH1. apply IH2.
    rewrite rev_app_distr, <- app_assoc in Hk. exact Hk.
  - apply IH. rewrite firstn_rev_app. exact Hk.
  - specialize (IH k Hk).
    destruct (rmatch ic r k bef (cs ++ aft) g); [discriminate | contradiction].
  - destruct (rmatch ic r k bef aft g); [discriminate | exact Hk].
  - exact Hk.
  - destruct Ha as [-> | ->]; simpl; exact Hk.
Qed.

(** [re.match] succeeds exactly when the pattern can consume a prefix of the
    text. *)
Lemma re_match_iff (p : pattern) (text : str) :
  re_match p text <> None
  <-> exists cs aft g',
        text = cs ++ aft
        /\ matches (ignorecase p) (body p) [] cs aft None g'.
Proof.
  unfold re_match. split.
  - destruct (rmatch _ _ _ _ _ _) as [res|] eqn:E; [|congruence].
    intros _. apply rmatch_matches in E as (cs & aft & g' & E & M & _).
    eauto.
  - intros (cs & aft & g' & -> & M).
    apply (rmatch_complete _ _ _ _ _ _ _ M). discriminate.
Qed.

Lemma matched_iff {A : Type} (o : option A) :
  match o with Some _ => true | None => false end = true <-> o <> None.
Proof. destruct o; split; congruence. Qed.

(** ** The two validators *)

Lemma length_pos {A} (l : list A) : l <> [] <-> (1 <= length l)%nat.
Proof. destruct l; simpl; split; intros; try congruence; lia. Qed.

Lemma matches_chr ic c bef cs aft g g' :
  matches ic (chr c) bef cs aft g g' ->
  exists d, cs = [d] /\ atom_matches ic (ALit c) d = true /\ g' = g.
Proof.
  unfold chr. intros H.
  inversion H as [|? ? ? ? ? ? ? Hall Hlo Hhi| | | | | |]; subst.
  destruct cs as [|d [|e cs]]; simpl in *; try lia.
  inversion Hall; subst. exists d. auto.
Qed.

Lemma matches_plus ic cl bef cs aft g g' :
  matches ic (plus cl) bef cs aft g g' ->
  Forall (fun c => class_matches ic cl c = true) cs /\ cs <> [] /\ g' = g.
Proof.
  unfold plus. intros H.
  inversion H as [|? ? ? ? ? ? ? Hall Hlo Hhi| | | | | |]; subst.
  repeat split; auto. apply length_pos. exact Hlo.
Qed.

Lemma not_at_class (cs : str) :
  Forall (fun c => class_matches false (NoneOf [ALit 0x40]) c = true) cs
  <-> ~ In 0x40 cs.
Proof.
  induction cs as [|c cs IH]; simpl.
  - split; [tauto | constructor].
  - split.
    + intros H. inversion H as [|? ? Hc Hcs]; subst. apply IH in Hcs.
      simpl in Hc. rewrite orb_false_r in Hc. apply negb_true_iff in Hc.
      apply N.eqb_neq in Hc. intuition congruence.
    + intros H. constructor.
      * simpl. rewrite orb_false_r. apply negb_true_iff. apply N.eqb_neq.
        intuition congruence.
      * apply IH. tauto.
Qed.

(** [validate_phone], in full: the empty string passes, and so does exactly
    an optional '+' with 6 to 15 decimal digits, with or without one line
    feed after it, which is where [$] also matches. *)
Theorem validate_phone_accepts (phone : str) :
  validate_phone phone = true
  <-> phone = [] \/ phone_shape phone
      \/ exists p, phone = p ++ [10] /\ phone_shape p.
Proof.
  unfold validate_phone. destruct phone as [|c0 t]; [simpl; tauto|].
  set (phone := c0 :: t). simpl truthy. simpl negb. cbv iota.
  rewrite matched_iff, re_match_iff.
  change (body phone_pattern) with (Cat Bol (Cat phone_digits Eol)).
  change (ignorecase phone_pattern) with false.
  split.
  - intros (cs & aft & g' & Ephone & M). right.
    inversion M as [| |? ? ? cs1 cs2 ? ? ? ? M1 M2| | | | |]; subst.
    inversion M1; subst.
    inversion M2 as [| |? ? ? cs3 cs4 ? ? ? ? M3 M4| | | | |]; subst.
    inversion M4 as [| | | | | | |? ? ? Ha]; subst.
    apply matches_denotes, denotes_phone_digits in M3.
    simpl in Ephone. rewrite app_nil_r in Ephone.
    destruct Ha as [-> | ->].
    + left. rewrite Ephone, app_nil_r. exact M3.
    + right. exists cs3. split; [exact Ephone | exact M3].
  - intros H.
    assert (Hm : exists p aft, phone = p ++ aft /\ phone_shape p
                               /\ (aft = [] \/ aft = [10])).
    { destruct H as [H | [H | (p & E & H)]]; [discriminate | |].
      - exists phone, []. rewrite app_nil_r. auto.
      - exists p, [10]. auto. }
    destruct Hm as (p & aft & E & (sign & digits & -> & Hsign & Hall & Hlen)
                    & Haft).
    exists ([] ++ (sign ++ digits) ++ []), aft, None.
    split; [rewrite E; simpl; rewrite app_nil_r; reflexivity|].
    apply m_cat with (g1 := None); [constructor|].
    apply m_cat with (g1 := None); [|constructor; exact Haft].
    unfold phone_digits, maybe.
    apply m_cat with (g1 := None); constructor; simpl; try lia.
    + destruct Hsign as [-> | ->]; repeat constructor.
    + destruct Hsign as [-> | ->]; simpl; lia.
    + exact Hall.
Qed.

Lemma email_pattern_body :
  body email_pattern
  = Cat (plus (NoneOf [ALit 0x40]))
        (Cat (chr 0x40)
             (Cat (plus (NoneOf [ALit 0x40]))
                  (Cat (chr 0x2E) (plus (NoneOf [ALit 0x40]))))).
Proof. reflexivity. Qed.

Lemma validate_email_shape (s : str) : email_shape s -> validate_email s = true.
Proof.
  intros (a & b & c & rest & E & Ha & Hb & Hc & Na & Nb & Nc).
  unfold validate_email. destruct (negb (truthy s)); [reflexivity|].
  rewrite matched_iff, re_match_iff, email_pattern_body.
  change (ignorecase email_pattern) with false.
  apply not_at_class in Na, Nb, Nc. apply length_pos in Ha, Hb, Hc.
  exists (a ++ [0x40] ++ b ++ [0x2E] ++ c), rest, None.
  split; [rewrite E, <- !app_assoc; reflexivity|].
  apply m_cat with (g1 := None); [constructor; auto|].
  apply m_cat with (g1 := None);
    [constructor; simpl; auto; repeat constructor|].
  apply m_cat with (g1 := None); [constructor; auto|].
  apply m_cat with (g1 := None);
    [constructor; simpl; auto; repeat constructor|].
  constructor; auto.
Qed.

(** [validate_email], in full: the empty string passes, and so does every
    string that begins with a local part, '@', a domain, '.' and one more
    character, whatever follows: the pattern is matched at the start and is
    not anchored at the end. *)
Theorem validate_email_accepts (email : str) :
  validate_email email = true <-> email = [] \/ email_shape email.
Proof.
  split.
  - unfold validate_email. destruct email as [|c0 t]; [auto|].
    set (email := c0 :: t). simpl truthy. simpl negb. cbv iota.
    rewrite matched_iff, re_match_iff, email_pattern_body.
    change (ignorecase email_pattern) with false.
    intros (cs & aft & g' & Eemail & M). right.
    inversion M as [| |? ? ? a cs2 ? ? ? ? Ma M2| | | | |]; subst.
    inversion M2 as [| |? ? ? at_ cs3 ? ? ? ? Mat M3| | | | |]; subst.
    inversion M3 as [| |? ? ? b cs4 ? ? ? ? Mb M4| | | | |]; subst.
    inversion M4 as [| |? ? ? dot c ? ? ? ? Mdot Mc| | | | |]; subst.
    apply matches_plus in Ma as (Ha & Hane & _).
    apply matches_plus in Mb as (Hb & Hbne & _).
    apply matches_plus in Mc as (Hc & Hcne & _).
    apply matches_chr in Mat as (d1 & -> & H1 & _).
    apply matches_chr in Mdot as (d2 & -> & H2 & _).
    simpl in H1, H2. apply N.eqb_eq in H1, H2. subst d1 d2.
    apply not_at_class in Ha, Hb, Hc.
    exists a, b, c, aft. repeat split; auto.
    rewrite Eemail. rewrite <- !app_assoc. reflexivity.
  - intros [-> | H]; [reflexivity | apply validate_email_shape; exact H].
Qed.

(** ** The e-mail address the parser returns *)

Lemma email_chars_class (c : char) :
  class_matches true email_chars c = true -> email_char c = true.
Proof.
  unfold email_char, email_chars. cbn [class_matches existsb].
  rewrite orb_false_r. intros H. apply orb_true_iff in H as [H|H].
  - cbn [atom_matches] in H. rewrite H. reflexivity.
  - apply orb_true_iff in H as [H|H].
    + apply literal_uncased in H; [|reflexivity]. subst. reflexivity.
    + apply literal_uncased in H; [|reflexivity]. subst. reflexivity.
Qed.

(** The 29 code points of [isspace], one by one. *)
Lemma isspace_points (c : char) :
  isspace c = true ->
  In c [ 0x09; 0x0A; 0x0B; 0x0C; 0x0D; 0x1C; 0x1D; 0x1E; 0x1F; 0x20; 0x85;
         0xA0; 0x1680; 0x2000; 0x2001; 0x2002; 0x2003; 0x2004; 0x2005;
         0x2006; 0x2007; 0x2008; 0x2009; 0x200A; 0x2028; 0x2029; 0x202F;
         0x205F; 0x3000 ].
Proof.
  unfold isspace. intros H.
  repeat match goal with
         | H : _ || _ = true |- _ => apply orb_true_iff in H as [H|H]
         end;
    repeat match goal with
           | H : _ && _ = true |- _ => apply andb_true_iff in H as [? ?]
           | H : (_ <=? _) = true |- _ => apply N.leb_le in H
           | H : (_ =? _) = true |- _ => apply N.eqb_eq in H
           end;
    simpl; lia.
Qed.

(** No word character is white space. *)
Lemma isword_not_space (c : char) : isword c = true -> isspace c = false.
Proof.
  intros H. destruct (isspace c) eqn:E; [|reflexivity].
  apply isspace_points in E. simpl in E.
  repeat (destruct E as [<-|E]; [vm_compute in H; discriminate H|]).
  destruct E.
Qed.

Lemma isword_not_at (c : char) : isword c = true -> c <> 0x40.
Proof. intros H ->. vm_compute in H. discriminate. Qed.

Lemma email_char_not_space (c : char) :
  email_char c = true -> isspace c = false.
Proof.
  unfold email_char. intros H.
  apply orb_true_iff in H as [H|H]; [apply orb_true_iff in H as [H|H]|].
  - apply isword_not_space. exact H.
  - apply N.eqb_eq in H. subst. reflexivity.
  - apply N.eqb_eq in H. subst. reflexivity.
Qed.

Lemma email_char_not_at (c : char) : email_char c = true -> c <> 0x40.
Proof. intros H ->. vm_compute in H. discriminate. Qed.

Lemma denotes_chr ic c cs g g' :
  denotes ic (chr c) cs g g' ->
  exists d, cs = [d] /\ atom_matches ic (ALit c) d = true /\ g' = g.
Proof.
  unfold chr. intros H.
  inversion H as [|? ? ? ? ? Hall Hlo Hhi| | | | | |]; subst.
  destruct cs as [|d [|e cs]]; simpl in *; try lia.
  inversion Hall; subst. exists d. auto.
Qed.

Lemma denotes_plus ic cl cs g g' :
  denotes ic (plus cl) cs g g' ->
  Forall (fun c => class_matches ic cl c = true) cs /\ cs <> [] /\ g' = g.
Proof.
  unfold plus. intros H.
  inversion H as [|? ? ? ? ? Hall Hlo Hhi| | | | | |]; subst.
  repeat split; auto. apply length_pos. exact Hlo.
Qed.

Lemma strip_ends (s : str) :
  match s with c :: _ => isspace c = false | [] => True end ->
  match rev s with c :: _ => isspace c = false | [] => True end ->
  strip s = s.
Proof.
  intros H1 H2. unfold strip, rstrip.
  rewrite (lstrip_head s H1), (lstrip_head (rev s) H2). apply rev_involutive.
Qed.

Lemma Forall_last_char (P : char -> Prop) (s : str) :
  Forall P s -> match rev s with c :: _ => P c | [] => True end.
Proof.
  intros H. destruct (rev s) as [|c r] eqn:E; [exact I|].
  rewrite Forall_forall in H. apply H. apply in_rev. rewrite E. left.
  reflexivity.
Qed.

Lemma parsed_email_strip (s : str) : parsed_email_shape s -> strip s = s.
Proof.
  intros (a & b & c & -> & Ha & Hb & Hc & Fa & Fb & Fc).
  apply strip_ends.
  - destruct a as [|x a]; [congruence|]. simpl.
    inversion Fa; subst. apply email_char_not_space. assumption.
  - rewrite !rev_app_distr.
    pose proof (Forall_last_char _ _ Fc) as L. cbv beta in L.
    unfold char in *.
    destruct (rev c) as [|x r] eqn:E.
    + apply (f_equal (@length _)) in E. rewrite length_rev in E.
      destruct c; [congruence | discriminate].
    + simpl. apply isword_not_space. exact L.
Qed.

Lemma Forall_not_in_at (P : char -> bool) (s : str) :
  (forall c, P c = true -> c <> 0x40) ->
  Forall (fun c => P c = true) s -> ~ In 0x40 s.
Proof.
  intros HP H Hin. rewrite Forall_forall in H. apply (HP _ (H _ Hin)).
  reflexivity.
Qed.

Lemma parsed_email_is_email (s : str) : parsed_email_shape s -> email_shape s.
Proof.
  intros (a & b & c & -> & Ha & Hb & Hc & Fa & Fb & Fc).
  exists a, b, c, []. rewrite app_nil_r. repeat split; auto.
  - apply (Forall_not_in_at email_char); [apply email_char_not_at | exact Fa].
  - apply (Forall_not_in_at email_char); [apply email_char_not_at | exact Fb].
  - apply (Forall_not_in_at isword); [apply isword_not_at | exact Fc].
Qed.

Lemma denotes_lits ic (s cs : str) g g' :
  denotes ic (lits s) cs g g' -> g' = g.
Proof.
  revert cs g g'. induction s as [|c s IH]; intros cs g g' H; simpl in H.
  - inversion H; subst. reflexivity.
  - inversion H as [| |? ? cs1 cs2 ? g1 ? D1 D2| | | | |]; subst.
    apply denotes_chr in D1 as (d & _ & _ & ->). eapply IH. eassumption.
Qed.

Lemma denotes_rep ic cl lo hi cs g g' :
  denotes ic (Rep cl lo hi) cs g g' -> g' = g.
Proof. intros H. inversion H; subst. reflexivity. Qed.

Lemma extract_email_shape (text : str) :
  let email := extract (get_or FIELD_PATTERNS (u "Email")
                               (mkPattern Eps false)) text in
  email = [] \/ parsed_email_shape email.
Proof.
  intros email. subst email. unfold extract.
  destruct (re_search _ text) as [[raw|]|] eqn:E; auto.
  destruct (truthy raw); auto. right.
  assert (Hs : parsed_email_shape raw).
  { unfold re_search in E.
    apply search_from_sound in E as (cs & g & D & Hg). subst g.
    change (body _) with
      (Cat (lits (u "Email:"))
           (Cat any_space
                (Opt (Grp (Cat (plus email_chars)
                          (Cat (chr 0x40)
                          (Cat (plus email_chars)
                          (Cat (chr 0x2E) (plus (One AWord)))))))))) in D.
    change (ignorecase _) with true in D.
    inversion D as [| |? ? cs1 cs2 ? g1 ? D1 D2| | | | |]; subst.
    apply (denotes_lits true (u "Email:")) in D1. subst g1.
    inversion D2 as [| |? ? cs3 cs4 ? g2 ? D3 D4| | | | |]; subst.
    apply denotes_rep in D3. subst g2.
    inversion D4 as [| | | |? ? ? ? D5|? ?| |]; subst.
    inversion D5 as [| | |? ? ? ? D6| | | |]; subst.
    inversion D6 as [| |? ? a r1 ? ? ? Da M2| | | | |]; subst.
    inversion M2 as [| |? ? at_ r2 ? ? ? Dat M3| | | | |]; subst.
    inversion M3 as [| |? ? b r3 ? ? ? Db M4| | | | |]; subst.
    inversion M4 as [| |? ? dot c ? ? ? Ddot Dc| | | | |]; subst.
    apply denotes_plus in Da as (Fa & Ha & _).
    apply denotes_plus in Db as (Fb & Hb & _).
    apply denotes_plus in Dc as (Fc & Hc & _).
    apply denotes_chr in Dat as (d1 & -> & H1 & _).
    apply denotes_chr in Ddot as (d2 & -> & H2 & _).
    cbn [class_matches] in H1, H2.
    apply literal_uncased in H1; [|reflexivity].
    apply literal_uncased in H2; [|reflexivity]. subst d1 d2.
    exists a, b, c. repeat split; auto.
    - eapply Forall_impl; [|exact Fa]. apply email_chars_class.
    - eapply Forall_impl; [|exact Fb]. apply email_chars_class. }
  rewrite (parsed_email_strip raw Hs). exact Hs.
Qed.

Lemma parsed_email_valid (text : str) :
  validate_email (get_or (parse_lead_text text) (u "Email") []) = true.
Proof.
  destruct (extract_email_shape text) as [H|H]; cbv zeta in H.
  - change (get_or (parse_lead_text text) (u "Email") [])
      with (extract (get_or FIELD_PATTERNS (u "Email") (mkPattern Eps false))
                    text).
    rewrite H. reflexivity.
  - apply validate_email_shape, parsed_email_is_email. exact H.
Qed.

(** Whatever the text, the parser's Email value is empty or has the form the
    pattern captures, a local part, '@', a domain, '.' and a word, and
    [validate_email] accepts it. *)
Theorem parsed_email_well_formed (text : str) :
  let email := get_or (parse_lead_text text) (u "Email") [] in
  (email = [] \/ parsed_email_shape email) /\ validate_email email = true.
Proof.
  intros email. split.
  - apply extract_email_shape.
  - apply parsed_email_valid.
Qed.

(** Intake turns a lead down for a missing name or a missing contact
    channel, and for nothing else: neither format check can fail on what
    the parser hands it. *)
Theorem intake_rejects_for_two_reasons (message_text : str) (r : Rejection) :
  intake_rejection message_text = Some r ->
  r = MissingRequiredField \/ r = NoContactChannel.
Proof.
  unfold intake_rejection, lead_rejection, phone_candidate_of.
  rewrite (parsed_candidate_valid
             (get_or (parse_lead_text (strip message_text)) (u "Телефон") [])
             (get_or (parse_lead_text (strip message_text)) (u "WhatsApp") []))
    by first [ apply (extract_phone_shape (lits (u "Телефон:")))
             | apply (extract_phone_shape (lits (u "WhatsApp:"))) ].
  rewrite parsed_email_valid, !andb_false_r.
  repeat match goal with
         | |- context [if ?b then _ else _] => destruct b
         end; intros H; inversion H; auto.
Qed.

Lemma intake_rejects_for_two_reasons_witness :
  intake_rejection (u "Телефон: +34600111222") = Some MissingRequiredField
  /\ (MissingRequiredField = MissingRequiredField
      \/ MissingRequiredField = NoContactChannel).
Proof.
  assert (H : intake_rejection (u "Телефон: +34600111222")
              = Some MissingRequiredField) by (vm_compute; reflexivity).
  split; [exact H|].
  exact (intake_rejects_for_two_reasons _ _ H).
Defined.

(** ** What every parsed value is like *)

Lemma denotes_avoids ic c r cs g g' :
  denotes ic r cs g g' -> re_avoids ic c r = true -> ~ In c cs.
Proof.
  induction 1 as [g | cl lo hi cs g Hall _ _
                 | r1 r2 cs1 cs2 g g1 g2 _ IH1 _ IH2
                 | r cs g g1 _ IH | r cs g g1 _ IH | r g | g | g];
    simpl; intros Ha; auto.
  - apply negb_true_iff in Ha. intros Hin.
    rewrite Forall_forall in Hall. rewrite (Hall c Hin) in Ha. discriminate.
  - apply andb_true_iff in Ha as [H1 H2]. intros Hin.
    apply in_app_or in Hin as [Hin|Hin]; [apply IH1 | apply IH2]; auto.
Qed.

Lemma denotes_group_avoids ic c r cs g g' :
  denotes ic r cs g g' -> group_avoids ic c r = true ->
  (forall x, g = Some x -> ~ In c x) -> forall x, g' = Some x -> ~ In c x.
Proof.
  induction 1 as [g | cl lo hi cs g Hall _ _
                 | r1 r2 cs1 cs2 g g1 g2 _ IH1 _ IH2
                 | r cs g g1 D IH | r cs g g1 _ IH | r g | g | g];
    simpl; intros Ha Hg; auto.
  - apply andb_true_iff in Ha as [H1 H2]. auto.
  - intros x E. inversion E; subst x.
    eapply denotes_avoids; eassumption.
Qed.

Lemma lstrip_clean (s : str) :
  match lstrip s with c :: _ => isspace c = false | [] => True end.
Proof.
  induction s as [|c s IH]; simpl; [exact I|].
  destruct (isspace c) eqn:E; [exact IH | exact E].
Qed.

Lemma forallb_rev {A} (p : A -> bool) (l : list A) :
  forallb p (rev l) = forallb p l.
Proof.
  induction l as [|x l IH]; [reflexivity|]. simpl.
  rewrite forallb_app, IH. simpl. rewrite andb_true_r. apply andb_comm.
Qed.

(** [strip] takes white space off both ends and nothing else. *)
Lemma strip_split (s : str) :
  exists pre post,
    s = pre ++ strip s ++ post
    /\ forallb isspace pre = true /\ forallb isspace post = true
    /\ match strip s with c :: _ => isspace c = false | [] => True end
    /\ match rev (strip s) with c :: _ => isspace c = false | [] => True end.
Proof.
  destruct (lstrip_split s) as (pre & E1 & Hpre).
  destruct (lstrip_split (rev (lstrip s))) as (post & E2 & Hpost).
  assert (E3 : lstrip s = strip s ++ rev post).
  { unfold strip, rstrip. rewrite <- rev_app_distr, <- E2.
    symmetry. apply rev_involutive. }
  exists pre, (rev post). repeat split.
  - rewrite <- E3. exact E1.
  - exact Hpre.
  - rewrite forallb_rev. exact Hpost.
  - pose proof (lstrip_clean s) as Hc. rewrite E3 in Hc.
    destruct (strip s) as [|c t] eqn:Es; [exact I | exact Hc].
  - unfold strip, rstrip. rewrite rev_involutive. apply lstrip_clean.
Qed.

Lemma strip_strip (s : str) : strip (strip s) = strip s.
Proof.
  destruct (strip_split s) as (_ & _ & _ & _ & _ & H1 & H2).
  apply strip_ends; assumption.
Qed.

Lemma in_strip (c : char) (s : str) : In c (strip s) -> In c s.
Proof.
  destruct (strip_split s) as (pre & post & E & _).
  intros H. rewrite E. apply in_or_app. right. apply in_or_app. left.
  exact H.
Qed.

Lemma field_groups_avoid_newline :
  forallb (fun fr => ignorecase (snd fr)
                     && group_avoids true 10 (body (snd fr)))
          FIELD_PATTERNS = true.
Proof. vm_compute. reflexivity. Qed.

(** Whatever the text, every value the parser returns is free of white
    space at both ends and holds no line feed: a field is read from one
    line. *)
Theorem parsed_values_are_clean (text field value : str) :
  In (field, value) (parse_lead_text text) ->
  strip value = value /\ ~ In 10 value.
Proof.
  unfold parse_lead_text. intros H.
  apply in_map_iff in H as ((f & regex) & E & Hin). simpl in E.
  inversion E; subst f value. clear E.
  pose proof field_groups_avoid_newline as Hp.
  rewrite forallb_forall in Hp. specialize (Hp _ Hin). simpl in Hp.
  apply andb_true_iff in Hp as [Hic Hg].
  unfold extract.
  destruct (re_search regex text) as [[raw|]|] eqn:Es;
    try (split; [reflexivity | intros []]).
  destruct (truthy raw); [|split; [reflexivity | intros []]].
  split; [apply strip_strip|].
  intros Hin10. apply in_strip in Hin10.
  unfold re_search in Es. rewrite Hic in Es.
  apply search_from_sound in Es as (cs & g & D & Hg').
  subst g. revert Hin10.
  eapply (denotes_group_avoids true 10 (body regex) cs None (Some raw));
    eauto; discriminate.
Qed.

Lemma parsed_values_are_clean_witness :
  let text := u "Имя клиента:  Ana Maria " ++ nl ++ u "Purpose: buy" in
  In (u "Имя клиента", u "Ana Maria") (parse_lead_text text)
  /\ strip (u "Ana Maria") = u "Ana Maria" /\ ~ In 10 (u "Ana Maria").
Proof.
  assert (H : In (u "Имя клиента", u "Ana Maria")
                 (parse_lead_text
                    (u "Имя клиента:  Ana Maria " ++ nl ++ u "Purpose: buy")))
    by (left; vm_compute; reflexivity).
  split; [exact H|].
  exact (parsed_values_are_clean _ _ _ H).
Defined.

(** ** Reading a field back *)

(** One literal character: it is taken or the match fails. *)
Lemma rmatch_chr {R : Type} (ic : bool) (c : char)
      (k : str -> str -> option str -> option R) (bef aft : str)
      (g : option str) :
  rmatch ic (chr c) k bef aft g
  = match aft with
    | d :: aft' =>
        if atom_matches ic (ALit c) d then k (d :: bef) aft' g else None
    | [] => None
    end.
Proof.
  unfold chr. destruct aft as [|d aft']; [reflexivity|].
  cbn [rmatch rep_greedy class_matches].
  destruct (atom_matches ic (ALit c) d); [|reflexivity].
  cbn [andb pred option_map].
  destruct aft' as [|e aft'']; cbn [rep_greedy].
  - destruct (k (d :: bef) [] g); reflexivity.
  - rewrite andb_false_r. destruct (k (d :: bef) (e :: aft'') g); reflexivity.
Qed.

(** A literal word: it is taken where the text begins with it. *)
Lemma rmatch_lits {R : Type} (ic : bool) (l : str) :
  forall (k : str -> str -> option str -> option R) (bef aft : str)
         (g : option str),
    rmatch ic (lits l) k bef aft g
    = if literals_at ic l aft
      then k (rev (firstn (length l) aft) ++ bef) (skipn (length l) aft) g
      else None.
Proof.
  induction l as [|c l IH]; intros k bef aft g.
  - reflexivity.
  - change (lits (c :: l)) with (Cat (chr c) (lits l)).
    cbn [rmatch]. rewrite rmatch_chr.
    destruct aft as [|d aft']; [reflexivity|].
    cbn [literals_at length firstn skipn].
    destruct (atom_matches ic (ALit c) d); [|reflexivity].
    rewrite IH. cbn [andb rev]. rewrite <- app_assoc. reflexivity.
Qed.

(** The search moves on over a position where the label does not start. *)
Lemma search_skips (label : str) (r : re) (pre : str) :
  forall bef text,
    (forall i, (i < length pre)%nat ->
               literals_at true label (skipn i (pre ++ text)) = false) ->
    search_from true (Cat (lits label) r) bef (pre ++ text)
    = search_from true (Cat (lits label) r) (rev pre ++ bef) text.
Proof.
  induction pre as [|c pre IH]; intros bef text H; [reflexivity|].
  cbn [app search_from rmatch]. rewrite rmatch_lits.
  assert (H0 : literals_at true label (c :: pre ++ text) = false)
    by (apply (H 0%nat); simpl; lia).
  rewrite H0, IH.
  - cbn [rev]. rewrite <- app_assoc. reflexivity.
  - intros i Hi. apply (H (S i)). simpl. lia.
Qed.

Lemma forallb_Forall {A} (p : A -> bool) (l : list A) :
  forallb p l = true -> Forall (fun x => p x = true) l.
Proof. rewrite forallb_forall, Forall_forall. auto. Qed.

Lemma literals_at_app (ic : bool) (label : str) :
  forall lab rest,
    literals_at ic label lab = true ->
    literals_at ic label (lab ++ rest) = true.
Proof.
  induction label as [|d label IH]; intros [|c lab] rest H;
    try reflexivity; try discriminate.
  cbn [literals_at app] in *. apply andb_true_iff in H as [H1 H2].
  rewrite H1, (IH _ _ H2). reflexivity.
Qed.

(** What [label \s* (.+)] finds in a text whose first occurrence of the
    label is followed by white space and a value that ends the line. *)
Lemma search_labelled_line (label pre lab ws value rest : str) :
  length lab = length label ->
  literals_at true label lab = true ->
  (forall i, (i < length pre)%nat ->
             literals_at true label
                         (skipn i (pre ++ lab ++ ws ++ value ++ rest))
             = false) ->
  forallb isspace ws = true ->
  match value with c :: _ => isspace c = false | [] => False end ->
  ~ In 10 value ->
  match rest with c :: _ => c = 10 | [] => True end ->
  re_search (mkPattern (seq [lits label; any_space; rest_of_line]) true)
            (pre ++ lab ++ ws ++ value ++ rest)
  = Some (Some value).
Proof.
  intros Hlen Hlab Hpre Hws Hhead Hnl Hrest.
  unfold re_search. cbn [ignorecase body seq].
  rewrite search_skips by exact Hpre.
  destruct (lab ++ ws ++ value ++ rest) as [|c0 t0] eqn:Et.
  { destruct lab; [|discriminate]. destruct ws; [|discriminate].
    destruct value; [contradiction | discriminate]. }
  assert (Hm : rmatch true (Cat (lits label) (Cat any_space rest_of_line))
                      accept (rev pre ++ []) (c0 :: t0) None
               = Some (Some value)).
  { rewrite <- Et. cbn [rmatch]. rewrite rmatch_lits.
    rewrite (literals_at_app true label lab _ Hlab).
    rewrite <- Hlen.
    rewrite firstn_app, Nat.sub_diag, firstn_all, skipn_app, Nat.sub_diag,
      skipn_all. cbn [firstn skipn app]. rewrite app_nil_r.
    unfold any_space, star, rest_of_line, plus. cbn [rmatch].
    apply rep_greedy_max.
    - apply forallb_Forall. exact Hws.
    - lia.
    - exact I.
    - destruct value as [|c v]; [contradiction|]. simpl. left. exact Hhead.
    - apply rep_greedy_max.
      + rewrite Forall_forall. intros c Hc. simpl. apply negb_true_iff.
        apply N.eqb_neq. intros ->. contradiction.
      + destruct value; [contradiction | simpl; lia].
      + exact I.
      + destruct rest as [|c r]; [exact I|]. left. subst c. reflexivity.
      + unfold accept. do 2 f_equal.
        rewrite length_app, Nat.add_sub, firstn_app, Nat.sub_diag,
          firstn_all. simpl. rewrite app_nil_r. apply rev_involutive. }
  cbn [search_from]. rewrite Hm. reflexivity.
Qed.

Lemma dict_get_map {V W : Type} (f : V -> W) (d : dict V) (k : str) :
  dict_get (map (fun kv => (fst kv, f (snd kv))) d) k
  = option_map f (dict_get d k).
Proof.
  induction d as [|[k' v] d IH]; [reflexivity|]. simpl.
  destruct (str_eqb k k'); [reflexivity | exact IH].
Qed.

Lemma field_patterns_distinct : NoDup (keys FIELD_PATTERNS).
Proof.
  vm_compute. repeat constructor; simpl; intuition discriminate.
Qed.

Lemma parse_lead_get (text field : str) (regex : pattern) :
  In (field, regex) FIELD_PATTERNS ->
  get_or (parse_lead_text text) field [] = extract regex text.
Proof.
  intros H. unfold get_or, parse_lead_text.
  pose proof (dict_get_map (fun regex => extract regex text)
                           FIELD_PATTERNS field) as E.
  cbv beta in E. rewrite E.
  rewrite (dict_get_NoDup _ _ _ field_patterns_distinct H). reflexivity.
Qed.

(** Reading a field back.  For a field whose pattern is its label, [\s*]
    and [(.+)]: in a text where the first place the label is matched at,
    in any case and as [IGNORECASE] matches its letters, is followed by
    white space and then by a value that starts with something else than
    white space and runs to the end of its line, the parser returns that
    value, without the white space at its end. *)
Theorem labelled_line_is_extracted
        (field label pre lab ws value rest : str) :
  In (field, mkPattern (seq [lits label; any_space; rest_of_line]) true)
     FIELD_PATTERNS ->
  length lab = length label ->
  literals_at true label lab = true ->
  (forall i, (i < length pre)%nat ->
             literals_at true label
                         (skipn i (pre ++ lab ++ ws ++ value ++ rest))
             = false) ->
  forallb isspace ws = true ->
  (exists c v, value = c :: v /\ isspace c = false) ->
  ~ In 10 value ->
  (rest = [] \/ exists r, rest = 10 :: r) ->
  get_or (parse_lead_text (pre ++ lab ++ ws ++ value ++ rest)) field []
  = strip value.
Proof.
  intros Hin Hlen Hlab Hpre Hws (c & v & -> & Hc) Hnl Hrest.
  rewrite (parse_lead_get _ _ _ Hin). unfold extract.
  rewrite (search_labelled_line label pre lab ws (c :: v) rest); auto.
  destruct Hrest as [-> | (r & ->)]; [exact I | reflexivity].
Qed.

(** The label written with a long s, which [IGNORECASE] takes for an s,
    before the label as the pattern spells it: the first one is read. *)
Lemma labelled_line_is_extracted_witness :
  let text := u "Имя клиента: Ana" ++ nl ++ u "PURPOſE:  Buy a flat "
              ++ nl ++ u "Purpose: rent" in
  get_or (parse_lead_text text) (u "Purpose") [] = u "Buy a flat".
Proof.
  cbv zeta.
  change (u "Имя клиента: Ana" ++ nl ++ u "PURPOſE:  Buy a flat "
          ++ nl ++ u "Purpose: rent")
    with ((u "Имя клиента: Ana" ++ nl) ++ u "PURPOſE:" ++ u "  "
          ++ u "Buy a flat " ++ (nl ++ u "Purpose: rent")).
  rewrite (labelled_line_is_extracted (u "Purpose") (u "Purpose:")).
  - vm_compute. reflexivity.
  - vm_compute. auto 10.
  - vm_compute. reflexivity.
  - vm_compute. reflexivity.
  - intros i Hi.
    do 17 (destruct i as [|i]; [vm_compute; reflexivity|]).
    vm_compute in Hi. lia.
  - vm_compute. reflexivity.
  - eexists. eexists. split; [vm_compute; reflexivity | vm_compute; reflexivity].
  - vm_compute. intuition discriminate.
  - right. eexists. vm_compute. reflexivity.
Defined.

(** ** Time zone, region and the UTM breakdown *)

(** The two inferences always name the same country: the time zone and
    the region come from the same prefix, or are both the sentinel. *)
Theorem tz_and_region_agree (phone : str) :
  In (guess_tz_by_phone phone, guess_region_by_phone phone)
     [ (u "GMT+1", u "Spain"); (u "GMT+3", u "Russia"); (u "GMT-5", u "USA");
       (u "Другой", u "Unknown") ].
Proof.
  unfold guess_tz_by_phone, guess_tz_in, guess_region_by_phone.
  destruct (startswith phone (u "+")); [|simpl; auto].
  cbn [negb]. cbv zeta.
  change (sorted_by_len_desc (keys COUNTRY_TZ_MAP))
    with [u "34"; u "7"; u "1"].
  cbn [first_prefix].
  destruct (startswith (skipn 1 phone) (u "34")); [simpl; auto|].
  destruct (startswith (skipn 1 phone) (u "7")); [simpl; auto|].
  destruct (startswith (skipn 1 phone) (u "1")); simpl; auto.
Qed.

Lemma split_first_app (sep : char) (a b : str) :
  contains sep a = false -> split_first sep (a ++ sep :: b) = [a; b].
Proof.
  induction a as [|c a IH]; simpl; intros H.
  - rewrite N.eqb_refl. reflexivity.
  - apply orb_false_iff in H as [Hc Ha]. rewrite N.eqb_sym, Hc.
    rewrite (IH Ha). reflexivity.
Qed.

Lemma split_on_join (sep : char) (parts : list str) :
  parts <> [] ->
  Forall (fun p => contains sep p = false) parts ->
  split_on sep (join [sep] parts) = parts.
Proof.
  induction parts as [|p parts IH]; [congruence|]. intros _ H.
  inversion H as [|? ? Hp Hparts]; subst.
  destruct parts as [|q parts].
  - simpl. apply split_on_none. exact Hp.
  - change (join [sep] (p :: q :: parts))
      with (p ++ sep :: join [sep] (q :: parts)).
    rewrite split_on_app by exact Hp. f_equal. apply IH; [discriminate|].
    exact Hparts.
Qed.

Lemma contains_join (sep c : char) (parts : list str) :
  (c =? sep) = false ->
  Forall (fun p => contains c p = false) parts ->
  contains c (join [sep] parts) = false.
Proof.
  intros Hs. induction parts as [|p parts IH]; intros H; [reflexivity|].
  inversion H as [|? ? Hp Hparts]; subst.
  destruct parts as [|q parts]; [exact Hp|].
  change (join [sep] (p :: q :: parts))
    with (p ++ sep :: join [sep] (q :: parts)).
  rewrite contains_app, Hp, contains_cons, Hs. simpl. apply IH. exact Hparts.
Qed.

Lemma strip_fixed (s : str) :
  strip s = s ->
  match s with c :: _ => isspace c = false | [] => True end
  /\ match rev s with c :: _ => isspace c = false | [] => True end.
Proof.
  intros E. destruct (strip_split s) as (_ & _ & _ & _ & _ & H1 & H2).
  rewrite E in H1, H2. auto.
Qed.

Lemma utm_chunk_pair (k v : str) :
  utm_key k -> utm_value v ->
  utm_chunk (k ++ 0x3D :: v) = [k ++ u " = " ++ v].
Proof.
  intros (Sk & _ & _ & Ek) (Sv & _ & _).
  unfold utm_chunk.
  assert (S : strip (k ++ 0x3D :: v) = k ++ 0x3D :: v).
  { apply strip_fixed in Sk as [Hk _]. apply strip_fixed in Sv as [_ Hv].
    apply strip_ends.
    - destruct k; [reflexivity | exact Hk].
    - rewrite rev_app_distr. simpl. rewrite <- app_assoc.
      destruct (rev v); [reflexivity | exact Hv]. }
  rewrite S. cbv zeta.
  assert (T : truthy (k ++ 0x3D :: v) = true) by (destruct k; reflexivity).
  rewrite T. cbn [negb].
  rewrite contains_app, contains_cons, N.eqb_refl, orb_true_r.
  rewrite split_first_app by exact Ek. rewrite Sk, Sv. reflexivity.
Qed.

Lemma join_ends (sep : char) (parts : list str) :
  parts <> [] ->
  Forall (fun p => p <> []
                   /\ match p with c :: _ => isspace c = false | [] => True end
                   /\ match rev p with c :: _ => isspace c = false
                      | [] => True end) parts ->
  strip (join [sep] parts) = join [sep] parts.
Proof.
  intros Hne H. apply strip_ends.
  - destruct parts as [|p parts]; [congruence|].
    inversion H as [|? ? (Hp & Hh & _) _]; subst.
    destruct parts as [|q parts]; [exact Hh|].
    change (join [sep] (p :: q :: parts))
      with (p ++ sep :: join [sep] (q :: parts)).
    destruct p; [congruence | exact Hh].
  - clear Hne. induction parts as [|p parts IH]; [exact I|].
    inversion H as [|? ? (Hp & _ & Hl) Hparts]; subst.
    destruct parts as [|q parts]; [exact Hl|].
    change (join [sep] (p :: q :: parts))
      with (p ++ sep :: join [sep] (q :: parts)).
    specialize (IH Hparts).
    assert (Hj : join [sep] (q :: parts) <> []).
    { inversion Hparts as [|? ? (Hq & _) _]; subst.
      destruct q; [congruence|]. destruct parts; discriminate. }
    remember (join [sep] (q :: parts)) as J eqn:EJ. clear EJ.
    rewrite rev_app_distr. cbn [rev]. rewrite <- !app_assoc.
    destruct (rev J) as [|c r] eqn:E.
    + exfalso. apply (f_equal (@length _)) in E. rewrite length_rev in E.
      destruct J; [congruence | discriminate].
    + exact IH.
Qed.

Lemma utm_chunks_of_pairs (pairs : list (str * str)) :
  Forall (fun kv => utm_key (fst kv) /\ utm_value (snd kv)) pairs ->
  flat_map utm_chunk (map (fun kv => fst kv ++ u "=" ++ snd kv) pairs)
  = map (fun kv => fst kv ++ u " = " ++ snd kv) pairs.
Proof.
  induction pairs as [|[k v] pairs IH]; intros H; [reflexivity|].
  inversion H as [|? ? (Hk & Hv) Hpairs]; subst.
  cbn [map flat_map fst snd] in *.
  change (u "=" ++ v) with (0x3D :: v).
  rewrite (utm_chunk_pair k v Hk Hv), (IH Hpairs). reflexivity.
Qed.

(** Reading a UTM string back.  For keys and values with no white space
    at their ends and none of the separators in them (a value may hold
    '='), the pairs [key=value] joined by '&' are listed one to a line as
    [key = value], in the order they are written. *)
Theorem utm_pairs_are_listed (pairs : list (str * str)) :
  pairs <> [] ->
  Forall (fun kv => utm_key (fst kv) /\ utm_value (snd kv)) pairs ->
  parse_utm_details
    (join (u "&") (map (fun kv => fst kv ++ u "=" ++ snd kv) pairs))
  = u "UTM-данные:" ++ nl
    ++ join nl (map (fun kv => fst kv ++ u " = " ++ snd kv) pairs).
Proof.
  intros Hne H.
  set (chunks := map (fun kv => fst kv ++ u "=" ++ snd kv) pairs).
  assert (Hc : chunks <> []) by (destruct pairs; [congruence | discriminate]).
  assert (Hpipe : Forall (fun p => contains 0x7C p = false) chunks).
  { apply Forall_map. eapply Forall_impl; [|exact H].
    intros [k v] ((_ & Hk & _) & (_ & Hv & _)). cbn [fst snd] in *.
    change (u "=" ++ v) with (0x3D :: v).
    rewrite contains_app, contains_cons, Hk, Hv. reflexivity. }
  assert (Hamp : Forall (fun p => contains 0x26 p = false) chunks).
  { apply Forall_map. eapply Forall_impl; [|exact H].
    intros [k v] ((_ & _ & Hk & _) & (_ & _ & Hv)). cbn [fst snd] in *.
    change (u "=" ++ v) with (0x3D :: v).
    rewrite contains_app, contains_cons, Hk, Hv. reflexivity. }
  assert (Hends : Forall (fun p => p <> []
                   /\ match p with c :: _ => isspace c = false | [] => True end
                   /\ match rev p with c :: _ => isspace c = false
                      | [] => True end) chunks).
  { apply Forall_map. eapply Forall_impl; [|exact H].
    intros [k v] ((Sk & _) & (Sv & _)). cbn [fst snd] in *.
    change (u "=" ++ v) with (0x3D :: v).
    apply strip_fixed in Sk as [Hk _]. apply strip_fixed in Sv as [_ Hv].
    repeat split.
    - destruct k; discriminate.
    - destruct k; [reflexivity | exact Hk].
    - rewrite rev_app_distr. simpl. rewrite <- app_assoc.
      destruct (rev v); [reflexivity | exact Hv]. }
  change (u "&") with [0x26].
  unfold parse_utm_details.
  assert (T : truthy (join [0x26] chunks) = true).
  { destruct chunks as [|p [|q ps]]; [congruence | |].
    - inversion Hends as [|? ? (Hp & _) _]; subst. destruct p; [congruence|].
      reflexivity.
    - inversion Hends as [|? ? (Hp & _) _]; subst. destruct p; [congruence|].
      reflexivity. }
  rewrite T. cbn [negb]. cbv zeta.
  rewrite split_on_none by (apply contains_join; [reflexivity | exact Hpipe]).
  cbn [flat_map]. rewrite app_nil_r.
  pose proof (join_ends 0x26 chunks Hc Hends) as Ej.
  pose proof (split_on_join 0x26 chunks Hc Hamp) as Es.
  pose proof (utm_chunks_of_pairs pairs H) as L.
  subst chunks. unfold char, str in *. rewrite Ej, Es, L.
  destruct pairs as [|kv pairs]; [congruence|]. reflexivity.
Qed.

Lemma utm_pairs_are_listed_witness :
  parse_utm_details (u "utm_source=telegram&utm_medium=bot")
  = u "UTM-данные:" ++ nl ++ u "utm_source = telegram" ++ nl
    ++ u "utm_medium = bot".
Proof.
  apply (utm_pairs_are_listed
           [ (u "utm_source", u "telegram"); (u "utm_medium", u "bot") ]).
  - discriminate.
  - repeat constructor; vm_compute; reflexivity.
Defined.

(** ** Tables and rows, by evaluation *)

Lemma lead_row_spelled (text region tz : str) :
  lead_row (parse_lead_text text) region tz
  = firstn 10 (map snd (parse_lead_text text)) ++ [region; []; []; tz]
    ++ repeat [] 18.
Proof. reflexivity. Qed.

Lemma strs_eqb_eq (a b : list str) : strs_eqb a b = true <-> a = b.
Proof.
  revert b. induction a as [|x a IH]; intros [|y b]; simpl;
    try (split; [discriminate | congruence]); [tauto|].
  rewrite andb_true_iff, str_eqb_eq, IH.
  split; [intros [-> ->]; reflexivity | intros H; inversion H; auto].
Qed.

Lemma drop_blanks_split (row : list str) :
  exists pre,
    row = pre ++ drop_blanks row
    /\ forallb (fun c => negb (truthy c)) pre = true.
Proof.
  induction row as [|c row (pre & E & H)]; simpl.
  - exists []. auto.
  - destruct (truthy c) eqn:Hc.
    + exists []. auto.
    + exists (c :: pre). simpl. rewrite Hc, H. split; [congruence | reflexivity].
Qed.

(** A row is what gspread returns of it and then empty cells. *)
Lemma trim_row_split (row : list str) :
  exists blanks,
    row = trim_row row ++ blanks
    /\ forallb (fun c => negb (truthy c)) blanks = true.
Proof.
  destruct (drop_blanks_split (rev row)) as (pre & E & H).
  exists (rev pre). split.
  - unfold trim_row. rewrite <- rev_app_distr, <- E. symmetry.
    apply rev_involutive.
  - rewrite forallb_rev. exact H.
Qed.

Lemma firstn_trim (n : nat) (row : list str) :
  length (firstn n (trim_row row)) = n ->
  firstn n row = firstn n (trim_row row).
Proof.
  intros H. destruct (trim_row_split row) as (blanks & E & _).
  rewrite E at 1. rewrite firstn_app.
  rewrite length_firstn in H.
  replace (n - length (trim_row row))%nat with 0%nat by lia.
  simpl. apply app_nil_r.
Qed.

Lemma headers_trimmed : trim_row REQUIRED_HEADERS = REQUIRED_HEADERS.
Proof. vm_compute. reflexivity. Qed.

Lemma headers_eqb : strs_eqb REQUIRED_HEADERS REQUIRED_HEADERS = true.
Proof. apply strs_eqb_eq. reflexivity. Qed.

Lemma stored_row_columns (text : str) (i : nat) :
  (i < 10)%nat ->
  nth i (stored_row (parse_lead_text text)) []
  = get_or (parse_lead_text text) (nth i REQUIRED_HEADERS []) [].
Proof.
  intros H. do 10 (destruct i as [|i]; [reflexivity|]). lia.
Qed.

Lemma editing_columns_headers :
  forallb (fun kv =>
             (1 <=? snd kv)%Z && (snd kv <=? 32)%Z
             && str_eqb (get_or CODE_TO_FIELD (fst kv) [])
                        (nth (idx (snd kv)) REQUIRED_HEADERS [])
             && has_key CODE_TO_FIELD (fst kv))
          FIELD_TO_COL = true.
Proof. vm_compute. reflexivity. Qed.

Lemma stored_row_region_tz (text : str) :
  let lead := parse_lead_text text in
  nth 10 (stored_row lead) [] = region_of lead
  /\ nth 10 REQUIRED_HEADERS [] = u "Region"
  /\ nth 13 (stored_row lead) [] = tz_of lead
  /\ nth 13 REQUIRED_HEADERS [] = get_or CODE_TO_FIELD (u "tz") [].
Proof. repeat split. Qed.

(** From here on the literals are compared as they are written. *)
Opaque u.

(** ** A UTM string with nothing in it *)

Lemma split_on_covers (sep c : char) (s : str) :
  In c s -> c = sep \/ exists p, In p (split_on sep s) /\ In c p.
Proof.
  induction s as [|d s IH]; [intros []|].
  intros [<- | H]; simpl.
  - destruct (d =? sep) eqn:E; [left; apply N.eqb_eq; exact E|].
    right. destruct (split_on sep s) as [|h t]; eexists; split;
      try (left; reflexivity); left; reflexivity.
  - destruct (IH H) as [-> | (p & Hp & Hc)]; [left; reflexivity|].
    right. destruct (d =? sep).
    + exists p. split; [right; exact Hp | exact Hc].
    + destruct (split_on sep s) as [|h t]; [destruct Hp|].
      destruct Hp as [<- | Hp].
      * exists (d :: h). split; [left; reflexivity | right; exact Hc].
      * exists p. split; [right; exact Hp | exact Hc].
Qed.

Lemma split_on_parts (sep c : char) (s p : str) :
  In p (split_on sep s) -> In c p -> In c s /\ c <> sep.
Proof.
  revert p. induction s as [|d s IH]; intros p Hp Hc.
  - simpl in Hp. destruct Hp as [<- | []]. destruct Hc.
  - simpl in Hp. destruct (d =? sep) eqn:E.
    + destruct Hp as [<- | Hp]; [destruct Hc|].
      destruct (IH p Hp Hc). split; [right|]; assumption.
    + apply N.eqb_neq in E.
      destruct (split_on sep s) as [|h t] eqn:Es.
      * destruct Hp as [<- | []]. destruct Hc as [<- | []].
        split; [left; reflexivity | exact E].
      * destruct Hp as [<- | Hp].
        -- destruct Hc as [<- | Hc]; [split; [left; reflexivity | exact E]|].
           destruct (IH h (or_introl eq_refl) Hc). split; [right|]; assumption.
        -- destruct (IH p (or_intror Hp) Hc). split; [right|]; assumption.
Qed.

Lemma strip_nil (s : str) : strip s = [] <-> forallb isspace s = true.
Proof.
  split.
  - intros E. destruct (strip_split s) as (pre & post & Es & Hpre & Hpost & _).
    rewrite E in Es. rewrite Es. simpl. rewrite forallb_app, Hpre, Hpost.
    reflexivity.
  - intros H. unfold strip.
    assert (L : lstrip s = []).
    { induction s as [|c s IH]; [reflexivity|]. simpl in *.
      apply andb_true_iff in H as [Hc Hs]. rewrite Hc. auto. }
    rewrite L. reflexivity.
Qed.

Lemma utm_chunk_nil (chunk : str) :
  utm_chunk chunk = [] <-> forallb isspace chunk = true.
Proof.
  rewrite <- strip_nil. unfold utm_chunk. cbv zeta.
  destruct (strip chunk) as [|c t] eqn:E; [simpl; tauto|].
  simpl truthy. cbn [negb].
  split; [|discriminate].
  destruct (contains 0x3D (c :: t)); [|discriminate].
  destruct (split_first 0x3D (c :: t)) as [|k [|v [|x l]]]; discriminate.
Qed.

Lemma flat_map_nil {A B} (f : A -> list B) (l : list A) :
  flat_map f l = [] <-> forall x, In x l -> f x = [].
Proof.
  induction l as [|a l IH]; simpl; [tauto|].
  split.
  - intros H. apply app_eq_nil in H as [Ha Hl]. intros x [<- | Hx]; auto.
    apply IH; auto.
  - intros H. rewrite (H a (or_introl eq_refl)). apply IH. auto.
Qed.

Lemma utm_lines_nil (utm : str) :
  flat_map (fun part => flat_map utm_chunk (split_on 0x26 (strip part)))
           (split_on 0x7C utm) = []
  <-> forallb utm_blank utm = true.
Proof.
  rewrite flat_map_nil, forallb_forall. split.
  - intros H c Hc. unfold utm_blank.
    destruct (split_on_covers 0x7C c utm Hc) as [-> | (p & Hp & Hcp)];
      [reflexivity|].
    specialize (H p Hp). rewrite flat_map_nil in H.
    destruct (strip_split p) as (pre & post & Es & Hpre & Hpost & _).
    rewrite Es in Hcp. rewrite forallb_forall in Hpre, Hpost.
    apply in_app_or in Hcp as [Hcp | Hcp];
      [rewrite (Hpre c Hcp); reflexivity|].
    apply in_app_or in Hcp as [Hcp | Hcp];
      [|rewrite (Hpost c Hcp); reflexivity].
    destruct (split_on_covers 0x26 c _ Hcp) as [-> | (q & Hq & Hcq)];
      [reflexivity|].
    specialize (H q Hq). apply utm_chunk_nil in H.
    rewrite forallb_forall in H. rewrite (H c Hcq). reflexivity.
  - intros H p Hp. apply flat_map_nil. intros q Hq.
    apply utm_chunk_nil, forallb_forall. intros c Hc.
    destruct (split_on_parts 0x26 c _ q Hq Hc) as [Hcs N26].
    apply in_strip in Hcs.
    destruct (split_on_parts 0x7C c _ p Hp Hcs) as [Hcu N7c].
    specialize (H c Hcu). unfold utm_blank in H.
    apply N.eqb_neq in N26, N7c. rewrite N26, N7c, !orb_false_r in H.
    exact H.
Qed.

Lemma utm_listing_differs (lines : str) (answer : str) :
  firstn 12 answer = u "UTM-данные: " ->
  u "UTM-данные:" ++ nl ++ lines <> answer.
Proof.
  intros Ha H. apply (f_equal (firstn 12)) in H. rewrite Ha in H.
  vm_compute in H. discriminate H.
Qed.

(** The two answers for a UTM string with nothing in it: "не указаны" for
    the empty string, and "пусто" exactly for a non-empty string made of
    white space and separators only. *)
Theorem utm_without_content (utm : str) :
  (parse_utm_details utm = u "UTM-данные: (не указаны)" <-> utm = [])
  /\ (parse_utm_details utm = u "UTM-данные: (пусто)"
      <-> utm <> [] /\ forallb utm_blank utm = true).
Proof.
  assert (D : u "UTM-данные: (не указаны)" <> u "UTM-данные: (пусто)")
    by (vm_compute; discriminate).
  unfold parse_utm_details. destruct utm as [|c0 t].
  { cbn [truthy negb]. split; split.
    - intros _. reflexivity.
    - intros _. reflexivity.
    - intros H. destruct (D H).
    - intros [H _]. destruct (H eq_refl). }
  set (utm := c0 :: t). cbn [truthy negb]. cbv zeta.
  rewrite <- (utm_lines_nil utm).
  destruct (flat_map _ (split_on 0x7C utm)) as [|l ls].
  - split; split.
    + intros H. destruct (D (eq_sym H)).
    + discriminate.
    + intros _. split; [discriminate | reflexivity].
    + intros _. reflexivity.
  - split; split.
    + intros H. apply utm_listing_differs in H; [destruct H|].
      vm_compute. reflexivity.
    + discriminate.
    + intros H. apply utm_listing_differs in H; [destruct H|].
      vm_compute. reflexivity.
    + intros [_ H]. discriminate H.
Qed.

(** ** Intake that stores, intake that fails *)

Lemma region_auto_is_region_of (lead : dict str) :
  (if truthy (str_or (get_or lead (u "Телефон") [])
                     (get_or lead (u "WhatsApp") []))
      && negb (truthy (get_or lead (u "Region") []))
   then guess_region_by_phone
          (str_or (get_or lead (u "Телефон") [])
                  (get_or lead (u "WhatsApp") []))
   else get_or lead (u "Region") [])
  = region_of lead.
Proof.
  unfold region_of, phone_candidate_of. cbv zeta.
  destruct (get_or lead (u "Region") []) as [|c r]; cbn [truthy negb].
  - rewrite andb_true_r.
    destruct (truthy (str_or _ _)); reflexivity.
  - rewrite andb_false_r. reflexivity.
Qed.

Lemma stored_row_is_lead_row (text : str) :
  let lead := parse_lead_text text in
  lead_row lead
    (if truthy (str_or (get_or lead (u "Телефон") [])
                       (get_or lead (u "WhatsApp") []))
        && negb (truthy (get_or lead (u "Region") []))
     then guess_region_by_phone
            (str_or (get_or lead (u "Телефон") [])
                    (get_or lead (u "WhatsApp") []))
     else get_or lead (u "Region") [])
    (if truthy (str_or (get_or lead (u "Телефон") [])
                       (get_or lead (u "WhatsApp") []))
     then guess_tz_by_phone
            (str_or (get_or lead (u "Телефон") [])
                    (get_or lead (u "WhatsApp") []))
     else [])
  = stored_row lead.
Proof.
  intros lead. unfold lead. rewrite lead_row_spelled.
  fold lead. rewrite region_auto_is_region_of. reflexivity.
Qed.

Lemma stored_row_length (text : str) :
  length (stored_row (parse_lead_text text)) = 32%nat.
Proof.
  unfold stored_row, parse_lead_text.
  rewrite !length_app, length_firstn, !length_map. reflexivity.
Qed.

Lemma last_row_values (sh : Sheet) (row : list str) :
  sheet_row_values (sh ++ [row]) (Z.of_nat (length (sh ++ [row])))
  = Some row.
Proof.
  unfold sheet_row_values, bad_index, idx.
  rewrite length_app. simpl length.
  assert (E : (Z.of_nat (length sh + 1) <? 1)%Z = false)
    by (apply Z.ltb_ge; lia).
  rewrite E. f_equal.
  replace (Z.to_nat (Z.of_nat (length sh + 1) - 1)) with (length sh) by lia.
  rewrite app_nth2, Nat.sub_diag by lia. reflexivity.
Qed.

(** [process_lead] on a lead that passes the checks, whatever the fault
    plan: the checks are gone and the storing part is left. *)
Lemma process_lead_passes (auth : list Z) (user_id : Z) (message_text : str)
      (w : World) :
  In user_id auth -> intake_rejection message_text = None ->
  let lead := parse_lead_text (strip message_text) in
  process_lead auth user_id message_text w
  = (saved <- try_except
               (append_row (stored_row lead) ;; ret true)
               (reply_text
                  (u "Ой, что-то пошло не так при записи в Google Sheets. Попробуйте позже.")
                  None ;;
                ret false) ;;
     if negb saved then ret (Next BULK_DATA)
     else
       all_values <- get_all_values ;;
       reply_text (summary_text lead) None ;;
       show_main_menu (AnUpdate false) (Z.of_nat (length all_values)) ;;
       ret (Next EDITING)) w.
Proof.
  intros Hauth Hr lead. unfold process_lead.
  rewrite check_authorized_granted by assumption.
  cbv beta zeta. change (negb true) with false. cbv iota.
  unfold intake_rejection, lead_rejection, phone_candidate_of in Hr.
  fold lead in Hr. fold lead.
  destruct (negb (truthy (get_or lead (u "Имя клиента") [])));
    [discriminate Hr|].
  destruct (negb (truthy (str_or (get_or lead (u "Телефон") [])
                                 (get_or lead (u "WhatsApp") []))
                  || truthy (get_or lead (u "Мессенджер") [])));
    [discriminate Hr|].
  destruct (truthy (str_or (get_or lead (u "Телефон") [])
                           (get_or lead (u "WhatsApp") []))
            && negb (validate_phone
                       (str_or (get_or lead (u "Телефон") [])
                               (get_or lead (u "WhatsApp") []))));
    [discriminate Hr|].
  destruct (truthy (get_or lead (u "Email") [])
            && negb (validate_email (get_or lead (u "Email") [])));
    [discriminate Hr|].
  pose proof (stored_row_is_lead_row (strip message_text)) as E.
  cbv zeta in E. fold lead in E. rewrite E.
  unfold summary_text, tz_of, phone_candidate_of. cbv zeta.
  rewrite <- (region_auto_is_region_of lead).
  reflexivity.
Qed.

Lemma length_app_one (sh : Sheet) (row : list str) :
  Z.of_nat (length (sh ++ [row])) = (Z.of_nat (length sh) + 1)%Z.
Proof. rewrite length_app. simpl. lia. Qed.

(** The rows that are dropped hold no data. *)
Lemma drop_empty_rows_split (sh : Sheet) :
  exists blank,
    sh = blank ++ drop_empty_rows sh
    /\ Forall (fun row => has_data row = false) blank.
Proof.
  induction sh as [|row sh (blank & E & F)]; simpl.
  - exists []. split; [reflexivity | constructor].
  - destruct (has_data row) eqn:Ed.
    + exists []. split; [reflexivity | constructor].
    + exists (row :: blank). split.
      * simpl. f_equal. exact E.
      * constructor; assumption.
Qed.

Lemma used_rows_split (sh : Sheet) :
  exists blank,
    sh = used_rows sh ++ blank
    /\ Forall (fun row => has_data row = false) blank.
Proof.
  destruct (drop_empty_rows_split (rev sh)) as (blank & E & F).
  exists (rev blank). split.
  - unfold used_rows. rewrite <- rev_app_distr, <- E, rev_involutive.
    reflexivity.
  - apply Forall_rev. exact F.
Qed.

(** Below a row that holds data nothing is dropped. *)
Lemma used_rows_app (sh : Sheet) (row : list str) :
  has_data row = true -> used_rows (sh ++ [row]) = sh ++ [row].
Proof.
  intros H. unfold used_rows. rewrite rev_app_distr. simpl.
  rewrite H. simpl. rewrite rev_involutive. reflexivity.
Qed.

Lemma no_data_nth (row : list str) (i : nat) :
  has_data row = false -> nth i row [] = [].
Proof.
  unfold has_data. revert i.
  induction row as [|c row IH]; intros [|i] H; try reflexivity;
    simpl in H; apply orb_false_iff in H as [H1 H2].
  - destruct c; [reflexivity | discriminate].
  - simpl. apply IH. exact H2.
Qed.

Lemma blank_rows_nth (blank : Sheet) (i j : nat) :
  Forall (fun row => has_data row = false) blank ->
  nth j (nth i blank []) [] = [].
Proof.
  intros F. destruct (Nat.lt_ge_cases i (length blank)) as [Hi|Hi].
  - rewrite Forall_forall in F. apply no_data_nth, F, nth_In, Hi.
  - rewrite (nth_overflow blank [] Hi). destruct j; reflexivity.
Qed.

(** The rows that [used_rows] leaves out read as empty, so every cell reads
    as it did. *)
Lemma cell_text_used_rows (sh : Sheet) (r c : Z) :
  cell_text (used_rows sh) r c = cell_text sh r c.
Proof.
  destruct (used_rows_split sh) as (blank & E & F).
  unfold cell_text, sheet_cell_value.
  destruct (bad_index r || bad_index c); [reflexivity|].
  assert (H : nth (idx c) (nth (idx r) (used_rows sh) []) []
              = nth (idx c) (nth (idx r) sh []) []).
  { rewrite E at 2.
    destruct (Nat.lt_ge_cases (idx r) (length (used_rows sh))) as [Hi|Hi].
    - rewrite app_nth1 by exact Hi. reflexivity.
    - rewrite app_nth2 by exact Hi.
      rewrite (nth_overflow (used_rows sh) [] Hi).
      rewrite (blank_rows_nth blank _ _ F). destruct (idx c); reflexivity. }
  rewrite H. reflexivity.
Qed.

(** A lead that passes the checks has a name, so its row holds data. *)
Lemma accepted_row_has_data (message_text : str) :
  intake_rejection message_text = None ->
  has_data (stored_row (parse_lead_text (strip message_text))) = true.
Proof.
  intros Hr. unfold intake_rejection, lead_rejection in Hr.
  pose proof (stored_row_is_lead_row (strip message_text)) as E.
  cbv zeta in E. rewrite <- E.
  destruct (truthy (get_or (parse_lead_text (strip message_text))
                           (u "Имя клиента") [])) eqn:En;
    [|discriminate Hr].
  unfold lead_row, has_data. cbn [existsb]. rewrite En. reflexivity.
Qed.

(** Outside the appended row every cell reads as before. *)
Lemma cell_text_append_other (sh : Sheet) (row : list str) (r c : Z) :
  r <> (Z.of_nat (length (used_rows sh)) + 1)%Z ->
  cell_text (sheet_append_row sh row) r c = cell_text sh r c.
Proof.
  intros Hr. rewrite <- (cell_text_used_rows sh r c).
  unfold sheet_append_row, cell_text, sheet_cell_value.
  destruct (bad_index r) eqn:Eb; [reflexivity|].
  destruct (bad_index c); [reflexivity|]. cbn [orb].
  unfold bad_index in Eb. apply Z.ltb_ge in Eb.
  assert (H : nth (idx r) (used_rows sh ++ [row]) []
              = nth (idx r) (used_rows sh) []).
  { destruct (Nat.lt_ge_cases (idx r) (length (used_rows sh))) as [Hi|Hi].
    - apply app_nth1. exact Hi.
    - rewrite app_nth2 by exact Hi.
      rewrite (nth_overflow (used_rows sh) [] Hi).
      unfold idx in *.
      destruct (Z.to_nat (r - 1) - length (used_rows sh))%nat as [|k] eqn:Ek.
      + exfalso. apply Hr. lia.
      + destruct k; reflexivity. }
  rewrite H. reflexivity.
Qed.

(** Intake of a lead that passes the checks, with every call to the sheet
    going through. *)
Lemma intake_stores (auth : list Z) (user_id : Z) (message_text : str)
      (sh : Sheet) (ob : list Sent) (ud : UserData) :
  In user_id auth ->
  intake_rejection message_text = None ->
  let lead := parse_lead_text (strip message_text) in
  let n := (Z.of_nat (length (used_rows sh)) + 1)%Z in
  dispatch auth user_id (TextMessage message_text)
           (Some BULK_DATA, mkWorld sh [] ob ud)
  = (Some EDITING,
     mkWorld (used_rows sh ++ [stored_row lead]) []
             (ReplyText MENU_TEXT (Some (keyboard (stored_row lead) n))
              :: ReplyText (summary_text lead) None :: ob)
             ud).
Proof.
  intros Hauth Hr lead n.
  unfold dispatch. cbn [route].
  rewrite (process_lead_passes auth user_id message_text _ Hauth Hr).
  fold lead. run. unfold sheet_get_all_values.
  pose proof (accepted_row_has_data message_text Hr) as Hd. fold lead in Hd.
  unfold sheet_append_row.
  rewrite (used_rows_app _ _ Hd), last_row_values. run.
  rewrite length_app_one. fold n. reflexivity.
Qed.

(** A lead that passes the checks, with every call to the sheet going
    through: one row is stored, the one of [stored_row], 32 cells long, in
    the row below the last one that holds data; every cell outside that
    row reads as before; the summary and then the menu of the new row are
    sent; the conversation goes on in [EDITING]. *)
Theorem accepted_lead_is_stored
        (auth : list Z) (user_id : Z) (message_text : str) (w : World) :
  In user_id auth ->
  intake_rejection message_text = None ->
  faults w = [] ->
  let lead := parse_lead_text (strip message_text) in
  let s' := dispatch auth user_id (TextMessage message_text)
                     (Some BULK_DATA, w) in
  let n := (Z.of_nat (length (used_rows (sheet w))) + 1)%Z in
  fst s' = Some EDITING
  /\ sheet (snd s') = used_rows (sheet w) ++ [stored_row lead]
  /\ length (stored_row lead) = 32%nat
  /\ (forall r c, r <> n ->
                  cell_text (sheet (snd s')) r c = cell_text (sheet w) r c)
  /\ outbox (snd s')
     = ReplyText MENU_TEXT (Some (keyboard (stored_row lead) n))
       :: ReplyText (summary_text lead) None :: outbox w
  /\ user_data (snd s') = user_data w.
Proof.
  intros Hauth Hr Hf lead s' n. subst s'.
  destruct w as [sh fs ob ud]. cbn [faults] in Hf. subst fs.
  rewrite (intake_stores auth user_id message_text sh ob ud Hauth Hr).
  cbn [fst snd sheet outbox user_data] in *. fold lead. fold n.
  split; [reflexivity|]. split; [reflexivity|].
  split; [apply stored_row_length|].
  split; [|split; reflexivity].
  intros r c Hn. apply (cell_text_append_other sh). exact Hn.
Qed.

Lemma accepted_lead_is_stored_witness :
  let text := u "Имя клиента: Ana" ++ nl ++ u "Телефон: +34600111222" in
  let w := mkWorld [[u "Имя клиента"]; []; [[]; []]] [] []
                   (mkUserData None None) in
  let s' := dispatch [7%Z] 7%Z (TextMessage text) (Some BULK_DATA, w) in
  fst s' = Some EDITING
  /\ sheet (snd s')
     = [ [u "Имя клиента"];
         [u "Ana"; u "+34600111222"; []; []; []; []; []; []; []; [];
          u "Spain"; []; []; u "GMT+1"] ++ repeat [] 18 ].
Proof.
  assert (Hauth : In 7%Z [7%Z]) by (left; reflexivity).
  assert (Hr : intake_rejection
                 (u "Имя клиента: Ana" ++ nl ++ u "Телефон: +34600111222")
               = None) by (vm_compute; reflexivity).
  destruct (accepted_lead_is_stored
              [7%Z] 7%Z
              (u "Имя клиента: Ana" ++ nl ++ u "Телефон: +34600111222")
              (mkWorld [[u "Имя клиента"]; []; [[]; []]] [] []
                       (mkUserData None None))
              Hauth Hr eq_refl) as (H1 & H2 & _).
  split; [exact H1|].
  etransitivity; [exact H2 | vm_compute; reflexivity].
Defined.

(** What a failure of the sheet during intake leaves behind, for a lead
    that passes the checks.  When the append raises, nothing is stored and
    the conversation stays in [BULK_DATA].  When the append goes through
    and the row count raises, the row is stored below the last row that
    holds data, the error handler answers and the conversation stays in
    [BULK_DATA] all the same.  When only the read of the menu raises, the
    row is stored and the conversation is in [EDITING]. *)
Theorem intake_failures
        (auth : list Z) (user_id : Z) (message_text : str) (w : World)
        (fs : list bool) :
  In user_id auth ->
  intake_rejection message_text = None ->
  let lead := parse_lead_text (strip message_text) in
  let s' := dispatch auth user_id (TextMessage message_text)
                     (Some BULK_DATA, w) in
  (faults w = true :: fs ->
   fst s' = Some BULK_DATA /\ sheet (snd s') = sheet w
   /\ outbox (snd s') = ReplyText APPEND_FAILED None :: outbox w)
  /\ (faults w = false :: true :: fs ->
      fst s' = Some BULK_DATA
      /\ sheet (snd s') = used_rows (sheet w) ++ [stored_row lead]
      /\ outbox (snd s') = ReplyText HANDLER_FAILED None :: outbox w)
  /\ (faults w = false :: false :: true :: fs ->
      fst s' = Some EDITING
      /\ sheet (snd s') = used_rows (sheet w) ++ [stored_row lead]
      /\ outbox (snd s')
         = ReplyText MENU_FAILED None
           :: ReplyText (summary_text lead) None :: outbox w).
Proof.
  intros Hauth Hr lead s'. subst s'.
  destruct w as [sh fs0 ob ud]. cbn [faults sheet outbox].
  unfold dispatch. cbn [route].
  rewrite (process_lead_passes auth user_id message_text _ Hauth Hr).
  fold lead.
  split; [|split]; intros ->; run; repeat split.
Qed.

Lemma intake_failures_witness :
  let text := u "Имя клиента: Ana" ++ nl ++ u "Телефон: +34600111222" in
  let w := mkWorld [[u "Имя клиента"]; [[]]] [false; true] []
                   (mkUserData None None) in
  let s' := dispatch [7%Z] 7%Z (TextMessage text) (Some BULK_DATA, w) in
  fst s' = Some BULK_DATA
  /\ length (sheet (snd s')) = 2%nat
  /\ outbox (snd s') = [ReplyText HANDLER_FAILED None].
Proof.
  assert (Hauth : In 7%Z [7%Z]) by (left; reflexivity).
  assert (Hr : intake_rejection
                 (u "Имя клиента: Ana" ++ nl ++ u "Телефон: +34600111222")
               = None) by (vm_compute; reflexivity).
  destruct (intake_failures
              [7%Z] 7%Z
              (u "Имя клиента: Ana" ++ nl ++ u "Телефон: +34600111222")
              (mkWorld [[u "Имя клиента"]; [[]]] [false; true] []
                       (mkUserData None None))
              [] Hauth Hr) as (_ & H & _).
  destruct (H eq_refl) as (H1 & H2 & H3).
  split; [exact H1|]. split; [|exact H3].
  rewrite H2. reflexivity.
Defined.

(** ** What a button press does to the sheet *)

Lemma has_key_get {V : Type} (d : dict V) (k : str) (default : V) :
  has_key d k = true -> dict_get d k = Some (get_or d k default).
Proof.
  unfold has_key, get_or. destruct (dict_get d k); [reflexivity | discriminate].
Qed.

Lemma sheet_update_cell_set (sh sh' : Sheet) (row col : Z) (value : str) :
  sheet_update_cell sh row col value = Some sh' ->
  sh' = set_cell sh row col value /\ (1 <= row)%Z /\ (1 <= col)%Z.
Proof.
  unfold sheet_update_cell, bad_index.
  destruct (row <? 1)%Z eqn:Er; [discriminate|].
  destruct (col <? 1)%Z eqn:Ec; [discriminate|].
  cbn [orb]. intros H. inversion H.
  apply Z.ltb_ge in Er, Ec. auto.
Qed.

Lemma sheet_cell_value_text (sh : Sheet) (row col : Z) (value : option str) :
  sheet_cell_value sh row col = Some value ->
  or_empty value = cell_text sh row col.
Proof.
  intros H. unfold cell_text. rewrite H.
  destruct value as [v|]; [|reflexivity].
  unfold sheet_cell_value in H.
  destruct (bad_index row || bad_index col); [discriminate|].
  destruct (nth (idx col) (nth (idx row) sh []) []) as [|c t];
    [discriminate|].
  inversion H. reflexivity.
Qed.

(** What a button press can do to the sheet: nothing, or the toggle of one
    cell. *)
Lemma handle_button_sheet (auth : list Z) (user_id : Z) (data : str)
      (w : World) :
  let w' := snd (handle_button auth user_id data w) in
  sheet w' = sheet w
  \/ exists field_code short_code row_str row opts canonical,
       In user_id auth
       /\ split_on 0x3A data = [field_code; short_code; row_str]
       /\ py_int row_str = Some row /\ (1 <= row)%Z
       /\ dict_get OPTIONS_MAP field_code = Some opts
       /\ dict_get opts short_code = Some canonical
       /\ let col := get_or FIELD_TO_COL field_code 0%Z in
          sheet w'
          = set_cell (sheet w) row col
                     (toggled (cell_text (sheet w) row col) canonical).
Proof.
  intros w'. subst w'. destruct w as [sh fs ob ud].
  unfold handle_button. unfold bind at 1, check_authorized.
  destruct (existsb (Z.eqb user_id) auth) eqn:Hauth; [|left; reflexivity].
  apply authorized_iff in Hauth.
  cbv beta zeta. change (negb true) with false. cbv iota.
  change (ret true {| sheet := sh; faults := fs; outbox := ob; user_data := ud |})
    with (Ok true, {| sheet := sh; faults := fs; outbox := ob; user_data := ud |}).
  cbv beta iota.
  destruct (split_on 58 data) as [|field_code [|short_code [|row_str [|x l]]]]
    eqn:Es; try solve [left; reflexivity].
  destruct (py_int row_str) as [row|] eqn:Er; [|left; reflexivity].
  destruct (str_eqb field_code (u "noop")).
  { left. run. destruct fs as [|[|] fs]; run;
      try (destruct (sheet_row_values sh row); run); reflexivity. }
  destruct (str_eqb field_code (u "finish")); [left; reflexivity|].
  destruct (str_eqb field_code (u "input")); [left; reflexivity|].
  destruct (get_or FIELD_TO_COL field_code 0 =? 0)%Z; [left; reflexivity|].
  destruct (has_key OPTIONS_MAP field_code) eqn:K1; [|left; reflexivity].
  destruct (has_key (get_or OPTIONS_MAP field_code []) short_code) eqn:K2;
    [|left; reflexivity].
  cbn [negb orb]. cbv iota.
  apply (has_key_get _ _ []) in K1. apply (has_key_get _ _ []) in K2.
  set (opts := get_or OPTIONS_MAP field_code []) in *.
  set (canonical := get_or opts short_code []) in *.
  set (col := get_or FIELD_TO_COL field_code 0%Z).
  split_faults fs; run;
    repeat match goal with
           | |- context [sheet_cell_value ?s ?r ?c] =>
               destruct (sheet_cell_value s r c) as [value|] eqn:Hcv; run
           | |- context [sheet_update_cell ?s ?r ?c ?v] =>
               destruct (sheet_update_cell s r c v) as [sh2|] eqn:Hup; run
           | |- context [sheet_row_values ?s ?r] =>
               destruct (sheet_row_values s r); run
           end;
    try solve [left; reflexivity].
  all: right; exists field_code, short_code, row_str, row, opts, canonical.
  all: apply sheet_update_cell_set in Hup as (-> & Hrow & _).
  all: fold (or_empty value) in *.
  all: rewrite (sheet_cell_value_text _ _ _ _ Hcv).
  all: repeat split; auto.
Qed.

(** A button press changes the sheet only as the toggle of a known
    option: an authorized user, in [EDITING], a token of three parts that
    names a field of [OPTIONS_MAP], one of its options and a row; then one
    cell is written, with the option's canonical value or the empty
    string.  Every other button press leaves the sheet as it was. *)
Theorem button_writes_one_option
        (auth : list Z) (user_id : Z) (data : str)
        (conv : option LeadStates) (w : World) :
  let w' := snd (dispatch auth user_id (ButtonPress data) (conv, w)) in
  sheet w' = sheet w
  \/ exists field_code short_code row_str row opts canonical,
       conv = Some EDITING /\ In user_id auth
       /\ split_on 0x3A data = [field_code; short_code; row_str]
       /\ py_int row_str = Some row /\ (1 <= row)%Z
       /\ dict_get OPTIONS_MAP field_code = Some opts
       /\ dict_get opts short_code = Some canonical
       /\ let col := get_or FIELD_TO_COL field_code 0%Z in
          sheet w'
          = set_cell (sheet w) row col
                     (toggled (cell_text (sheet w) row col) canonical).
Proof.
  intros w'. subst w'. unfold dispatch.
  destruct conv as [[|]|]; cbn [route]; try (left; reflexivity).
  pose proof (handle_button_sheet auth user_id data w) as H. cbv zeta in H.
  destruct (handle_button auth user_id data w) as [[[st| |]|] w1];
    cbn [snd] in *;
    (destruct H as [H | (f & s & r & row & opts & can & H)];
     [left; exact H
     |right; exists f, s, r, row, opts, can; split; [reflexivity | exact H]]).
Qed.

(** ** What a conversation does to the sheet *)

(** What a free-text submission can do to the sheet: nothing, or write the
    cell the pointer names. *)
Lemma handle_text_input_sheet (auth : list Z) (user_id : Z)
      (message_text : str) (w : World) :
  let w' := snd (handle_text_input auth user_id message_text w) in
  sheet w' = sheet w
  \/ exists code row,
       In user_id auth
       /\ user_data w = mkUserData (Some code) (Some row)
       /\ (1 <= row)%Z /\ (1 <= get_or FIELD_TO_COL code 0)%Z
       /\ let col := get_or FIELD_TO_COL code 0%Z in
          sheet w'
          = set_cell (sheet w) row col
                     (submitted code (cell_text (sheet w) row col)
                                (strip message_text)).
Proof.
  intros w'. subst w'. destruct w as [sh fs ob ud].
  unfold handle_text_input. unfold bind at 1, check_authorized.
  destruct (existsb (Z.eqb user_id) auth) eqn:Hauth; [|left; reflexivity].
  apply authorized_iff in Hauth.
  cbv beta zeta. change (negb true) with false. cbv iota.
  change (ret true {| sheet := sh; faults := fs; outbox := ob; user_data := ud |})
    with (Ok true, {| sheet := sh; faults := fs; outbox := ob; user_data := ud |}).
  cbv beta iota.
  destruct ud as [[code|] [row|]]; run; try (left; reflexivity).
  destruct (_ || (row =? 0)%Z); run; [left; reflexivity|].
  destruct (get_or FIELD_TO_COL code 0 <? 1)%Z eqn:Hcol; run;
    [left; reflexivity|].
  apply Z.ltb_ge in Hcol.
  destruct (str_eqb code (u "notes")) eqn:En; split_faults fs; run;
    repeat match goal with
           | |- context [sheet_cell_value ?s ?r ?c] =>
               destruct (sheet_cell_value s r c) as [value|] eqn:Hcv; run
           | |- context [sheet_update_cell ?s ?r ?c ?v] =>
               destruct (sheet_update_cell s r c v) as [sh2|] eqn:Hup; run
           | |- context [sheet_row_values ?s ?r] =>
               destruct (sheet_row_values s r); run
           end;
    try solve [left; reflexivity].
  all: right; exists code, row.
  all: apply sheet_update_cell_set in Hup as (-> & Hrow & _).
  all: try (fold (or_empty value) in *;
            rewrite (sheet_cell_value_text _ _ _ _ Hcv)).
  all: unfold submitted; rewrite En.
  all: repeat split; auto.
Qed.

(** What intake can do to the sheet: nothing, or append the row of the
    lead. *)
Lemma process_lead_sheet (auth : list Z) (user_id : Z)
      (message_text : str) (w : World) :
  let w' := snd (process_lead auth user_id message_text w) in
  sheet w' = sheet w
  \/ (In user_id auth /\ intake_rejection message_text = None
      /\ sheet w'
         = sheet_append_row
             (sheet w) (stored_row (parse_lead_text (strip message_text)))).
Proof.
  intros w'. subst w'.
  destruct (existsb (Z.eqb user_id) auth) eqn:Hauth.
  - apply authorized_iff in Hauth.
    destruct (intake_rejection message_text) as [r|] eqn:Hr.
    + rewrite (process_lead_rejected auth user_id message_text w r Hauth Hr).
      left. reflexivity.
    + rewrite (process_lead_passes auth user_id message_text w Hauth Hr).
      destruct w as [sh fs ob ud].
      split_faults fs; run;
        repeat match goal with
               | |- context [sheet_row_values ?s ?r] =>
                   destruct (sheet_row_values s r); run
               end;
        first [left; reflexivity | right; repeat split; assumption].
  - assert (Hno : ~ In user_id auth).
    { intros H. apply authorized_iff in H. congruence. }
    rewrite (process_lead_denied auth user_id message_text w Hno).
    left. reflexivity.
Qed.

Lemma command_leaves_world (auth : list Z) (user_id : Z) (name : str)
      (conv : option LeadStates) (w : World) :
  let w' := snd (dispatch auth user_id (Command name) (conv, w)) in
  sheet w' = sheet w /\ faults w' = faults w /\ user_data w' = user_data w.
Proof.
  intros w'. subst w'. destruct w as [sh fs ob ud]. unfold dispatch.
  cbn [route].
  destruct (str_eqb name (u "algorithm"));
    [|destruct (str_eqb name (u "start") && _);
      [|destruct (str_eqb name (u "cancel") && _)]];
    [ unfold cmd_algorithm | unfold cmd_start | unfold cmd_cancel
    | unfold unknown ];
    run; destruct (existsb (Z.eqb user_id) auth); run; repeat split.
Qed.

(** The columns the editing workflow writes lie behind the eleven columns
    of intake. *)
Lemma editing_columns (code : str) :
  (1 <= get_or FIELD_TO_COL code 0)%Z -> (12 <= get_or FIELD_TO_COL code 0)%Z.
Proof.
  unfold get_or. destruct (dict_get FIELD_TO_COL code) as [col|] eqn:E;
    [|lia].
  intros _. apply dict_get_In in E.
  assert (H : forallb (fun kv => (12 <=? snd kv)%Z) FIELD_TO_COL = true)
    by (vm_compute; reflexivity).
  rewrite forallb_forall in H. specialize (H _ E). apply Z.leb_le in H.
  exact H.
Qed.

(** One update changes the sheet in one of three ways: not at all, by one
    appended row, or in one cell. *)
Lemma dispatch_sheet_step (auth : list Z) (user_id : Z) (ev : Event)
      (conv : option LeadStates) (w : World) :
  let w' := snd (dispatch auth user_id ev (conv, w)) in
  sheet w' = sheet w
  \/ (exists row, sheet w' = sheet_append_row (sheet w) row)
  \/ (exists row col value,
        (1 <= row)%Z /\ (12 <= col)%Z
        /\ sheet w' = set_cell (sheet w) row col value).
Proof.
  intros w'. subst w'. destruct ev as [name|text|data].
  - left. apply command_leaves_world.
  - unfold dispatch. destruct conv as [[|]|]; cbn [route];
      [| |left; reflexivity].
    + pose proof (process_lead_sheet auth user_id text w) as H.
      cbv zeta in H.
      destruct (process_lead auth user_id text w) as [[[st| |]|] w1];
        cbn [snd] in *;
        (destruct H as [H | (_ & _ & H)];
         [left; exact H | right; left; eexists; exact H]).
    + pose proof (handle_text_input_sheet auth user_id text w) as H.
      cbv zeta in H.
      destruct (handle_text_input auth user_id text w) as [[[st| |]|] w1];
        cbn [snd] in *;
        (destruct H as [H | (code & row & _ & _ & Hr & Hc & H)];
         [left; exact H
         |right; right; eexists; eexists; eexists;
          split; [exact Hr | split; [|exact H]];
          apply editing_columns; exact Hc]).
  - unfold dispatch. destruct conv as [[|]|]; cbn [route];
      try (left; reflexivity).
    pose proof (handle_button_sheet auth user_id data w) as H.
    cbv zeta in H.
    destruct (handle_button auth user_id data w) as [[[st| |]|] w1];
      cbn [snd] in *;
      (destruct H as [H | (f & s & r & row & opts & can & _ & _ & _ & Hr
                           & Hf & Ho & H)];
       [left; exact H
       |right; right; eexists; eexists; eexists;
        split; [exact Hr | split; [|exact H]];
        apply editing_columns; apply (toggle_facts _ _ _ _ Hf Ho)]).
Qed.

Lemma set_nth_length {A : Type} (d x : A) (n : nat) (l : list A) :
  (length l <= length (set_nth d n x l))%nat.
Proof.
  revert l. induction n as [|n IH]; intros [|h t]; simpl; try lia.
  specialize (IH t). lia.
Qed.

Lemma nth_set_nth_other {A : Type} (d x : A) (n m : nat) (l : list A) :
  n <> m -> nth m (set_nth d n x l) d = nth m l d.
Proof.
  revert m l. induction n as [|n IH]; intros [|m] [|h t] H; simpl;
    try congruence; try reflexivity.
  - destruct m; reflexivity.
  - rewrite IH by congruence. destruct m; reflexivity.
  - apply IH. congruence.
Qed.

Lemma cell_text_set_cell_other (sh : Sheet) (row col r c : Z) (value : str) :
  (1 <= row)%Z -> (1 <= col)%Z -> (1 <= r)%Z -> (1 <= c)%Z ->
  (r, c) <> (row, col) ->
  cell_text (set_cell sh row col value) r c = cell_text sh r c.
Proof.
  intros Hrow Hcol Hr Hc Hne. unfold cell_text, sheet_cell_value, set_cell.
  rewrite (bad_index_false r Hr), (bad_index_false c Hc). cbn [orb].
  destruct (Z.eq_dec r row) as [-> | Nr].
  - rewrite nth_set_nth.
    rewrite nth_set_nth_other; [reflexivity|].
    unfold idx. intros E. apply Hne. f_equal. lia.
  - rewrite nth_set_nth_other; [reflexivity|]. unfold idx. lia.
Qed.

(** A cell that reads as something lies in a row the sheet has. *)
Lemma cell_text_within (sh : Sheet) (r c : Z) :
  cell_text sh r c <> [] -> (1 <= r <= Z.of_nat (length sh))%Z.
Proof.
  unfold cell_text, sheet_cell_value. intros H.
  destruct (bad_index r) eqn:Er; [destruct (H eq_refl)|].
  unfold bad_index in Er. apply Z.ltb_ge in Er. split; [exact Er|].
  destruct (Z_le_gt_dec r (Z.of_nat (length sh))) as [Hle|Hgt]; [exact Hle|].
  exfalso. apply H.
  destruct (bad_index c); [reflexivity|]. cbn [orb].
  rewrite (nth_overflow sh [] (n := idx r)) by (unfold idx; lia).
  destruct (idx c); reflexivity.
Qed.

(** One update leaves the first eleven cells of a row alone, when one of
    them holds something. *)
Lemma intake_columns_step (auth : list Z) (user_id : Z) (ev : Event)
      (conv : option LeadStates) (w : World) (r c c0 : Z) :
  (1 <= c <= 11)%Z -> (1 <= c0 <= 11)%Z ->
  cell_text (sheet w) r c0 <> [] ->
  cell_text (sheet (snd (dispatch auth user_id ev (conv, w)))) r c
  = cell_text (sheet w) r c.
Proof.
  intros Hc Hc0 Hdata.
  pose proof (dispatch_sheet_step auth user_id ev conv w) as H.
  cbv zeta in H.
  destruct H as [H | [(row & H) | (row & col & value & Hrow & Hcol & H)]];
    rewrite H.
  - reflexivity.
  - apply cell_text_append_other.
    rewrite <- (cell_text_used_rows (sheet w)) in Hdata.
    apply cell_text_within in Hdata. lia.
  - apply cell_text_within in Hdata.
    apply cell_text_set_cell_other; try lia.
    intros Ep. inversion Ep. lia.
Qed.

(** What intake stored stays as it is.  In a row that holds something in
    one of its first eleven columns, as every row that intake stored does
    in its first, these eleven cells, the parsed fields and the region,
    read as they did whatever the updates that follow. *)
Theorem intake_columns_never_change
        (auth : list Z) (user_id : Z) (evs : list Event)
        (conv : option LeadStates) (w : World) (r c c0 : Z) :
  (1 <= c <= 11)%Z -> (1 <= c0 <= 11)%Z ->
  cell_text (sheet w) r c0 <> [] ->
  cell_text (sheet (snd (conversation auth user_id evs (conv, w)))) r c
  = cell_text (sheet w) r c.
Proof.
  intros Hc Hc0. revert conv w.
  induction evs as [|ev evs IH]; intros conv w Hdata; [reflexivity|].
  unfold conversation. cbn [fold_left].
  pose proof (intake_columns_step auth user_id ev conv w r c c0 Hc Hc0 Hdata)
    as E.
  pose proof (intake_columns_step auth user_id ev conv w r c0 c0 Hc0 Hc0
                                  Hdata) as E0.
  destruct (dispatch auth user_id ev (conv, w)) as [conv1 w1].
  fold (conversation auth user_id evs (conv1, w1)).
  cbn [snd] in E, E0.
  rewrite IH; [exact E|]. rewrite E0. exact Hdata.
Qed.

(** A user who is not authorized never gets into a conversation: from the
    state before [/start], whatever this user sends, the state stays what
    it is, the sheet is never called and nothing but the refusal is
    sent. *)
Theorem unauthorized_stays_outside
        (auth : list Z) (user_id : Z) (evs : list Event) (w : World) :
  ~ In user_id auth ->
  let s' := conversation auth user_id evs (None, w) in
  fst s' = None
  /\ sheet (snd s') = sheet w /\ faults (snd s') = faults w
  /\ user_data (snd s') = user_data w
  /\ forall m, In m (outbox (snd s')) ->
               In m (outbox w)
               \/ m = ReplyText
                        (u "Извините, у вас нет прав пользоваться этим ботом.")
                        None.
Proof.
  intros Hno. revert w.
  induction evs as [|ev evs IH]; intros w; cbv zeta.
  - simpl. repeat split. auto.
  - unfold conversation. cbn [fold_left].
    assert (E : dispatch auth user_id ev (None, w) = (None, w)
                \/ dispatch auth user_id ev (None, w) = (None, refused w)).
    { unfold dispatch.
      destruct (route auth None user_id ev) as [handler|] eqn:Hr;
        [|left; reflexivity].
      destruct (route_denied auth user_id None ev handler w Hno Hr)
        as [r Hh]. rewrite Hh. right.
      destruct ev as [name|text|data]; cbn [route] in Hr;
        [|discriminate|discriminate].
      revert Hr Hh.
      destruct (str_eqb name (u "algorithm"));
        [|destruct (str_eqb name (u "start") && _);
          [|destruct (str_eqb name (u "cancel") && _)]];
        intros Hr; inversion Hr; subst handler;
        [ unfold cmd_algorithm | unfold cmd_start | unfold cmd_cancel
        | unfold unknown ];
        rewrite check_authorized_denied by assumption;
        cbn [negb]; unfold ret; intros Hh; inversion Hh; reflexivity. }
    destruct E as [-> | ->].
    + apply IH.
    + fold (conversation auth user_id evs (None, refused w)).
      destruct (IH (refused w)) as (H1 & H2 & H3 & H4 & H5).
      repeat split; auto.
      intros m Hm. destruct (H5 m Hm) as [[<- | H] | H]; auto.
Qed.

Lemma unauthorized_stays_outside_witness :
  let w := mkWorld [[u "Имя клиента"]] [] [] (mkUserData None None) in
  let evs := [ Command (u "start");
               TextMessage (u "Имя клиента: Ana");
               ButtonPress (u "src:tg:1") ] in
  let s' := conversation [1001%Z] 7%Z evs (None, w) in
  fst s' = None /\ sheet (snd s') = sheet w
  /\ length (outbox (snd s')) = 1%nat.
Proof.
  assert (H : ~ In 7%Z [1001%Z]) by (simpl; intuition discriminate).
  destruct (unauthorized_stays_outside
              [1001%Z] 7%Z
              [ Command (u "start"); TextMessage (u "Имя клиента: Ana");
                ButtonPress (u "src:tg:1") ]
              (mkWorld [[u "Имя клиента"]] [] [] (mkUserData None None)) H)
    as (H1 & H2 & _).
  split; [exact H1|]. split; [exact H2|]. vm_compute. reflexivity.
Defined.

Lemma intake_columns_never_change_witness :
  let w := mkWorld [[u "Имя клиента"]; [u "Ana"; u "+34600111222"]] [] []
                   (mkUserData None None) in
  let evs := [ ButtonPress (u "src:tg:2"); ButtonPress (u "input:notes:2");
               TextMessage (u "call back"); ButtonPress (u "finish:_:2");
               TextMessage (u "Имя клиента: Bo" ++ nl ++ u "Мессенджер: tg") ]
  in
  let s' := conversation [7%Z] 7%Z evs (Some EDITING, w) in
  cell_text (sheet (snd s')) 2 2 = u "+34600111222"
  /\ cell_text (sheet (snd s')) 2 12 = u "call back"
  /\ cell_text (sheet (snd s')) 2 13 = u "Telegram"
  /\ cell_text (sheet (snd s')) 3 1 = u "Bo".
Proof.
  split.
  - rewrite (intake_columns_never_change
               [7%Z] 7%Z
               [ ButtonPress (u "src:tg:2"); ButtonPress (u "input:notes:2");
                 TextMessage (u "call back"); ButtonPress (u "finish:_:2");
                 TextMessage (u "Имя клиента: Bo" ++ nl
                              ++ u "Мессенджер: tg") ]
               (Some EDITING)
               (mkWorld [[u "Имя клиента"]; [u "Ana"; u "+34600111222"]]
                        [] [] (mkUserData None None))
               2 2 1).
    + vm_compute. reflexivity.
    + lia.
    + lia.
    + vm_compute. discriminate.
  - repeat split; vm_compute; reflexivity.
Defined.

(** ** A pointer that outlives its lead *)

Lemma handle_button_finish (auth : list Z) (user_id : Z)
      (short_code row_str : str) (row : Z) (w : World) :
  In user_id auth ->
  contains 0x3A short_code = false ->
  py_int row_str = Some row ->
  exists ob',
    handle_button auth user_id (token (u "finish") short_code row_str) w
    = (Ok (Next BULK_DATA),
       mkWorld (sheet w) (faults w) ob' (user_data w)).
Proof.
  intros Hauth Hc Hr.
  pose proof (py_int_no_colon _ _ Hr) as C3.
  assert (C1 : contains 0x3A (u "finish") = false)
    by (vm_compute; reflexivity).
  assert (N1 : str_eqb (u "finish") (u "noop") = false)
    by (vm_compute; reflexivity).
  unfold handle_button. rewrite check_authorized_granted by assumption.
  cbv beta. change (negb true) with false. cbv iota.
  rewrite (split_token _ _ _ C1 Hc C3), Hr, N1, str_eqb_refl.
  destruct w as [sh fs ob ud]. eexists. reflexivity.
Qed.

(** A row with a name in it lies above the place of the next lead. *)
Lemma named_row_is_used (sh : Sheet) (row : Z) :
  cell_text sh row 1 <> [] ->
  (1 <= row <= Z.of_nat (length (used_rows sh)))%Z.
Proof.
  intros H. rewrite <- (cell_text_used_rows sh) in H.
  apply cell_text_within in H. exact H.
Qed.

(** C3, as the code has it.  The pointer is set on a field of a row that
    holds a lead.  A text is submitted and stored, "finish" is pressed, a
    new lead is sent and stored, and one more text is sent.  The pointer is
    as it was after the submission and after "finish"; the new lead goes
    into the row below the last one that holds data and its menu is shown;
    and the last text is written into the field of the earlier lead's row,
    over what the first text left there, while the row of the new lead
    stays as it was stored. *)
Theorem stale_pointer_misdirects_text
        (auth : list Z) (user_id : Z)
        (code short_code row_str text1 lead_text text2 : str)
        (row finished : Z) (w : World) :
  In user_id auth ->
  faults w = [] ->
  user_data w = mkUserData (Some code) (Some row) ->
  (1 <= get_or FIELD_TO_COL code 0)%Z ->
  cell_text (sheet w) row 1 <> [] ->
  contains 0x3A short_code = false ->
  py_int row_str = Some finished ->
  intake_rejection lead_text = None ->
  let col := get_or FIELD_TO_COL code 0%Z in
  let lead := parse_lead_text (strip lead_text) in
  let s1 := dispatch auth user_id (TextMessage text1) (Some EDITING, w) in
  let s2 := dispatch auth user_id
                     (ButtonPress (token (u "finish") short_code row_str))
                     s1 in
  let s3 := dispatch auth user_id (TextMessage lead_text) s2 in
  let s4 := dispatch auth user_id (TextMessage text2) s3 in
  let n := (Z.of_nat (length (used_rows (sheet (snd s1)))) + 1)%Z in
  (fst s1 = Some EDITING
   /\ cell_text (sheet (snd s1)) row col
      = submitted code (cell_text (sheet w) row col) (strip text1)
   /\ user_data (snd s1) = mkUserData (Some code) (Some row))
  /\ (fst s2 = Some BULK_DATA
      /\ user_data (snd s2) = mkUserData (Some code) (Some row))
  /\ (fst s3 = Some EDITING
      /\ (row < n)%Z
      /\ sheet (snd s3) = used_rows (sheet (snd s1)) ++ [stored_row lead]
      /\ hd_error (outbox (snd s3))
         = Some (ReplyText MENU_TEXT (Some (keyboard (stored_row lead) n))))
  /\ (fst s4 = Some EDITING
      /\ cell_text (sheet (snd s4)) row col
         = submitted code (cell_text (sheet (snd s1)) row col) (strip text2)
      /\ forall c, (1 <= c)%Z ->
                   cell_text (sheet (snd s4)) n c
                   = cell_text (sheet (snd s3)) n c).
Proof.
  intros Hauth Hf Hud Hcol Hname Hsc Hrs Hr col lead s1 s2 s3 s4 n.
  destruct w as [sh fs ob ud]. cbn [faults user_data sheet] in Hf, Hud, Hname.
  subst fs ud.
  assert (Hrow : (1 <= row)%Z) by (apply (cell_text_within sh row 1 Hname)).
  pose proof (editing_columns code Hcol) as Hcol12. fold col in Hcol, Hcol12.
  (* the submission *)
  destruct (handle_text_input_stores auth user_id text1 code row sh ob
              Hauth Hrow Hcol) as [ob1 H1].
  cbv zeta in H1. fold col in H1.
  pose proof (dispatch_text_editing _ _ _ _ _ _ H1) as D1.
  set (sh1 := set_cell sh row col
                       (submitted code (cell_text sh row col) (strip text1)))
    in *.
  (* finish *)
  destruct (handle_button_finish
              auth user_id short_code row_str finished
              (mkWorld sh1 [] ob1 (mkUserData (Some code) (Some row)))
              Hauth Hsc Hrs) as [ob2 H2].
  cbn [sheet faults user_data] in H2.
  pose proof (dispatch_button _ _ _ _ _ _ H2) as D2.
  (* the new lead *)
  pose proof (intake_stores auth user_id lead_text sh1 ob2
                            (mkUserData (Some code) (Some row)) Hauth Hr)
    as D3.
  cbv zeta in D3. fold lead in D3.
  (* the next text *)
  destruct (handle_text_input_stores
              auth user_id text2 code row
              (used_rows sh1 ++ [stored_row lead])
              (ReplyText MENU_TEXT
                         (Some (keyboard (stored_row lead)
                                         (Z.of_nat (length (used_rows sh1))
                                          + 1)))
               :: ReplyText (summary_text lead) None :: ob2)
              Hauth Hrow Hcol) as [ob4 H4].
  cbv zeta in H4. fold col in H4.
  pose proof (dispatch_text_editing _ _ _ _ _ _ H4) as D4.
  assert (E1 : s1 = (Some EDITING,
                     mkWorld sh1 [] ob1 (mkUserData (Some code) (Some row))))
    by exact D1.
  assert (E2 : s2 = (Some BULK_DATA,
                     mkWorld sh1 [] ob2 (mkUserData (Some code) (Some row))))
    by (unfold s2; rewrite E1; exact D2).
  assert (E3 : s3 = (Some EDITING,
                     mkWorld (used_rows sh1 ++ [stored_row lead]) []
                             (ReplyText MENU_TEXT
                                (Some (keyboard (stored_row lead)
                                         (Z.of_nat (length (used_rows sh1))
                                          + 1)))
                              :: ReplyText (summary_text lead) None :: ob2)
                             (mkUserData (Some code) (Some row))))
    by (unfold s3; rewrite E2; exact D3).
  assert (Hn : n = (Z.of_nat (length (used_rows sh1)) + 1)%Z)
    by (unfold n; rewrite E1; reflexivity).
  assert (Hname1 : cell_text sh1 row 1 <> []).
  { unfold sh1. rewrite cell_text_set_cell_other; try lia; [exact Hname|].
    intros Ep. inversion Ep. lia. }
  pose proof (named_row_is_used sh1 row Hname1) as Hused.
  assert (Hcell : cell_text (used_rows sh1 ++ [stored_row lead]) row col
                  = cell_text sh1 row col).
  { apply (cell_text_append_other sh1). lia. }
  unfold s4. rewrite E3, D4, E2, E1. cbn [fst snd sheet outbox user_data hd_error].
  rewrite Hn. repeat split; try reflexivity.
  - unfold sh1. apply cell_text_set_cell; assumption.
  - lia.
  - rewrite cell_text_set_cell by assumption. rewrite Hcell. reflexivity.
  - intros c Hc. apply cell_text_set_cell_other; try lia.
    intros Ep. inversion Ep. lia.
Qed.

(** "input" for the budget of the lead in row 2, the text "100", "finish",
    a new lead, and the text "hello": the new lead is in row 3 and its menu
    is shown, and "hello" has replaced the budget of the lead in row 2. *)
Lemma stale_pointer_misdirects_text_witness :
  let w := mkWorld [[u "Имя клиента"]; [u "Ana"]] [] []
                   (mkUserData None None) in
  let s0 := dispatch [7%Z] 7%Z (ButtonPress (u "input:budget:2"))
                     (Some EDITING, w) in
  let s1 := dispatch [7%Z] 7%Z (TextMessage (u "100")) s0 in
  let s2 := dispatch [7%Z] 7%Z (ButtonPress (u "finish:_:2")) s1 in
  let s3 := dispatch [7%Z] 7%Z
                     (TextMessage (u "Имя клиента: Bo" ++ nl
                                   ++ u "Мессенджер: tg")) s2 in
  let s4 := dispatch [7%Z] 7%Z (TextMessage (u "hello")) s3 in
  cell_text (sheet (snd s1)) 2 27 = u "100"
  /\ fst s2 = Some BULK_DATA
  /\ user_data (snd s2) = mkUserData (Some (u "budget")) (Some 2%Z)
  /\ fst s3 = Some EDITING
  /\ cell_text (sheet (snd s3)) 3 1 = u "Bo"
  /\ fst s4 = Some EDITING
  /\ cell_text (sheet (snd s4)) 2 27 = u "hello"
  /\ cell_text (sheet (snd s4)) 3 27 = [].
Proof.
  cbv zeta.
  assert (E0 : dispatch [7%Z] 7%Z (ButtonPress (u "input:budget:2"))
                        (Some EDITING,
                         mkWorld [[u "Имя клиента"]; [u "Ana"]] [] []
                                 (mkUserData None None))
               = (Some EDITING,
                  mkWorld [[u "Имя клиента"]; [u "Ana"]] []
                          [EditMessageText (prompt (u "budget")) None; Answer]
                          (mkUserData (Some (u "budget")) (Some 2%Z))))
    by (vm_compute; reflexivity).
  rewrite E0.
  assert (Hauth : In 7%Z [7%Z]) by (left; reflexivity).
  assert (Hcol : (1 <= get_or FIELD_TO_COL (u "budget") 0)%Z)
    by (vm_compute; discriminate).
  assert (Hname : cell_text [[u "Имя клиента"]; [u "Ana"]] 2 1 <> [])
    by (vm_compute; discriminate).
  assert (Hsc : contains 0x3A (u "_") = false) by (vm_compute; reflexivity).
  assert (Hrs : py_int (u "2") = Some 2%Z) by (vm_compute; reflexivity).
  assert (Hr : intake_rejection (u "Имя клиента: Bo" ++ nl
                                 ++ u "Мессенджер: tg") = None)
    by (vm_compute; reflexivity).
  destruct (stale_pointer_misdirects_text
              [7%Z] 7%Z (u "budget") (u "_") (u "2") (u "100")
              (u "Имя клиента: Bo" ++ nl ++ u "Мессенджер: tg") (u "hello")
              2%Z 2%Z
              (mkWorld [[u "Имя клиента"]; [u "Ana"]] []
                       [EditMessageText (prompt (u "budget")) None; Answer]
                       (mkUserData (Some (u "budget")) (Some 2%Z)))
              Hauth eq_refl eq_refl Hcol Hname Hsc Hrs Hr)
    as ((_ & H1 & _) & (H2 & H2') & (H3 & _) & (H4 & H4' & _)).
  change (token (u "finish") (u "_") (u "2")) with (u "finish:_:2") in *.
  split; [etransitivity; [exact H1 | vm_compute; reflexivity]|].
  split; [exact H2|]. split; [exact H2'|]. split; [exact H3|].
  split; [vm_compute; reflexivity|]. split; [exact H4|].
  split; [etransitivity; [exact H4' | vm_compute; reflexivity]|].
  vm_compute. reflexivity.
Defined.

(** ** Buttons and texts the handlers turn down *)

(** Button data the handler cannot read.  Data that does not split into
    three parts at the colons is answered with [BAD_BUTTON] in place of the
    menu; data whose third part is not an integer makes the handler raise,
    whatever the first part, and the error handler answers.  Either way
    the conversation stays in [EDITING] and nothing else changes. *)
Theorem unreadable_button_data
        (auth : list Z) (user_id : Z) (data : str) (w : World) :
  In user_id auth ->
  let s' := dispatch auth user_id (ButtonPress data) (Some EDITING, w) in
  (length (split_on 0x3A data) <> 3%nat ->
   s' = (Some EDITING, sent w [EditMessageText BAD_BUTTON None; Answer]))
  /\ (forall field_code short_code row_str,
         split_on 0x3A data = [field_code; short_code; row_str] ->
         py_int row_str = None ->
         s' = (Some EDITING, sent w [ReplyText HANDLER_FAILED None; Answer])).
Proof.
  intros Hauth s'. subst s'. unfold dispatch. cbn [route].
  unfold handle_button. rewrite check_authorized_granted by assumption.
  cbv beta. change (negb true) with false. cbv iota.
  destruct w as [sh fs ob ud]. split.
  - intros Hlen.
    destruct (split_on 58 data) as [|f [|s [|r [|x l]]]]; try reflexivity.
    contradiction Hlen. reflexivity.
  - intros f s r -> Hr. rewrite Hr. reflexivity.
Qed.

(** A section header of the menu carries the data "noop". *)
Lemma unreadable_button_data_witness :
  let w := mkWorld [[u "Имя клиента"]; [u "Ana"]] [] []
                   (mkUserData None None) in
  In (mkButton (u "=== (1) Подготовка к контакту ===") (u "noop"))
     (buttons (keyboard [u "Ana"] 2))
  /\ dispatch [7%Z] 7%Z (ButtonPress (u "noop")) (Some EDITING, w)
     = (Some EDITING, sent w [EditMessageText BAD_BUTTON None; Answer]).
Proof.
  split; [left; vm_compute; reflexivity|].
  assert (Hauth : In 7%Z [7%Z]) by (left; reflexivity).
  destruct (unreadable_button_data
              [7%Z] 7%Z (u "noop")
              (mkWorld [[u "Имя клиента"]; [u "Ana"]] [] []
                       (mkUserData None None)) Hauth) as [H _].
  apply H. vm_compute. discriminate.
Defined.

(** Free text with nowhere to go.  When the pointer is not set, names no
    field or names row 0, the text is answered with [NO_TARGET]; when it
    names a field code that has no column, with [BAD_FIELD].  Either way
    the sheet is not called and the conversation goes back to
    [BULK_DATA]. *)
Theorem free_text_without_target
        (auth : list Z) (user_id : Z) (message_text : str) (w : World) :
  In user_id auth ->
  let s' := dispatch auth user_id (TextMessage message_text)
                     (Some EDITING, w) in
  let code := editing_field (user_data w) in
  let row := editing_row (user_data w) in
  ((code = None \/ code = Some [] \/ row = None \/ row = Some 0%Z) ->
   s' = (Some BULK_DATA, sent w [ReplyText NO_TARGET None]))
  /\ (forall c r,
         code = Some c -> row = Some r -> c <> [] -> r <> 0%Z ->
         (get_or FIELD_TO_COL c 0 < 1)%Z ->
         s' = (Some BULK_DATA, sent w [ReplyText BAD_FIELD None])).
Proof.
  intros Hauth s' code row. subst s' code row. unfold dispatch. cbn [route].
  unfold handle_text_input. rewrite check_authorized_granted by assumption.
  cbv beta zeta. change (negb true) with false. cbv iota.
  destruct w as [sh fs ob [[c|] [r|]]]; cbn [user_data editing_field editing_row].
  all: split.
  all: try (intros _; reflexivity).
  all: try (intros c0 r0 H1 H2; discriminate).
  - intros [H | [H | [H | H]]]; try discriminate; inversion H; subst.
    + reflexivity.
    + destruct c; reflexivity.
  - intros c0 r0 H1 H2 Hc Hr Hcol. inversion H1; inversion H2; subst c0 r0.
    run. destruct c as [|x c]; [congruence|]. cbn [truthy orb].
    apply Z.eqb_neq in Hr. rewrite Hr. apply Z.ltb_lt in Hcol.
    rewrite Hcol. reflexivity.
Qed.

Lemma free_text_without_target_witness :
  let w := mkWorld [[u "Имя клиента"]; [u "Ana"]] [] []
                   (mkUserData (Some (u "colour")) (Some 2%Z)) in
  dispatch [7%Z] 7%Z (TextMessage (u "blue")) (Some EDITING, w)
  = (Some BULK_DATA, sent w [ReplyText BAD_FIELD None]).
Proof.
  assert (Hauth : In 7%Z [7%Z]) by (left; reflexivity).
  destruct (free_text_without_target
              [7%Z] 7%Z (u "blue")
              (mkWorld [[u "Имя клиента"]; [u "Ana"]] [] []
                       (mkUserData (Some (u "colour")) (Some 2%Z))) Hauth)
    as [_ H].
  apply (H (u "colour") 2%Z); try reflexivity.
  - vm_compute. discriminate.
  - discriminate.
Defined.

(** ** Commands and the pointer *)

(** What a command of an authorized user does, by the handlers [main]
    registers and the order it registers them in.  [/algorithm] answers in
    every state and leaves the state alone.  [/start] opens a conversation
    only when none is open: inside one it is an unknown command and the
    conversation goes on.  [/cancel] ends a conversation, and is an unknown
    command when none is open.  No command calls the sheet or touches the
    pointer. *)
Theorem what_commands_do
        (auth : list Z) (user_id : Z) (name : str)
        (conv : option LeadStates) (w : World) :
  In user_id auth ->
  dispatch auth user_id (Command name) (conv, w)
  = if str_eqb name (u "algorithm")
    then (conv, sent w [ReplyText ALGORITHM_TEXT None])
    else if str_eqb name (u "start") && negb (in_conversation conv)
    then (Some BULK_DATA, sent w [ReplyText START_TEXT None])
    else if str_eqb name (u "cancel") && in_conversation conv
    then (None, sent w [ReplyText CANCELLED None])
    else (conv, sent w [ReplyText UNKNOWN_COMMAND None]).
Proof.
  intros Hauth. unfold dispatch. cbn [route]. unfold in_conversation.
  destruct w as [sh fs ob ud].
  destruct (str_eqb name (u "algorithm"));
    [|destruct (str_eqb name (u "start") && _);
      [|destruct (str_eqb name (u "cancel") && _)]];
    [ unfold cmd_algorithm | unfold cmd_start | unfold cmd_cancel
    | unfold unknown ];
    rewrite check_authorized_granted by assumption; reflexivity.
Qed.

Lemma what_commands_do_witness :
  let w := mkWorld [[u "Имя клиента"]] [] [] (mkUserData None None) in
  dispatch [7%Z] 7%Z (Command (u "start")) (Some EDITING, w)
  = (Some EDITING, sent w [ReplyText UNKNOWN_COMMAND None]).
Proof.
  assert (Hauth : In 7%Z [7%Z]) by (left; reflexivity).
  cbv zeta.
  rewrite (what_commands_do [7%Z] 7%Z (u "start") (Some EDITING) _ Hauth).
  vm_compute. reflexivity.
Defined.

(** The pointer is written by one thing only: a three-part token whose
    first part is "input", pressed by an authorized user in [EDITING]; it
    then holds the second part and the row, whether or not the second part
    is the code of a field.  Every other update leaves the pointer as it
    was. *)
Theorem pointer_is_set_by_input_only
        (auth : list Z) (user_id : Z) (ev : Event)
        (conv : option LeadStates) (w : World) :
  let w' := snd (dispatch auth user_id ev (conv, w)) in
  user_data w' = user_data w
  \/ exists data code row_str row,
       ev = ButtonPress data /\ conv = Some EDITING /\ In user_id auth
       /\ split_on 0x3A data = [u "input"; code; row_str]
       /\ py_int row_str = Some row
       /\ user_data w' = mkUserData (Some code) (Some row).
Proof.
  intros w'. subst w'.
  destruct ev as [name|text|data].
  - left. apply command_leaves_world.
  - left. apply dispatch_keeps_ud. intros handler Hr.
    destruct conv as [[|]|]; simpl in Hr; inversion Hr; subst handler.
    + apply process_lead_keeps_ud.
    + apply handle_text_input_keeps_ud.
  - destruct conv as [[|]|]; try (left; reflexivity).
    destruct (split_on 0x3A data) as [|f [|s [|r [|x l]]]] eqn:Es;
      try (left; apply dispatch_keeps_ud; intros handler Hr;
           inversion Hr; subst handler; apply handle_button_keeps_ud;
           intros f0 s0 r0 E0; rewrite Es in E0; discriminate E0).
    destruct (str_eqb f (u "input")) eqn:Ef.
    + apply str_eqb_eq in Ef. subst f.
      unfold dispatch. cbn [route]. unfold handle_button.
      unfold bind at 1, check_authorized.
      destruct (existsb (Z.eqb user_id) auth) eqn:Hauth;
        [|left; reflexivity].
      apply authorized_iff in Hauth. destruct w as [sh fs ob ud].
      cbv beta zeta. change (negb true) with false. cbv iota.
      change (ret true {| sheet := sh; faults := fs; outbox := ob; user_data := ud |})
        with (Ok true, {| sheet := sh; faults := fs; outbox := ob; user_data := ud |}).
      cbv beta iota. run. change 58 with 0x3A. rewrite Es.
      destruct (py_int r) as [row|] eqn:Er; [|left; reflexivity].
      right. exists data, s, r, row.
      assert (N1 : str_eqb (u "input") (u "noop") = false)
        by (vm_compute; reflexivity).
      assert (N2 : str_eqb (u "input") (u "finish") = false)
        by (vm_compute; reflexivity).
      rewrite N1, N2, str_eqb_refl. repeat split; auto.
    + left. apply dispatch_keeps_ud. intros handler Hr.
      inversion Hr; subst handler. apply handle_button_keeps_ud.
      intros f0 s0 r0 E0. rewrite Es in E0. inversion E0; subst. exact Ef.
Qed.

(** ** From the "input" button to the cell *)

Lemma handle_button_input (auth : list Z) (user_id : Z)
      (code row_str : str) (row : Z) (w : World) :
  In user_id auth ->
  contains 0x3A code = false ->
  py_int row_str = Some row ->
  handle_button auth user_id (token (u "input") code row_str) w
  = (Ok (Next EDITING),
     mkWorld (sheet w) (faults w)
             (EditMessageText (prompt code) None :: Answer :: outbox w)
             (mkUserData (Some code) (Some row))).
Proof.
  intros Hauth Hc Hr.
  pose proof (py_int_no_colon _ _ Hr) as C3.
  assert (C1 : contains 0x3A (u "input") = false) by (vm_compute; reflexivity).
  assert (N1 : str_eqb (u "input") (u "noop") = false)
    by (vm_compute; reflexivity).
  assert (N2 : str_eqb (u "input") (u "finish") = false)
    by (vm_compute; reflexivity).
  unfold handle_button. rewrite check_authorized_granted by assumption.
  cbv beta. change (negb true) with false. cbv iota.
  rewrite (split_token _ _ _ C1 Hc C3), Hr, N1, N2, str_eqb_refl.
  destruct w as [sh fs ob ud]. reflexivity.
Qed.

(** Pressing "input" and then writing.  The button of a field code that
    has a column sets the pointer and asks for the text; the text message
    that follows is stored in that field of that row, as [submitted] has
    it, and the conversation stays in [EDITING]. *)
Theorem input_then_text_stores
        (auth : list Z) (user_id : Z) (code row_str message_text : str)
        (row : Z) (w : World) :
  In user_id auth ->
  faults w = [] ->
  contains 0x3A code = false ->
  py_int row_str = Some row -> (1 <= row)%Z ->
  (1 <= get_or FIELD_TO_COL code 0)%Z ->
  let col := get_or FIELD_TO_COL code 0%Z in
  let s1 := dispatch auth user_id
                     (ButtonPress (token (u "input") code row_str))
                     (Some EDITING, w) in
  let s2 := dispatch auth user_id (TextMessage message_text) s1 in
  fst s1 = Some EDITING
  /\ sheet (snd s1) = sheet w
  /\ outbox (snd s1) = EditMessageText (prompt code) None :: Answer :: outbox w
  /\ fst s2 = Some EDITING
  /\ sheet (snd s2)
     = set_cell (sheet w) row col
                (submitted code (cell_text (sheet w) row col)
                           (strip message_text)).
Proof.
  intros Hauth Hf Hc Hr Hrow Hcol col s1 s2.
  destruct w as [sh fs ob ud]. cbn [faults] in Hf. subst fs.
  pose proof (handle_button_input auth user_id code row_str row
                (mkWorld sh [] ob ud) Hauth Hc Hr) as H1.
  apply dispatch_button in H1. cbn [sheet faults outbox] in H1.
  destruct (handle_text_input_stores auth user_id message_text code row sh
              (EditMessageText (prompt code) None :: Answer :: ob)
              Hauth Hrow Hcol) as [ob2 H2].
  apply dispatch_text_editing in H2.
  subst s2 s1. rewrite H1, H2. cbn [fst snd sheet outbox]. repeat split.
Qed.

Lemma input_then_text_stores_witness :
  let w := mkWorld [[u "Имя клиента"]; [u "Ana"]] [] []
                   (mkUserData None None) in
  let s1 := dispatch [7%Z] 7%Z (ButtonPress (u "input:budget:2"))
                     (Some EDITING, w) in
  let s2 := dispatch [7%Z] 7%Z (TextMessage (u " 100k ")) s1 in
  outbox (snd s1) = [EditMessageText (u "Напишите, пожалуйста, Бюджет:") None;
                     Answer]
  /\ cell_text (sheet (snd s2)) 2 27 = u "100k".
Proof.
  assert (Hauth : In 7%Z [7%Z]) by (left; reflexivity).
  assert (Hc : contains 0x3A (u "budget") = false)
    by (vm_compute; reflexivity).
  assert (Hr : py_int (u "2") = Some 2%Z) by (vm_compute; reflexivity).
  assert (Hrow : (1 <= 2)%Z) by lia.
  assert (Hcol : (1 <= get_or FIELD_TO_COL (u "budget") 0)%Z)
    by (vm_compute; discriminate).
  destruct (input_then_text_stores
              [7%Z] 7%Z (u "budget") (u "2") (u " 100k ") 2%Z
              (mkWorld [[u "Имя клиента"]; [u "Ana"]] [] []
                       (mkUserData None None))
              Hauth eq_refl Hc Hr Hrow Hcol) as (_ & _ & H3 & _ & H5).
  split.
  - etransitivity; [exact H3 | vm_compute; reflexivity].
  - cbv zeta.
    change (u "input:budget:2") with (token (u "input") (u "budget") (u "2")).
    rewrite H5. vm_compute. reflexivity.
Defined.

(** A free-text submission that fails.  With the pointer on a field that
    has a column: when the first call to the sheet raises, or, for
    "notes", when the cell is read and the write raises, nothing is
    stored, the failure is reported and the conversation goes back to
    [BULK_DATA], where the next text message is taken for a new lead. *)
Theorem free_text_failure_resets
        (auth : list Z) (user_id : Z) (message_text code : str) (row : Z)
        (w : World) (fs : list bool) :
  In user_id auth ->
  user_data w = mkUserData (Some code) (Some row) ->
  (1 <= row)%Z -> (1 <= get_or FIELD_TO_COL code 0)%Z ->
  faults w = true :: fs
  \/ (code = u "notes" /\ faults w = false :: true :: fs) ->
  dispatch auth user_id (TextMessage message_text) (Some EDITING, w)
  = (Some BULK_DATA,
     mkWorld (sheet w) fs (ReplyText SAVE_FAILED None :: outbox w)
             (user_data w)).
Proof.
  intros Hauth Hud Hrow Hcol Hf.
  pose proof (column_known code Hcol) as Hcode.
  destruct w as [sh fs0 ob ud]. cbn [user_data faults sheet outbox] in *.
  subst ud. unfold dispatch. cbn [route]. unfold handle_text_input.
  rewrite check_authorized_granted by assumption.
  cbv beta zeta. change (negb true) with false. cbv iota.
  unfold bind at 1, get_user_data. cbn [user_data editing_field editing_row].
  rewrite Hcode. cbn [negb orb].
  assert (Hr0 : (row =? 0)%Z = false) by (apply Z.eqb_neq; lia).
  assert (Hc1 : (get_or FIELD_TO_COL code 0 <? 1)%Z = false)
    by (apply Z.ltb_ge; exact Hcol).
  rewrite Hr0, Hc1.
  destruct Hf as [-> | [-> ->]].
  - destruct (str_eqb code (u "notes")); reflexivity.
  - rewrite str_eqb_refl. run.
    destruct (sheet_cell_value_ok sh row
                                  (get_or FIELD_TO_COL (u "notes") 0%Z)
                                  Hrow Hcol) as (value & Hv & _).
    rewrite Hv. reflexivity.
Qed.

Lemma free_text_failure_resets_witness :
  let w := mkWorld [[u "Имя клиента"]; [u "Ana"]] [true] []
                   (mkUserData (Some (u "budget")) (Some 2%Z)) in
  dispatch [7%Z] 7%Z (TextMessage (u "100k")) (Some EDITING, w)
  = (Some BULK_DATA,
     mkWorld (sheet w) [] [ReplyText SAVE_FAILED None] (user_data w)).
Proof.
  assert (Hauth : In 7%Z [7%Z]) by (left; reflexivity).
  assert (Hrow : (1 <= 2)%Z) by lia.
  assert (Hcol : (1 <= get_or FIELD_TO_COL (u "budget") 0)%Z)
    by (vm_compute; discriminate).
  exact (free_text_failure_resets
           [7%Z] 7%Z (u "100k") (u "budget") 2%Z
           (mkWorld [[u "Имя клиента"]; [u "Ana"]] [true] []
                    (mkUserData (Some (u "budget")) (Some 2%Z)))
           [] Hauth eq_refl Hrow Hcol (or_introl eq_refl)).
Defined.

(** ** Row indices in tokens *)

Lemma string_of_uint_str (d : Decimal.uint) :
  map Ascii.N_of_ascii
      (String.list_ascii_of_string (NilEmpty.string_of_uint d))
  = uint_str d.
Proof.
  induction d;
    cbn [NilEmpty.string_of_uint String.list_ascii_of_string map uint_str];
    [reflexivity|..]; rewrite IHd; reflexivity.
Qed.

Lemma int_digits_uint (d : Decimal.uint) :
  forall acc b, d <> Decimal.Nil \/ b = true ->
                int_digits acc b (uint_str d) = Some (uint_val acc d).
Proof.
  induction d; intros acc b H;
    try (cbn [uint_str uint_val int_digits];
         change (digit_value _) with (Some 0) || change (digit_value _) with (Some 1)
         || change (digit_value _) with (Some 2) || change (digit_value _) with (Some 3)
         || change (digit_value _) with (Some 4) || change (digit_value _) with (Some 5)
         || change (digit_value _) with (Some 6) || change (digit_value _) with (Some 7)
         || change (digit_value _) with (Some 8) || change (digit_value _) with (Some 9);
         cbv iota beta; rewrite IHd by (right; reflexivity); reflexivity).
  destruct H as [H | ->]; [congruence | reflexivity].
Qed.

Lemma uint_val_pos (d : Decimal.uint) :
  forall p, uint_val (N.pos p) d = N.pos (Pos.of_uint_acc d p).
Proof.
  induction d; intros p; cbn [uint_val Pos.of_uint_acc]; [reflexivity|..].
  all: rewrite <- IHd; f_equal; lia.
Qed.

Lemma uint_val_zero (d : Decimal.uint) : uint_val 0 d = Pos.of_uint d.
Proof.
  induction d; cbn [uint_val Pos.of_uint]; [reflexivity | exact IHd |..].
  all: apply uint_val_pos.
Qed.

Lemma uint_str_no_space (d : Decimal.uint) :
  Forall (fun c => isspace c = false) (uint_str d).
Proof. induction d; simpl; constructor; auto. Qed.

Lemma strip_no_space (s : str) :
  Forall (fun c => isspace c = false) s -> strip s = s.
Proof.
  intros H. apply strip_ends.
  - destruct s; [exact I|]. inversion H; assumption.
  - apply (Forall_last_char (fun c => isspace c = false)). exact H.
Qed.

Lemma to_uint_not_nil (p : positive) : Pos.to_uint p <> Decimal.Nil.
Proof.
  intros E. pose proof (DecimalPos.Unsigned.of_to p) as H.
  rewrite E in H. discriminate H.
Qed.

Lemma uint_str_head (d : Decimal.uint) :
  match uint_str d with
  | c :: _ => (c =? 0x2B) = false /\ (c =? 0x2D) = false
  | [] => True
  end.
Proof. destruct d; simpl; auto. Qed.

Lemma py_int_digits (ds : str) :
  match ds with
  | c :: _ => (c =? 0x2B) = false /\ (c =? 0x2D) = false
  | [] => True
  end ->
  Forall (fun c => isspace c = false) ds ->
  py_int ds = option_map Z.of_N (int_digits 0 false ds).
Proof.
  intros Hh Hs. unfold py_int. rewrite (strip_no_space ds Hs).
  destruct ds as [|c t]; [reflexivity|].
  destruct Hh as [H1 H2]. apply N.eqb_neq in H1, H2.
  destruct c as [|p]; [reflexivity|].
  do 6 (destruct p as [p|p|]; try reflexivity); congruence.
Qed.

Lemma nilzero_string (d : Decimal.uint) :
  d <> Decimal.Nil ->
  NilZero.string_of_uint d = NilEmpty.string_of_uint d.
Proof. destruct d; [congruence | reflexivity ..]. Qed.

(** The row index written into a token is read back as it was:
    [int(f"{row_index}")] is [row_index]. *)
Theorem row_index_round_trip (row_index : Z) :
  py_int (str_of_Z row_index) = Some row_index.
Proof.
  unfold str_of_Z. destruct row_index as [|p|p]; [reflexivity | |];
    pose proof (to_uint_not_nil p) as Hn;
    cbn [Z.to_int NilZero.string_of_int];
    rewrite (nilzero_string _ Hn).
  - rewrite string_of_uint_str.
    rewrite py_int_digits by (apply uint_str_head || apply uint_str_no_space).
    rewrite int_digits_uint by (left; exact Hn).
    rewrite uint_val_zero, DecimalPos.Unsigned.of_to. reflexivity.
  - change (String.list_ascii_of_string
              (String "-" (NilEmpty.string_of_uint (Pos.to_uint p))))
      with ("-"%char :: String.list_ascii_of_string
                          (NilEmpty.string_of_uint (Pos.to_uint p))).
    cbn [map]. rewrite string_of_uint_str.
    change (Ascii.N_of_ascii "-") with 0x2D.
    unfold py_int. rewrite strip_no_space
      by (constructor; [reflexivity | apply uint_str_no_space]).
    rewrite int_digits_uint by (left; exact Hn).
    rewrite uint_val_zero, DecimalPos.Unsigned.of_to. reflexivity.
Qed.

(** ** The tokens of the menu *)

Ltac known_token :=
  cbn [callback_data];
  lazymatch goal with
  | |- u "noop" = u "noop" \/ _ => left; reflexivity
  | |- ?p ++ ?ri = _ \/ _ =>
      let parts := eval vm_compute in (split_on 0x3A p) in
      lazymatch parts with
      | [?f; ?s; []] =>
          let is_finish := eval vm_compute in (str_eqb f (u "finish")) in
          let is_input := eval vm_compute in (str_eqb f (u "input")) in
          lazymatch is_finish with
          | true =>
              right; left; rewrite token_prefix; f_equal;
              vm_compute; reflexivity
          | false =>
              lazymatch is_input with
              | true =>
                  right; right; left; exists s;
                  split; [rewrite token_prefix; f_equal; vm_compute;
                          reflexivity|];
                  split; vm_compute; [reflexivity | discriminate]
              | false =>
                  right; right; right;
                  exists f, s, (get_or OPTIONS_MAP f []),
                         (get_or (get_or OPTIONS_MAP f []) s []);
                  split; [rewrite token_prefix; f_equal; vm_compute;
                          reflexivity|];
                  split; vm_compute; reflexivity
              end
          end
      end
  end.

(** Every button the menu offers carries data [handle_button] has a branch
    for: a section header carries "noop"; every other button carries a
    token with the row index of the menu, which is the "finish" token, an
    "input" token for a field code that has a column, or the token of an
    option of a field of [OPTIONS_MAP]. *)
Theorem menu_offers_known_tokens
        (row_vals : list str) (row_index : Z) (b : Button) :
  In b (buttons (keyboard row_vals row_index)) ->
  let ri := str_of_Z row_index in
  callback_data b = u "noop"
  \/ callback_data b = token (u "finish") (u "_") ri
  \/ (exists code,
        callback_data b = token (u "input") code ri
        /\ contains 0x3A code = false
        /\ (1 <= get_or FIELD_TO_COL code 0)%Z)
  \/ (exists field_code short_code opts canonical,
        callback_data b = token field_code short_code ri
        /\ dict_get OPTIONS_MAP field_code = Some opts
        /\ dict_get opts short_code = Some canonical).
Proof.
  intros Hin ri. subst ri. revert Hin.
  unfold buttons, keyboard. cbv beta zeta. cbn [concat app In].
  generalize (str_of_Z row_index) as ri. intros ri Hin.
  repeat (destruct Hin as [<-|Hin]; [known_token|]).
  destruct Hin.
Qed.

Lemma menu_offers_known_tokens_witness :
  let b := mkButton (u "Завершить") (u "finish:_:2") in
  In b (buttons (keyboard [u "Ana"] 2))
  /\ callback_data b = token (u "finish") (u "_") (str_of_Z 2).
Proof.
  assert (Hin : In (mkButton (u "Завершить") (u "finish:_:2"))
                   (buttons (keyboard [u "Ana"] 2))).
  { apply in_rev. left. vm_compute. reflexivity. }
  split; [exact Hin|].
  destruct (menu_offers_known_tokens [u "Ana"] 2 _ Hin)
    as [H | [H | [(code & H & _) | (f & s & o & c & H & _)]]];
    vm_compute in H |- *; first [exact H | discriminate H | reflexivity].
Defined.

(** ** Setting the sheet up *)

Lemma setup_sheet_clean (sh : Sheet) (ob : list Sent) (ud : UserData) :
  setup_sheet (mkWorld sh [] ob ud)
  = (Ok tt, mkWorld (with_headers sh) [] ob ud).
Proof.
  unfold setup_sheet, with_headers, trimmed_row_values, insert_row,
    delete_rows. run.
  change (sheet_row_values sh 1) with (Some (nth 0 sh [])). cbv beta iota.
  destruct (trim_row (nth 0 sh [])) as [|c t]; [reflexivity|].
  change (length REQUIRED_HEADERS) with 32%nat.
  destruct (strs_eqb (firstn 32 (c :: t)) REQUIRED_HEADERS); reflexivity.
Qed.

Lemma with_headers_fixed (sh : Sheet) :
  with_headers (REQUIRED_HEADERS :: sh) = REQUIRED_HEADERS :: sh.
Proof. vm_compute. reflexivity. Qed.

Lemma with_headers_twice (sh : Sheet) :
  with_headers (with_headers sh) = with_headers sh.
Proof.
  unfold with_headers at 2 3.
  destruct (trim_row (nth 0 sh [])) as [|c t] eqn:E;
    [apply with_headers_fixed|].
  destruct (strs_eqb (firstn 32 (c :: t)) REQUIRED_HEADERS) eqn:H;
    [|apply with_headers_fixed].
  unfold with_headers. rewrite E, H. reflexivity.
Qed.

Lemma with_headers_first_row (sh : Sheet) :
  firstn 32 (nth 0 (with_headers sh) []) = REQUIRED_HEADERS.
Proof.
  unfold with_headers.
  destruct (trim_row (nth 0 sh [])) as [|c t] eqn:E; [reflexivity|].
  destruct (strs_eqb (firstn 32 (c :: t)) REQUIRED_HEADERS) eqn:H;
    [|reflexivity].
  apply strs_eqb_eq in H. rewrite <- H, <- E. apply firstn_trim.
  rewrite E, H. reflexivity.
Qed.

(** [setup_sheet] when no call to the sheet fails.  It returns, and the
    first row then begins with [REQUIRED_HEADERS].  A first row with
    nothing in it is kept and moves down with everything below it; a first
    row that already begins with the headers is kept as it is; any other
    first row is deleted, whatever it holds, and the headers take its
    place.  Running it again changes nothing. *)
Theorem setup_sheet_installs_headers (w : World) :
  faults w = [] ->
  let w' := snd (setup_sheet w) in
  let existing := trim_row (nth 0 (sheet w) []) in
  fst (setup_sheet w) = Ok tt
  /\ firstn 32 (nth 0 (sheet w') []) = REQUIRED_HEADERS
  /\ (existing = [] -> sheet w' = REQUIRED_HEADERS :: sheet w)
  /\ (existing <> [] -> firstn 32 existing = REQUIRED_HEADERS ->
      sheet w' = sheet w)
  /\ (existing <> [] -> firstn 32 existing <> REQUIRED_HEADERS ->
      sheet w' = REQUIRED_HEADERS :: tl (sheet w))
  /\ setup_sheet w' = (Ok tt, w').
Proof.
  intros Hf w' existing. subst w' existing.
  destruct w as [sh fs ob ud]. cbn [faults] in Hf. subst fs.
  rewrite setup_sheet_clean. cbn [fst snd sheet].
  split; [reflexivity|]. split; [apply with_headers_first_row|].
  split; [|split; [|split]].
  - intros E. unfold with_headers. rewrite E. reflexivity.
  - intros Hne E. unfold with_headers.
    destruct (trim_row (nth 0 sh [])) as [|c t]; [congruence|].
    rewrite E, headers_eqb. reflexivity.
  - intros Hne E. unfold with_headers.
    destruct (trim_row (nth 0 sh [])) as [|c t]; [congruence|].
    destruct (strs_eqb (firstn 32 (c :: t)) REQUIRED_HEADERS) eqn:H.
    + apply strs_eqb_eq in H. contradiction.
    + destruct sh; reflexivity.
  - rewrite setup_sheet_clean, with_headers_twice. reflexivity.
Qed.

Lemma setup_sheet_installs_headers_witness :
  let w := mkWorld [[u "Ana"; u "+34600111222"]; [u "Bob"]] [] []
                   (mkUserData None None) in
  sheet (snd (setup_sheet w)) = [REQUIRED_HEADERS; [u "Bob"]].
Proof.
  destruct (setup_sheet_installs_headers
              (mkWorld [[u "Ana"; u "+34600111222"]; [u "Bob"]] [] []
                       (mkUserData None None)) eq_refl)
    as (_ & _ & _ & _ & H & _).
  cbv zeta. apply H.
  - vm_compute. discriminate.
  - vm_compute. discriminate.
Defined.

(** [setup_sheet] interrupted.  When the first row is to be replaced and
    the delete goes through but the insert raises, [setup_sheet] raises
    with the first row gone and nothing in its place. *)
Theorem setup_sheet_interrupted (w : World) (fs : list bool) :
  let existing := trim_row (nth 0 (sheet w) []) in
  existing <> [] -> firstn 32 existing <> REQUIRED_HEADERS ->
  faults w = false :: false :: true :: fs ->
  setup_sheet w
  = (Raised, mkWorld (tl (sheet w)) fs (outbox w) (user_data w)).
Proof.
  intros existing Hne Hh Hf. subst existing.
  destruct w as [sh fs0 ob ud]. cbn [faults sheet outbox user_data] in *.
  subst fs0.
  unfold setup_sheet, trimmed_row_values, insert_row, delete_rows. run.
  change (sheet_row_values sh 1) with (Some (nth 0 sh [])). cbv beta iota.
  destruct (trim_row (nth 0 sh [])) as [|c t]; [congruence|].
  change (length REQUIRED_HEADERS) with 32%nat.
  destruct (strs_eqb (firstn 32 (c :: t)) REQUIRED_HEADERS) eqn:H.
  - apply strs_eqb_eq in H. contradiction.
  - change (sheet_delete_rows sh 1) with (Some (remove_nth 0 sh)).
    cbv beta iota. destruct sh; reflexivity.
Qed.

Lemma setup_sheet_interrupted_witness :
  let w := mkWorld [[u "Ana"; u "+34600111222"]; [u "Bob"]]
                   [false; false; true] [] (mkUserData None None) in
  setup_sheet w = (Raised, mkWorld [[u "Bob"]] [] [] (mkUserData None None)).
Proof.
  apply (setup_sheet_interrupted
           (mkWorld [[u "Ana"; u "+34600111222"]; [u "Bob"]]
                    [false; false; true] [] (mkUserData None None)) []).
  - vm_compute. discriminate.
  - vm_compute. discriminate.
  - reflexivity.
Defined.

(** ** Rows with empty cells at the end *)

Lemma get_val_blanks (row_vals blanks : list str) (field_code : str) :
  forallb (fun c => negb (truthy c)) blanks = true ->
  get_val (row_vals ++ blanks) field_code = get_val row_vals field_code.
Proof.
  intros Hb. unfold get_val. cbv zeta.
  set (col := get_or FIELD_TO_COL field_code 0%Z).
  destruct (col <? 1)%Z eqn:E1; [reflexivity|]. cbn [orb].
  apply Z.ltb_ge in E1.
  destruct (col >? Z.of_nat (length row_vals))%Z eqn:E2.
  - assert (Hn : nth (idx col) (row_vals ++ blanks) [] = []).
    { apply Z.gtb_lt in E2. rewrite app_nth2 by (unfold idx; lia).
      destruct (nth_in_or_default (idx col - length row_vals) blanks [])
        as [Hin | ->]; [|reflexivity].
      rewrite forallb_forall in Hb. specialize (Hb _ Hin).
      destruct (nth _ blanks []); [reflexivity | discriminate]. }
    rewrite Hn.
    destruct (col >? Z.of_nat (length (row_vals ++ blanks)))%Z; reflexivity.
  - assert (E3 : (col >? Z.of_nat (length (row_vals ++ blanks)))%Z = false).
    { rewrite length_app. rewrite Z.gtb_ltb in *. apply Z.ltb_ge.
      apply Z.ltb_ge in E2. lia. }
    rewrite E3. rewrite app_nth1; [reflexivity|].
    rewrite Z.gtb_ltb in E2. apply Z.ltb_ge in E2. unfold idx. lia.
Qed.

(** The menu does not see the empty cells at the end of a row: with or
    without them the keyboard is the same, so it does not matter whether
    the sheet hands the row over with them or, as gspread does, without. *)
Theorem menu_ignores_trailing_blanks
        (row_vals : list str) (row_index : Z) :
  keyboard (trim_row row_vals) row_index = keyboard row_vals row_index.
Proof.
  destruct (trim_row_split row_vals) as (blanks & E & Hb).
  rewrite E at 2. unfold keyboard. cbv zeta.
  rewrite !(get_val_blanks _ _ _ Hb). reflexivity.
Qed.

(** ** Headers and columns *)

(** Every value stands under its own header.  The column of a field code
    is, in [REQUIRED_HEADERS], the column headed by the name
    [CODE_TO_FIELD] gives the code, which is the name the replies use; and
    intake puts each of the first ten parsed fields in the column headed by
    its key, the region under "Region" and the time zone under the header
    of the code "tz". *)
Theorem every_value_under_its_header :
  (forall code col,
      dict_get FIELD_TO_COL code = Some col ->
      (1 <= col <= 32)%Z
      /\ dict_get CODE_TO_FIELD code
         = Some (nth (idx col) REQUIRED_HEADERS []))
  /\ (forall text i,
         (i < 10)%nat ->
         nth i (stored_row (parse_lead_text text)) []
         = get_or (parse_lead_text text) (nth i REQUIRED_HEADERS []) [])
  /\ (forall text,
         let lead := parse_lead_text text in
         nth 10 (stored_row lead) [] = region_of lead
         /\ nth 10 REQUIRED_HEADERS [] = u "Region"
         /\ nth 13 (stored_row lead) [] = tz_of lead
         /\ nth 13 REQUIRED_HEADERS [] = get_or CODE_TO_FIELD (u "tz") []).
Proof.
  split; [|split].
  - intros code col H. apply dict_get_In in H.
    pose proof editing_columns_headers as F. rewrite forallb_forall in F.
    specialize (F _ H). cbn [fst snd] in F.
    apply andb_true_iff in F as [F K]. apply andb_true_iff in F as [F E].
    apply andb_true_iff in F as [L1 L2].
    apply Z.leb_le in L1, L2. apply str_eqb_eq in E.
    split; [lia|]. rewrite <- E. apply has_key_get. exact K.
  - apply stored_row_columns.
  - apply stored_row_region_tz.
Qed.

Lemma every_value_under_its_header_witness :
  dict_get FIELD_TO_COL (u "budget") = Some 27%Z
  /\ dict_get CODE_TO_FIELD (u "budget") = Some (u "Бюджет")
  /\ nth 26 REQUIRED_HEADERS [] = u "Бюджет".
Proof.
  assert (H : dict_get FIELD_TO_COL (u "budget") = Some 27%Z)
    by (vm_compute; reflexivity).
  destruct every_value_under_its_header as (F & _).
  destruct (F _ _ H) as (_ & E).
  split; [exact H|]. split; [|vm_compute; reflexivity].
  etransitivity; [exact E | vm_compute; reflexivity].
Defined.

(** ** The list of authorized users *)

Lemma uint_str_digits (d : Decimal.uint) :
  forallb isdigit_char (uint_str d) = true.
Proof.
  induction d; [reflexivity|..]; cbn [uint_str forallb]; rewrite IHd;
    reflexivity.
Qed.

Lemma uint_str_no_comma (d : Decimal.uint) :
  contains 0x2C (uint_str d) = false.
Proof.
  induction d; [reflexivity|..]; cbn [uint_str];
    rewrite contains_cons, IHd; reflexivity.
Qed.

Lemma py_int_uint (d : Decimal.uint) :
  d <> Decimal.Nil -> py_int (uint_str d) = Some (Z.of_N (Pos.of_uint d)).
Proof.
  intros Hn.
  rewrite py_int_digits by (apply uint_str_head || apply uint_str_no_space).
  rewrite int_digits_uint by (left; exact Hn).
  rewrite uint_val_zero. reflexivity.
Qed.

(** The decimal digits of a number that is not negative. *)
Lemma str_of_Z_digits (n : Z) :
  (0 <= n)%Z ->
  exists d, d <> Decimal.Nil /\ str_of_Z n = uint_str d
            /\ Z.of_N (Pos.of_uint d) = n.
Proof.
  intros H. destruct n as [|p|p]; [| |lia].
  - exists (Decimal.D0 Decimal.Nil). repeat split. discriminate.
  - exists (Pos.to_uint p). pose proof (to_uint_not_nil p) as Hn.
    split; [exact Hn|]. split.
    + unfold str_of_Z. cbn [Z.to_int NilZero.string_of_int].
      rewrite (nilzero_string _ Hn). apply string_of_uint_str.
    + rewrite DecimalPos.Unsigned.of_to. reflexivity.
Qed.

Lemma uint_str_truthy (d : Decimal.uint) :
  d <> Decimal.Nil -> truthy (uint_str d) = true.
Proof. destruct d; [congruence | reflexivity ..]. Qed.

Lemma authorized_entries_ids (ids : list Z) :
  Forall (fun id => (0 <= id)%Z) ids ->
  authorized_entries (map str_of_Z ids) = Some ids.
Proof.
  induction 1 as [|id ids Hid _ IH]; [reflexivity|].
  destruct (str_of_Z_digits id Hid) as (d & Hn & E & V).
  cbn [map authorized_entries]. cbv zeta. rewrite E.
  rewrite (strip_no_space _ (uint_str_no_space d)).
  unfold isdigit. rewrite (uint_str_truthy d Hn), uint_str_digits.
  cbn [andb]. rewrite (py_int_uint d Hn), V, IH. reflexivity.
Qed.

(** Reading the list of users back.  User ids that are not negative and
    have at most 4300 digits, which is as many as CPython's [int()] takes,
    written in decimal and joined by commas, are the list the module
    loads, in the order they are written. *)
Theorem authorized_users_round_trip (ids : list Z) :
  Forall (fun id => (0 <= id < 10 ^ 4300)%Z) ids ->
  load_authorized_users (join (u ",") (map str_of_Z ids)) = Some ids.
Proof.
  intros Hb.
  assert (H : Forall (fun id => (0 <= id)%Z) ids).
  { eapply Forall_impl; [|exact Hb]. intros id Hid. apply Hid. }
  clear Hb. unfold load_authorized_users.
  destruct ids as [|id ids]; [reflexivity|].
  assert (Hc : Forall (fun p => contains 0x2C p = false)
                      (map str_of_Z (id :: ids))).
  { apply Forall_map. eapply Forall_impl; [|exact H].
    intros n Hn. cbv beta in Hn.
    destruct (str_of_Z_digits n Hn) as (d & _ & -> & _).
    apply uint_str_no_comma. }
  assert (T : truthy (join (u ",") (map str_of_Z (id :: ids))) = true).
  { inversion H as [|? ? Hid _]; subst.
    destruct (str_of_Z_digits id Hid) as (d & Hn & E & _).
    cbn [map]. rewrite E.
    destruct d; [congruence|..]; destruct (map str_of_Z ids); reflexivity. }
  rewrite T. change (u ",") with [0x2C].
  rewrite split_on_join by (discriminate || exact Hc).
  apply authorized_entries_ids. exact H.
Qed.

Lemma authorized_users_round_trip_witness :
  load_authorized_users (u "1001,42,7") = Some [1001%Z; 42%Z; 7%Z].
Proof.
  assert (H : Forall (fun id => (0 <= id < 10 ^ 4300)%Z)
                     [1001%Z; 42%Z; 7%Z]).
  { repeat constructor; try lia; apply Z.ltb_lt; vm_compute; reflexivity. }
  etransitivity; [|exact (authorized_users_round_trip _ H)].
  vm_compute. reflexivity.
Defined.

Lemma int_digits_nonneg (ds : str) (n : Z) :
  option_map Z.of_N (int_digits 0 false ds) = Some n -> (0 <= n)%Z.
Proof.
  destruct (int_digits 0 false ds); [|discriminate].
  intros H. inversion H. lia.
Qed.

Lemma isdigit_py_int (s : str) (n : Z) :
  isdigit s = true -> py_int s = Some n -> (0 <= n)%Z.
Proof.
  unfold isdigit, py_int. intros Hd.
  apply andb_true_iff in Hd as [_ Hd].
  destruct (strip_split s) as (pre & post & E & _).
  assert (Hs : forallb isdigit_char (strip s) = true).
  { rewrite E, !forallb_app in Hd.
    apply andb_true_iff in Hd as [_ Hd].
    apply andb_true_iff in Hd as [Hd _]. exact Hd. }
  destruct (strip s) as [|c t]; [discriminate|].
  cbn [forallb] in Hs. apply andb_true_iff in Hs as [Hc _].
  destruct (c =? 0x2D) eqn:E2.
  { apply N.eqb_eq in E2. subst c. vm_compute in Hc. discriminate. }
  destruct (c =? 0x2B) eqn:E1.
  { apply N.eqb_eq in E1. subst c. apply int_digits_nonneg. }
  intros H.
  assert (H' : option_map Z.of_N (int_digits 0 false (c :: t)) = Some n).
  { revert H. clear -E1 E2. apply N.eqb_neq in E1, E2.
    destruct c as [|p]; [auto|].
    do 6 (destruct p as [p|p|]; auto); try congruence. }
  eapply int_digits_nonneg. exact H'.
Qed.

Lemma authorized_entries_nonneg (parts : list str) :
  forall ids, authorized_entries parts = Some ids ->
              Forall (fun id => (0 <= id)%Z) ids.
Proof.
  induction parts as [|part parts IH]; intros ids H; cbn in H.
  - inversion H. constructor.
  - destruct (isdigit (strip part)) eqn:Hd; [|auto].
    destruct (py_int (strip part)) as [n|] eqn:Hn; [|discriminate].
    destruct (authorized_entries parts) as [rest|]; [|discriminate].
    inversion H; subst. constructor; [|auto].
    eapply isdigit_py_int; eassumption.
Qed.

(** No negative number is ever an authorized user: an entry with a sign
    is no run of digits and is passed over. *)
Theorem authorized_users_are_not_negative (auth_str : str) (ids : list Z) :
  load_authorized_users auth_str = Some ids ->
  Forall (fun id => (0 <= id)%Z) ids.
Proof.
  unfold load_authorized_users. destruct (truthy auth_str).
  - apply authorized_entries_nonneg.
  - intros H. inversion H. constructor.
Qed.

Lemma authorized_users_are_not_negative_witness :
  load_authorized_users (u "1001, -5 ,x7,,42") = Some [1001%Z; 42%Z]
  /\ Forall (fun id => (0 <= id)%Z) [1001%Z; 42%Z].
Proof.
  assert (H : load_authorized_users (u "1001, -5 ,x7,,42")
              = Some [1001%Z; 42%Z]) by (vm_compute; reflexivity).
  split; [exact H|].
  exact (authorized_users_are_not_negative _ _ H).
Defined.

Lemma split_on_not_nil (sep : char) (s : str) : split_on sep s <> [].
Proof.
  destruct s as [|c s]; cbn [split_on]; [discriminate|].
  destruct (c =? sep); [discriminate|].
  destruct (split_on sep s); discriminate.
Qed.

Lemma split_on_snoc (sep : char) (s part : str) :
  contains sep part = false ->
  split_on sep (s ++ sep :: part) = split_on sep s ++ [part].
Proof.
  intros Hp. induction s as [|c s IH]; cbn [app split_on].
  - rewrite N.eqb_refl. rewrite split_on_none by exact Hp. reflexivity.
  - destruct (c =? sep); [rewrite IH; reflexivity|].
    rewrite IH. pose proof (split_on_not_nil sep s) as Hn.
    destruct (split_on sep s); [congruence | reflexivity].
Qed.

Lemma authorized_entries_snoc (parts : list str) (part : str) :
  isdigit (strip part) = false ->
  authorized_entries (parts ++ [part]) = authorized_entries parts.
Proof.
  intros Hp. induction parts as [|p parts IH]; cbn [app authorized_entries].
  - cbv zeta. rewrite Hp. reflexivity.
  - cbv zeta. rewrite IH. reflexivity.
Qed.

(** An entry that is not a run of digits changes nothing: a name, a
    number with a sign, or nothing at all between two commas, added to
    the end of the variable, leaves the list what it was. *)
Theorem other_entries_are_passed_over (auth_str part : str) :
  contains 0x2C part = false ->
  isdigit (strip part) = false ->
  load_authorized_users (auth_str ++ u "," ++ part)
  = load_authorized_users auth_str.
Proof.
  intros Hc Hd. unfold load_authorized_users.
  change (u "," ++ part) with (0x2C :: part).
  assert (T : truthy (auth_str ++ 0x2C :: part) = true)
    by (destruct auth_str; reflexivity).
  rewrite T, (split_on_snoc _ _ _ Hc), (authorized_entries_snoc _ _ Hd).
  destruct auth_str as [|c s]; [|reflexivity].
  cbn [truthy split_on authorized_entries]. cbv zeta.
  change (isdigit (strip [])) with false. reflexivity.
Qed.

Lemma other_entries_are_passed_over_witness :
  load_authorized_users (u "1001" ++ u "," ++ u " -5 ")
  = load_authorized_users (u "1001").
Proof.
  apply other_entries_are_passed_over; vm_compute; reflexivity.
Defined.
